(** * AI_Poker_Assistant: the table-state cleaner and the capture cycle

    A shallow embedding of [ml_pipeline.py] (the field cleaner and
    validator) and of the hand-lifecycle and change-detection part of
    [ocr.py] ([OCR.refresh_all] and the per-seat readers it calls),
    followed by the properties of the specification stated on them.

    Python values are modelled as follows.
    - A [str] is the list of its code points ([list N]); [py "..."] writes
      an ASCII literal.  Case mapping and the digit class are the ASCII
      ones (a code point above 127 has no case and is not a digit); the
      white-space class is Python's complete [str.isspace] table.
    - A [float] is an IEEE binary64 value, [spec_float] of the standard
      library with precision 53 and [emax] 1024; [float(...)] of a decimal
      text is correctly rounded.
    - A decoded JSON document, and any Python object built from [None],
      [bool], [int], [float], [str], [list] and [dict], is a [json]; a
      [dict] keeps its items in insertion order.
    - A call that can raise returns an [outcome]. *)

From Stdlib Require Import ZArith NArith List String Ascii Bool Lia.
From Stdlib Require Import SpecFloat DecimalString.
From stdpp Require Import gmap strings list sorting.

Local Open Scope N_scope.

(** ** Python strings *)

Abbreviation pystr := (list N).

Definition py (s : string) : pystr :=
  map N_of_ascii (list_ascii_of_string s).

Definition str_eqb (s t : pystr) : bool := bool_decide (s = t).

(** [str.isspace] of one code point (Unicode white space, and the four
    ASCII separators 28..31). *)
Definition isspace (c : N) : bool :=
  ((9 <=? c) && (c <=? 13)) || ((28 <=? c) && (c <=? 32))
  || (c =? 133) || (c =? 160) || (c =? 5760)
  || ((8192 <=? c) && (c <=? 8202))
  || (c =? 8232) || (c =? 8233) || (c =? 8239) || (c =? 8287) || (c =? 12288).

Fixpoint lstrip (s : pystr) : pystr :=
  match s with
  | c :: s' => if isspace c then lstrip s' else s
  | [] => []
  end.

Definition rstrip (s : pystr) : pystr := rev (lstrip (rev s)).

Definition strip (s : pystr) : pystr := rstrip (lstrip s).

Definition upper_char (c : N) : N :=
  if (97 <=? c) && (c <=? 122) then c - 32 else c.

Definition lower_char (c : N) : N :=
  if (65 <=? c) && (c <=? 90) then c + 32 else c.

Definition upper (s : pystr) : pystr := map upper_char s.
Definition lower (s : pystr) : pystr := map lower_char s.

Fixpoint startswith (p s : pystr) : bool :=
  match p, s with
  | [], _ => true
  | a :: p', b :: s' => (a =? b) && startswith p' s'
  | _ :: _, [] => false
  end.

Definition endswith (p s : pystr) : bool := startswith (rev p) (rev s).

(** [needle in hay] *)
Fixpoint contains (needle hay : pystr) : bool :=
  startswith needle hay ||
  match hay with
  | [] => false
  | _ :: hay' => contains needle hay'
  end.

(** [s.replace(old, new)] for a one-character [old]. *)
Definition replace_char (old : N) (new : pystr) (s : pystr) : pystr :=
  flat_map (fun c => if c =? old then new else [c]) s.

(** [sep.join(parts)] *)
Fixpoint join (sep : pystr) (parts : list pystr) : pystr :=
  match parts with
  | [] => []
  | [p] => p
  | p :: rest => p ++ sep ++ join sep rest
  end.

(** [s[:-n]] for [n > 0], and [s[-1]] of a non-empty string. *)
Definition drop_last (n : nat) (s : pystr) : pystr := take (length s - n) s.
Definition last_char (s : pystr) : pystr :=
  match rev s with
  | c :: _ => [c]
  | [] => []
  end.

Definition isdigit (c : N) : bool := (48 <=? c) && (c <=? 57).

(** ** Results of calls that can raise *)

Inductive exn := OverflowError.

Inductive outcome (A : Type) :=
| Raises (e : exn)
| Returns (a : A).
Arguments Raises {A} e.
Arguments Returns {A} a.

Definition bind {A B} (m : outcome A) (k : A -> outcome B) : outcome B :=
  match m with
  | Raises e => Raises e
  | Returns a => k a
  end.

(** ** Decoded JSON documents and Python objects *)

#[warnings="-register-all"]
Inductive json :=
| JNull
| JBool (b : bool)
| JInt (z : Z)
| JFloat (f : spec_float)
| JStr (s : pystr)
| JList (l : list json)
| JDict (d : list (pystr * json)).

(** [d.get(key)] and [d.get(key, default)] on the items of a dict. *)
Fixpoint dict_lookup {V} (key : pystr) (d : list (pystr * V)) : option V :=
  match d with
  | [] => None
  | (k, v) :: d' => if str_eqb k key then Some v else dict_lookup key d'
  end.

Definition dict_get {V} (d : list (pystr * V)) (key : pystr) (default : V) : V :=
  match dict_lookup key d with
  | Some v => v
  | None => default
  end.

(** [d[key] = v]: an existing key keeps its place, a new one goes last. *)
Fixpoint dict_set {V} (key : pystr) (v : V) (d : list (pystr * V)) : list (pystr * V) :=
  match d with
  | [] => [(key, v)]
  | (k, w) :: d' => if str_eqb k key then (k, v) :: d' else (k, w) :: dict_set key v d'
  end.

(** ** ml_pipeline.py: cards *)

Definition spade : N := 9824.
Definition heart : N := 9829.
Definition diamond : N := 9830.
Definition club : N := 9827.

Definition ranks : list pystr :=
  [py "A"; py "K"; py "Q"; py "J"; py "10";
   py "2"; py "3"; py "4"; py "5"; py "6"; py "7"; py "8"; py "9"].

Definition suits : list N := [spade; heart; diamond; club].

(** [VALID_CARD_PATTERN.match(card)] for the pattern
    [^(A|K|Q|J|10|[2-9])[♠♥♦♣]$]: a rank, a suit and then the end of the
    text, where [$] also accepts one final line feed. *)
Definition VALID_CARD_PATTERN (card : pystr) : bool :=
  existsb (fun r =>
    existsb (fun u => str_eqb card (r ++ [u]) || str_eqb card (r ++ [u; 10]))
            suits) ranks.

Definition suit_replacements : list (pystr * N) :=
  [(py "S", spade); (py "SPADES", spade); (py "SPADE", spade);
   (py "H", heart); (py "HEARTS", heart); (py "HEART", heart);
   (py "D", diamond); (py "DIAMONDS", diamond); (py "DIAMOND", diamond);
   (py "C", club); (py "CLUBS", club); (py "CLUB", club)].

Definition normalize_card_format (card : pystr) : pystr :=
  let card := strip (upper card) in
  if startswith (py "10") card then py "10" ++ drop 2 card
  else if startswith (py "T") card then py "10" ++ drop 1 card
  else
    match find (fun item => endswith (fst item) card) suit_replacements with
    | Some (text_suit, symbol) => drop_last (length text_suit) card ++ [symbol]
    | None => card
    end.

Definition value_corrections : list (pystr * pystr) :=
  [(py "0", py "Q"); (py "O", py "Q"); (py "I", py "1"); (py "L", py "1");
   (py "S", py "5"); (py "B", py "8"); (py "G", py "6")].

Definition repair_card_ocr_errors (card : pystr) : option pystr :=
  if (length card <? 2)%nat then None
  else
    let value_part := drop_last 1 card in
    let suit_part := last_char card in
    let corrected_value := dict_get value_corrections value_part value_part in
    let corrected_card := corrected_value ++ suit_part in
    Some (normalize_card_format corrected_card).

(** Truth value of a [str]. *)
Definition nonempty (s : pystr) : bool :=
  match s with [] => false | _ => true end.

Definition clean_single_card (card : json) : option pystr :=
  match card with
  | JStr card =>
      let card := strip card in
      if negb (nonempty card) || (length card <? 2)%nat then None
      else
        let card := normalize_card_format card in
        if VALID_CARD_PATTERN card then Some card
        else
          match repair_card_ocr_errors card with
          | Some repaired_card =>
              if nonempty repaired_card && VALID_CARD_PATTERN repaired_card
              then Some repaired_card else None
          | None => None
          end
  | _ => None
  end.

(** The loop of [clean_card_list]: one step appends the cleaned card when
    there is one and it is truthy. *)
Definition clean_card_step (cleaned_cards : list pystr) (card : json) : list pystr :=
  match clean_single_card card with
  | Some cleaned_card =>
      if nonempty cleaned_card then cleaned_cards ++ [cleaned_card] else cleaned_cards
  | None => cleaned_cards
  end.

Definition clean_card_list (card_list : json) : list pystr :=
  match card_list with
  | JList cards => fold_left clean_card_step cards []
  | _ => []
  end.

(** ** Python floats *)

Definition prec : Z := 53.
Definition emax : Z := 1024.

Definition float_zero : spec_float := S754_zero false.

(** The binary64 value nearest to [(-1)^neg * m * 10^e] (ties to even). *)
Definition float_of_decimal (neg : bool) (m : N) (e : Z) : spec_float :=
  match m with
  | N0 => S754_zero neg
  | Npos p =>
      if (0 <=? e)%Z
      then binary_round prec emax neg (p * Z.to_pos (10 ^ e)) 0
      else
        let '(mz, ez, lz) :=
          SFdiv_core_binary prec emax (Zpos p) 0 (10 ^ (- e))%Z 0 in
        binary_round_aux prec emax neg mz ez lz
  end.

(** [float(n)] of an [int]: correctly rounded, [OverflowError] beyond the
    largest finite value. *)
Definition float_of_int (z : Z) : outcome spec_float :=
  match binary_normalize prec emax z 0 false with
  | S754_infinity _ => Raises OverflowError
  | f => Returns f
  end.

Definition float_of_bool (b : bool) : spec_float :=
  if b then binary_normalize prec emax 1 0 false else float_zero.

(** The white space [float(text)] strips: [str.isspace] without the
    separators 28..31. *)
Definition float_space (c : N) : bool :=
  isspace c && negb ((28 <=? c) && (c <=? 31)).

Fixpoint lstrip_float (s : pystr) : pystr :=
  match s with
  | c :: s' => if float_space c then lstrip_float s' else s
  | [] => []
  end.

Definition strip_float (s : pystr) : pystr :=
  rev (lstrip_float (rev (lstrip_float s))).

(** [digit (["_"] digit)*] after a first digit: the digits read and the
    rest of the text. *)
Fixpoint digitpart_tail (s : pystr) : list N * pystr :=
  match s with
  | [] => ([], [])
  | c :: s' =>
      if isdigit c then
        let (ds, r) := digitpart_tail s' in (c :: ds, r)
      else if c =? 95 then
        match s' with
        | d :: s'' =>
            if isdigit d then
              let (ds, r) := digitpart_tail s'' in (d :: ds, r)
            else ([], s)
        | [] => ([], s)
        end
      else ([], s)
  end.

Definition digitpart (s : pystr) : option (list N * pystr) :=
  match s with
  | c :: s' =>
      if isdigit c then
        let (ds, r) := digitpart_tail s' in Some (c :: ds, r)
      else None
  | [] => None
  end.

Definition digits_value (ds : list N) : N :=
  fold_left (fun acc d => 10 * acc + (d - 48)) ds 0.

Definition parse_sign (s : pystr) : bool * pystr :=
  match s with
  | 43 :: r => (false, r)
  | 45 :: r => (true, r)
  | _ => (false, s)
  end.

(** What follows the mantissa: nothing, or [e] or [E], a sign and digits,
    up to the end of the text. *)
Definition parse_exponent (s : pystr) : option Z :=
  match s with
  | [] => Some 0%Z
  | c :: r =>
      if (c =? 101) || (c =? 69) then
        let (neg, r') := parse_sign r in
        match digitpart r' with
        | Some (ds, []) =>
            Some (if neg then - Z.of_N (digits_value ds) else Z.of_N (digits_value ds))%Z
        | _ => None
        end
      else None
  end.

(** [[digitpart] "." digitpart | digitpart ["."]] and an exponent: the
    decimal mantissa and the power of ten. *)
Definition parse_number (s : pystr) : option (N * Z) :=
  match digitpart s with
  | Some (ip, r) =>
      match r with
      | 46 :: r' =>
          match digitpart r' with
          | Some (fp, r'') =>
              match parse_exponent r'' with
              | Some e => Some (digits_value (ip ++ fp), (e - Z.of_nat (length fp))%Z)
              | None => None
              end
          | None =>
              match parse_exponent r' with
              | Some e => Some (digits_value ip, e)
              | None => None
              end
          end
      | _ =>
          match parse_exponent r with
          | Some e => Some (digits_value ip, e)
          | None => None
          end
      end
  | None =>
      match s with
      | 46 :: r' =>
          match digitpart r' with
          | Some (fp, r'') =>
              match parse_exponent r'' with
              | Some e => Some (digits_value fp, (e - Z.of_nat (length fp))%Z)
              | None => None
              end
          | None => None
          end
      | _ => None
      end
  end.

(** [float(text)]; [None] is [ValueError]. *)
Definition float_of_str (s : pystr) : option spec_float :=
  let s := strip_float s in
  let (neg, r) := parse_sign s in
  let l := lower r in
  if str_eqb l (py "inf") || str_eqb l (py "infinity") then Some (S754_infinity neg)
  else if str_eqb l (py "nan") then Some S754_nan
  else
    match parse_number r with
    | Some (m, e) => Some (float_of_decimal neg m e)
    | None => None
    end.

(** [x < y] and [x <= y] on floats (false when either is NaN). *)
Definition float_ltb (x y : spec_float) : bool := SFltb x y.
Definition float_leb (x y : spec_float) : bool := SFleb x y.

Definition float_100 : spec_float := binary_normalize prec emax 100 0 false.

(** [re.findall(r'\d+\.?\d*', s)]; only its first element is ever used:
    the leftmost run of digits, one dot if it follows, and the digits
    after it. [None] is the empty list of matches. *)
Fixpoint span_digits (s : pystr) : pystr * pystr :=
  match s with
  | c :: s' =>
      if isdigit c then let (ds, r) := span_digits s' in (c :: ds, r)
      else ([], s)
  | [] => ([], [])
  end.

Fixpoint findall_numbers_0 (s : pystr) : option pystr :=
  match s with
  | [] => None
  | c :: s' =>
      if isdigit c then
        let (ds, r) := span_digits s in
        match r with
        | 46 :: r' => let (fs, _) := span_digits r' in Some (ds ++ [46] ++ fs)
        | _ => Some ds
        end
      else findall_numbers_0 s'
  end.

(** ** [str()] and [repr()] of Python objects *)

Definition decimal_of_N (n : N) : pystr :=
  py (NilZero.string_of_uint (N.to_uint n)).

Definition int_str (z : Z) : pystr :=
  match z with
  | Zneg p => py "-" ++ decimal_of_N (Npos p)
  | _ => decimal_of_N (Z.to_N z)
  end.

Definition float_same (x y : spec_float) : bool :=
  match x, y with
  | S754_zero a, S754_zero b => Bool.eqb a b
  | S754_infinity a, S754_infinity b => Bool.eqb a b
  | S754_nan, S754_nan => true
  | S754_finite a m e, S754_finite b n f => Bool.eqb a b && (m =? n)%positive && (e =? f)%Z
  | _, _ => false
  end.

(** [num / den < 10^k] *)
Definition below_pow10 (num den k : Z) : bool :=
  if (0 <=? k)%Z then (num <? den * 10 ^ k)%Z else (num * 10 ^ (- k) <? den)%Z.

Fixpoint find_decpt (fuel : nat) (num den k : Z) : Z :=
  match fuel with
  | O => k
  | S fuel' => if below_pow10 num den k then k else find_decpt fuel' num den (k + 1)
  end.

(** The shortest decimal that reads back as the positive float
    [m * 2^e], as Python's [repr] chooses it: its digits as a number and
    the position of the decimal point. *)
Fixpoint shortest_digits (fuel : nat) (n : Z) (m : positive) (e : Z) (num den k : Z) : Z * Z :=
  let sc := (n - k)%Z in
  let num' := if (0 <=? sc)%Z then (num * 10 ^ sc)%Z else num in
  let den' := if (0 <=? sc)%Z then den else (den * 10 ^ (- sc))%Z in
  let lo := (num' / den')%Z in
  let r := (num' mod den')%Z in
  let reads d := float_same (float_of_decimal false (Z.to_N d) (k - n)) (S754_finite false m e) in
  let lo_ok := reads lo in
  let hi_ok := negb (r =? 0)%Z && reads (lo + 1)%Z in
  let pick_hi :=
    match (2 * r ?= den')%Z with
    | Lt => false
    | Gt => true
    | Eq => Z.odd lo
    end in
  match fuel with
  | O => (if pick_hi then lo + 1 else lo, n)%Z
  | S fuel' =>
      if lo_ok && hi_ok then (if pick_hi then lo + 1 else lo, n)%Z
      else if lo_ok then (lo, n)
      else if hi_ok then ((lo + 1)%Z, n)
      else shortest_digits fuel' (n + 1)%Z m e num den k
  end.

Fixpoint rstrip_zeros_rev (s : pystr) : pystr :=
  match s with
  | 48 :: s' => rstrip_zeros_rev s'
  | _ => s
  end.

Definition zeros (n : Z) : pystr := repeat 48 (Z.to_nat n).

Definition float_repr (f : spec_float) : pystr :=
  match f with
  | S754_nan => py "nan"
  | S754_infinity s => if s then py "-inf" else py "inf"
  | S754_zero s => if s then py "-0.0" else py "0.0"
  | S754_finite s m e =>
      let num := if (0 <=? e)%Z then (Zpos m * 2 ^ e)%Z else Zpos m in
      let den := if (0 <=? e)%Z then 1%Z else (2 ^ (- e))%Z in
      let k := find_decpt 640 num den (-324) in
      let '(d, n) := shortest_digits 16 1 m e num den k in
      let all := decimal_of_N (Z.to_N d) in
      let digits := rev (rstrip_zeros_rev (rev all)) in
      let decpt := (k + (Z.of_nat (length all) - n))%Z in
      let nd := Z.of_nat (length digits) in
      let body :=
        if (decpt <=? -4)%Z || (16 <? decpt)%Z then
          let x := (decpt - 1)%Z in
          let xs := decimal_of_N (Z.to_N (Z.abs x)) in
          take 1 digits
          ++ (if (1 <? nd)%Z then py "." ++ drop 1 digits else [])
          ++ py "e" ++ (if (x <? 0)%Z then py "-" else py "+")
          ++ (if (length xs <? 2)%nat then py "0" ++ xs else xs)
        else if (decpt <=? 0)%Z then py "0." ++ zeros (- decpt) ++ digits
        else if (nd <=? decpt)%Z then digits ++ zeros (decpt - nd) ++ py ".0"
        else take (Z.to_nat decpt) digits ++ py "." ++ drop (Z.to_nat decpt) digits in
      (if s then py "-" else []) ++ body
  end.

Definition hex_digit (n : N) : N := if n <? 10 then 48 + n else 87 + n.

Fixpoint hex_fixed (width : nat) (n : N) : pystr :=
  match width with
  | O => []
  | S w => hex_fixed w (n / 16) ++ [hex_digit (n mod 16)]
  end.

(** One character of [repr(text)] between quotes [q].  Printable ASCII
    stands for itself; so does every code point above 255, and of
    Latin-1 all but 127..160 and 173, which are escaped. *)
Definition repr_char (q : N) (c : N) : pystr :=
  if (c =? q) || (c =? 92) then [92; c]
  else if c =? 9 then py "\t"
  else if c =? 10 then py "\n"
  else if c =? 13 then py "\r"
  else if (c <? 32) || ((127 <=? c) && (c <=? 160)) || (c =? 173)
  then py "\x" ++ hex_fixed 2 c
  else [c].

Definition str_repr (s : pystr) : pystr :=
  let q := if existsb (N.eqb 39) s && negb (existsb (N.eqb 34) s) then 34 else 39 in
  [q] ++ flat_map (repr_char q) s ++ [q].

Fixpoint py_repr (v : json) : pystr :=
  match v with
  | JNull => py "None"
  | JBool b => if b then py "True" else py "False"
  | JInt z => int_str z
  | JFloat f => float_repr f
  | JStr s => str_repr s
  | JList l => py "[" ++ join (py ", ") (map py_repr l) ++ py "]"
  | JDict d =>
      py "{" ++ join (py ", ") (map (fun kv => str_repr (fst kv) ++ py ": " ++ py_repr (snd kv)) d)
      ++ py "}"
  end.

(** [str(v)] *)
Definition py_str (v : json) : pystr :=
  match v with
  | JStr s => s
  | _ => py_repr v
  end.

(** Truth value of an object. *)
Definition truthy (v : json) : bool :=
  match v with
  | JNull => false
  | JBool b => b
  | JInt z => negb (z =? 0)%Z
  | JFloat (S754_zero _) => false
  | JFloat _ => true
  | JStr s => nonempty s
  | JList [] => false
  | JList _ => true
  | JDict [] => false
  | JDict _ => true
  end.

(** [v == text] for a string literal [text]. *)
Definition eq_str (v : json) (text : pystr) : bool :=
  match v with
  | JStr s => str_eqb s text
  | _ => false
  end.

Definition is_none (v : json) : bool :=
  match v with
  | JNull => true
  | _ => false
  end.

(** [float(v)]: [Returns None] is [ValueError] or [TypeError]. *)
Definition py_float (v : json) : outcome (option spec_float) :=
  match v with
  | JInt z =>
      match float_of_int z with
      | Raises e => Raises e
      | Returns f => Returns (Some f)
      end
  | JBool b => Returns (Some (float_of_bool b))
  | JFloat f => Returns (Some f)
  | JStr s => Returns (float_of_str s)
  | JNull | JList _ | JDict _ => Returns None
  end.

(** [text in options] for a list of strings. *)
Definition str_in (text : pystr) (options : list pystr) : bool :=
  existsb (str_eqb text) options.

(** ** ml_pipeline.py: scalar fields *)

Definition clean_pot_value (pot_value : json) : outcome spec_float :=
  if is_none pot_value || eq_str pot_value (py "N/A") then Returns float_zero
  else
    let last_try :=
      match py_float pot_value with
      | Raises e => Raises e
      | Returns (Some f) => Returns f
      | Returns None => Returns float_zero
      end in
    match pot_value with
    | JStr s =>
        let clean_pot := replace_char 32 [] (replace_char 44 [] (replace_char 36 [] s)) in
        if str_eqb clean_pot [] || str_eqb (upper clean_pot) (py "N/A")
        then Returns float_zero
        else
          match float_of_str clean_pot with
          | Some f => Returns f
          | None =>
              match findall_numbers_0 clean_pot with
              | Some number =>
                  match float_of_str number with
                  | Some f => Returns f
                  | None => last_try
                  end
              | None => last_try
              end
          end
    | _ => last_try
    end.

Definition clean_bankroll_value (bankroll : json) : pystr :=
  if is_none bankroll || str_eqb (strip (py_str bankroll)) [] then py "N/A"
  else
    let bankroll_str := strip (replace_char 44 [] (replace_char 36 [] (py_str bankroll))) in
    if str_eqb (upper bankroll_str) (py "N/A") || str_eqb bankroll_str [] then py "N/A"
    else
      match float_of_str bankroll_str with
      | Some _ => bankroll_str
      | None =>
          match findall_numbers_0 bankroll_str with
          | Some number => number
          | None => py "N/A"
          end
      end.

Definition clean_vpip_value (vpip : json) : pystr :=
  if is_none vpip then py "--"
  else
    let vpip_str := strip (py_str vpip) in
    if str_in vpip_str [py "--"; py "N/A"; []] then py "--"
    else if negb (endswith (py "%") vpip_str) && negb (str_eqb vpip_str (py "--")) then
      match float_of_str vpip_str with
      | Some _ => vpip_str ++ py "%"
      | None => py "--"
      end
    else if endswith (py "%") vpip_str
            && match float_of_str (drop_last 1 vpip_str) with
               | Some percentage =>
                   float_leb float_zero percentage && float_leb percentage float_100
               | None => false
               end
    then vpip_str
    else py "--".

Definition position_codes : list pystr :=
  [py "BTN"; py "SB"; py "BB"; py "UTG"; py "MP"; py "CO"; py "HJ"].

(** [VALID_POSITION_PATTERN.match(text)] for [^(BTN|SB|BB|UTG|MP|CO|HJ)$]. *)
Definition VALID_POSITION_PATTERN (text : pystr) : bool :=
  existsb (fun c => str_eqb text c || str_eqb text (c ++ [10])) position_codes.

Definition position_corrections : list (pystr * pystr) :=
  [(py "BUTTON", py "BTN"); (py "BU", py "BTN");
   (py "SMALL", py "SB"); (py "SMALL_BLIND", py "SB");
   (py "BIG", py "BB"); (py "BIG_BLIND", py "BB");
   (py "UNDER_THE_GUN", py "UTG"); (py "MIDDLE", py "MP");
   (py "CUTOFF", py "CO"); (py "HIJACK", py "HJ")].

Definition clean_position_value (position : json) : pystr :=
  if is_none position then py "--"
  else
    let position_str := upper (strip (py_str position)) in
    if str_in position_str [py "--"; py "N/A"; []] then py "--"
    else if VALID_POSITION_PATTERN position_str then position_str
    else dict_get position_corrections position_str (py "--").

Definition clean_action_value (action : json) : pystr :=
  if is_none action then py "--"
  else
    let action_str := lower (strip (py_str action)) in
    if str_in action_str [py "--"; py "n/a"; []] then py "--"
    else if existsb (fun word => contains word action_str) [py "fold"; py "folded"]
    then py "Fold"
    else if existsb (fun word => contains word action_str)
                    [py "raise"; py "bet"; py "all-in"; py "allin"]
    then py "Raise"
    else if existsb (fun word => contains word action_str) [py "call"; py "check"]
    then py "Call"
    else py "--".

Definition clean_bet_value (bet : json) : pystr :=
  if is_none bet then py "N/A"
  else
    let bet_str := strip (replace_char 44 [] (replace_char 36 [] (py_str bet))) in
    if str_in (upper bet_str) [py "N/A"; py "--"; []] then py "N/A"
    else
      match float_of_str bet_str with
      | Some _ => bet_str
      | None =>
          match findall_numbers_0 bet_str with
          | Some number => number
          | None => py "N/A"
          end
      end.

(** ** ml_pipeline.py: players and the whole state *)

(** One turn of the loop of [clean_players_data] over [players_data.items()]. *)
Definition clean_player_step (cleaned_players : list (pystr * json))
    (item : pystr * json) : list (pystr * json) :=
  let (player_name, player_info) := item in
  match player_info with
  | JDict info =>
      let bankroll := dict_get info (py "bankroll") (JStr (py "N/A")) in
      if eq_str bankroll (py "N/A") || negb (truthy bankroll) then cleaned_players
      else
        let cleaned_bankroll := clean_bankroll_value bankroll in
        let cleaned_player :=
          JDict [(py "bankroll", JStr cleaned_bankroll);
                 (py "vpip", JStr (clean_vpip_value (dict_get info (py "vpip") (JStr (py "--")))));
                 (py "position",
                   JStr (clean_position_value (dict_get info (py "position") (JStr (py "--")))));
                 (py "action",
                   JStr (clean_action_value (dict_get info (py "action") (JStr (py "--")))));
                 (py "bet", JStr (clean_bet_value (dict_get info (py "bet") (JStr (py "N/A")))))] in
        if negb (str_eqb cleaned_bankroll (py "N/A"))
        then dict_set player_name cleaned_player cleaned_players
        else cleaned_players
  | _ => cleaned_players
  end.

Definition clean_players_data (players_data : json) : list (pystr * json) :=
  match players_data with
  | JDict items => fold_left clean_player_step items []
  | _ => []
  end.

Definition required_fields : list pystr :=
  [py "pot"; py "board"; py "hero_cards"; py "players"].

(** The two tests on [state['pot']]: a number ([bool] is an [int]), and
    not below zero. *)
Definition is_number (v : json) : bool :=
  match v with
  | JInt _ | JFloat _ | JBool _ => true
  | _ => false
  end.

Definition below_zero (v : json) : bool :=
  match v with
  | JInt z => (z <? 0)%Z
  | JFloat f => float_ltb f float_zero
  | _ => false
  end.

Definition list_longer_than (n : nat) (v : json) : bool :=
  match v with
  | JList l => (n <? length l)%nat
  | _ => false
  end.

Definition is_list (v : json) : bool :=
  match v with JList _ => true | _ => false end.

Definition is_dict (v : json) : bool :=
  match v with JDict _ => true | _ => false end.

Definition validate_game_state (state : json) : bool :=
  match state with
  | JDict d =>
      if negb (forallb (fun field => bool_decide (is_Some (dict_lookup field d))) required_fields)
      then false
      else
        let item key := dict_get d (py key) JNull in
        if negb (is_number (item "pot")) || below_zero (item "pot") then false
        else if negb (is_list (item "board")) || list_longer_than 5 (item "board") then false
        else if negb (is_list (item "hero_cards")) || list_longer_than 2 (item "hero_cards")
        then false
        else if negb (is_dict (item "players")) then false
        else true
  | _ => false
  end.

(** [clean_game_state] after [json.loads]: from the decoded document to
    the cleaned state, [None] when it is rejected. *)
Definition clean_decoded (data : json) : outcome (option json) :=
  match data with
  | JDict d =>
      bind (clean_pot_value (dict_get d (py "pot") JNull)) (fun pot =>
        let cleaned_state :=
          JDict [(py "pot", JFloat pot);
                 (py "board", JList (map JStr (clean_card_list (dict_get d (py "board") (JList [])))));
                 (py "hero_cards",
                   JList (map JStr (clean_card_list (dict_get d (py "hero_cards") (JList [])))));
                 (py "players", JDict (clean_players_data (dict_get d (py "players") (JDict []))))] in
        if negb (validate_game_state cleaned_state) then Returns None
        else Returns (Some cleaned_state))
  | _ => Returns None
  end.

(** [clean_game_state(json_state)].  [json_loads] stands for [json.loads]:
    the decoded document, or [None] for [JSONDecodeError]. *)
Definition clean_game_state (json_loads : pystr -> option json) (json_state : pystr)
  : outcome (option json) :=
  if negb (nonempty json_state) || str_eqb (strip json_state) [] then Returns None
  else
    match json_loads json_state with
    | None => Returns None
    | Some data => clean_decoded data
    end.

(** ** ocr.py: the state object the capture cycle fills *)

(** [{k: f(k) for k in keys}] and [dict(items)]. *)
Definition dict_comp {V} (keys : list pystr) (f : pystr -> V) : list (pystr * V) :=
  fold_left (fun d k => dict_set k (f k) d) keys [].

Definition dict_of_items {V} (items : list (pystr * V)) : list (pystr * V) :=
  fold_left (fun d kv => dict_set (fst kv) (snd kv) d) items [].

Module GameState.

Record t := {
  pot : pystr;
  board : list pystr;
  hero_cards : list pystr;
  players : list (pystr * list (pystr * pystr))
}.

Definition init : t :=
  {| pot := py "N/A"; board := []; hero_cards := []; players := [] |}.

Definition update_pot (self : t) (v : pystr) : t :=
  {| pot := v; board := board self; hero_cards := hero_cards self; players := players self |}.

Definition update_board (self : t) (v : list pystr) : t :=
  {| pot := pot self; board := v; hero_cards := hero_cards self; players := players self |}.

Definition update_hero_cards (self : t) (v : list pystr) : t :=
  {| pot := pot self; board := board self; hero_cards := v; players := players self |}.

Definition update_players (self : t)
    (bankrolls vpips positions actions bets : list (pystr * pystr)) : t :=
  {| pot := pot self; board := board self; hero_cards := hero_cards self;
     players :=
       dict_comp (map fst bankrolls) (fun name =>
         [(py "bankroll", dict_get bankrolls name (py "N/A"));
          (py "vpip", dict_get vpips name (py "--"));
          (py "position", dict_get positions name (py "--"));
          (py "action", dict_get actions name (py "--"));
          (py "bet", dict_get bets name (py "N/A"))]) |}.

(** The document [to_json] hands to [json.dumps]; the text is a function
    of it. *)
Definition to_json (self : t) : json :=
  JDict [(py "pot", JStr (pot self));
         (py "board", JList (map JStr (board self)));
         (py "hero_cards", JList (map JStr (hero_cards self)));
         (py "players",
           JDict (map (fun kv => (fst kv, JDict (map (fun f => (fst f, JStr (snd f))) (snd kv))))
                      (players self)))].

End GameState.

(** ** ocr.py: one capture cycle *)

(** What the screen shows during one cycle, as the readers of [OCR] see
    it: the results of [_pot], [_board] and [_hero_cards], and for each
    seat the texts recognised in its bankroll, VPIP, action and bet
    regions and the distance of its position mark to the button colour
    ([None] when the capture raises); and whether opening or writing
    [game_state.json] raises during the cycle. *)
Record frame := {
  pot_read : pystr;
  board_read : list pystr;
  hero_read : list pystr;
  bank_text : pystr -> list pystr;
  vpip_text : pystr -> list pystr;
  position_dist : pystr -> option spec_float;
  action_text : pystr -> list pystr;
  bet_text : pystr -> list pystr;
  write_fails : bool
}.

(** The keys of every [regs] table, in the order they are written. *)
Definition seats : list pystr :=
  [py "Hero"; py "Player 2"; py "Player 3"; py "Player 4";
   py "Player 5"; py "Player 6"; py "Player 7"].

Definition float_inf : spec_float := S754_infinity false.

(** Order of [str] and of [(str, str)] tuples, for [sorted]. *)
Fixpoint str_ltb (s t : pystr) : bool :=
  match s, t with
  | [], [] => false
  | [], _ :: _ => true
  | _ :: _, [] => false
  | a :: s', b :: t' => (a <? b) || ((a =? b) && str_ltb s' t')
  end.

Definition item_le (x y : pystr * pystr) : Prop :=
  negb (str_ltb (fst y) (fst x)
        || (str_eqb (fst y) (fst x) && str_ltb (snd y) (snd x))) = true.

#[global] Instance item_le_dec : RelDecision item_le.
Proof. intros x y. unfold item_le. apply _. Defined.

(** [tuple(sorted(d.items()))] *)
Definition sorted_items (d : list (pystr * pystr)) : list (pystr * pystr) :=
  merge_sort item_le d.

Record snapshot := {
  snap_pot : pystr;
  snap_board : list pystr;
  snap_hero : list pystr;
  snap_bankrolls : list (pystr * pystr);
  snap_vpips : list (pystr * pystr);
  snap_positions : list (pystr * pystr);
  snap_actions : list (pystr * pystr);
  snap_bets : list (pystr * pystr)
}.

#[global] Instance snapshot_eq_dec : EqDecision snapshot.
Proof. solve_decision. Defined.

(** The three cases of the tracking step of [refresh_all], under the
    names the specification gives them. *)
Inductive lifecycle := Steady | StreetAdvance | HandReset.

#[global] Instance lifecycle_eq_dec : EqDecision lifecycle.
Proof. solve_decision. Defined.

Module OCR.

(** The attributes of an [OCR] object.  [prev_hash] holds
    [str(snapshot)]: the text of a tuple of strings and of tuples of
    strings determines the tuple and is never empty, so it is kept as
    [Some snapshot], and the empty text of a new object as [None]. *)
Record t := {
  state : GameState.t;
  seated_players : list pystr;
  bankrolls : list (pystr * pystr);
  vpips : list (pystr * pystr);
  positions : list (pystr * pystr);
  actions : list (pystr * pystr);
  bets : list (pystr * pystr);
  prev_hash : option snapshot;
  folded_players : gset pystr;
  last_street_count : nat;
  last_hero_cards : list pystr;
  last_board : list pystr;
  hand_just_ended : bool
}.

Definition init (game_state : GameState.t) : t :=
  {| state := game_state; seated_players := [];
     bankrolls := []; vpips := []; positions := []; actions := []; bets := [];
     prev_hash := None; folded_players := ∅; last_street_count := 0;
     last_hero_cards := []; last_board := []; hand_just_ended := false |}.

Definition _first (txt : list pystr) : pystr :=
  match txt with
  | t0 :: _ => t0
  | [] => py "N/A"
  end.

(** [_bankrolls]: the dict it returns and the new [seated_players]. *)
Definition _bankrolls (f : frame) : list (pystr * pystr) * list pystr :=
  let br := dict_comp seats (fun p => _first (bank_text f p)) in
  (br, map fst (filter (fun pv => negb (str_eqb (snd pv) (py "N/A"))) br)).

Definition _vpips (seated_players : list pystr) (f : frame) : list (pystr * pystr) :=
  dict_comp (filter (fun p => str_in p seated_players) seats)
            (fun p => _first (vpip_text f p) ++ py "%").

(** [min(dists, key=dists.get)]: the first key with the least value. *)
Fixpoint min_by (best : pystr) (best_v : spec_float)
    (rest : list (pystr * spec_float)) : pystr :=
  match rest with
  | [] => best
  | (k, v) :: rest' =>
      if float_ltb v best_v then min_by k v rest' else min_by best best_v rest'
  end.

(** [lst.index(x)] for an [x] that occurs in [lst]. *)
Fixpoint index (x : pystr) (lst : list pystr) : nat :=
  match lst with
  | [] => 0
  | y :: lst' => if str_eqb y x then 0 else S (index x lst')
  end.

Definition position_labels : list pystr :=
  [py "BTN"; py "SB"; py "BB"; py "UTG"; py "MP"; py "CO"; py "HJ"].

Definition _positions (seated_players : list pystr) (f : frame) : list (pystr * pystr) :=
  let dists :=
    dict_comp seated_players (fun p =>
      match position_dist f p with
      | Some d => d
      | None => float_inf
      end) in
  match dists with
  | [] => dict_comp seated_players (fun _ => py "--")
  | (p0, d0) :: rest =>
      let btn := min_by p0 d0 rest in
      let order := drop (index btn seated_players) seated_players
                   ++ take (index btn seated_players) seated_players in
      let labels := take (length order) position_labels in
      dict_of_items (zip order labels)
  end.

(** One turn of the loop of [_actions]: the folded set and [acts]. *)
Definition _actions_step (f : frame) (st : gset pystr * list (pystr * pystr)) (p : pystr)
  : gset pystr * list (pystr * pystr) :=
  let (folded, acts) := st in
  if str_in p seats then
    let words := lower (join (py " ") (action_text f p)) in
    if contains (py "fold") words then ({[p]} ∪ folded, dict_set p (py "Fold") acts)
    else if bool_decide (p ∈ folded) then (folded, dict_set p (py "Fold") acts)
    else if contains (py "raise") words then (folded, dict_set p (py "Raise") acts)
    else if contains (py "call") words then (folded, dict_set p (py "Call") acts)
    else (folded, dict_set p (py "--") acts)
  else (folded, dict_set p (py "--") acts).

Definition _actions (seated_players : list pystr) (folded_players : gset pystr) (f : frame)
  : gset pystr * list (pystr * pystr) :=
  fold_left (_actions_step f) seated_players (folded_players, []).

Definition _bets (seated_players : list pystr) (f : frame) : list (pystr * pystr) :=
  dict_comp seated_players (fun p => _first (bet_text f p)).

(** The three tests of [refresh_all] that set [hand_reset]. *)
Definition detect_hand_reset (self : t) (board hero : list pystr) : bool :=
  let hand_reset := false in
  let hand_reset :=
    if (0 <? length (last_hero_cards self))%nat && (length hero =? 0)%nat
    then true else hand_reset in
  let hand_reset :=
    if (0 <? length (last_board self))%nat && (length board =? 0)%nat
    then true else hand_reset in
  let hand_reset :=
    if (length hero =? 2)%nat && (length (last_hero_cards self) =? 2)%nat then
      if bool_decide ((list_to_set hero : gset pystr) ≠ list_to_set (last_hero_cards self))
      then true else hand_reset
    else hand_reset in
  hand_reset.

(** Which branch the tracking step takes. *)
Definition classify (self : t) (f : frame) : lifecycle :=
  let hand_reset := detect_hand_reset self (board_read f) (hero_read f) in
  let street := length (board_read f) in
  if negb (street =? last_street_count self)%nat || hand_reset then
    if hand_reset then HandReset else StreetAdvance
  else Steady.

(** The tracking step of [refresh_all]: the new [actions], [bets],
    [folded_players] and [last_street_count]. *)
Definition track (self : t) (seated_players : list pystr) (hand_reset : bool) (f : frame)
  : list (pystr * pystr) * list (pystr * pystr) * gset pystr * nat :=
  let street := length (board_read f) in
  if negb (street =? last_street_count self)%nat || hand_reset then
    (dict_comp seated_players (fun _ => py "--"),
     dict_comp seated_players (fun _ => py "N/A"),
     (if hand_reset then ∅ else folded_players self),
     street)
  else
    let (folded, acts) := _actions seated_players (folded_players self) f in
    (acts, _bets seated_players f, folded, last_street_count self).

Record cycle := {
  next : t;
  returned : option json;
  written : option json;
  taken : snapshot
}.

(** [refresh_all]: the object after the cycle, the value returned, what
    the cycle has put in [game_state.json] (nothing when no state is
    emitted, and nothing when the write raises: the exception is caught,
    a warning is printed and the state is returned all the same), and the
    snapshot of the cycle. *)
Definition refresh_all (self : t) (f : frame) : cycle :=
  let pot := pot_read f in
  let board := board_read f in
  let hero := hero_read f in
  let bankrolls := fst (_bankrolls f) in
  let seated_players := snd (_bankrolls f) in
  let vpips := _vpips seated_players f in
  let positions := _positions seated_players f in
  let hand_reset := detect_hand_reset self board hero in
  let '(actions, bets, folded_players, last_street_count) :=
    track self seated_players hand_reset f in
  let snapshot :=
    {| snap_pot := pot; snap_board := board; snap_hero := hero;
       snap_bankrolls := sorted_items bankrolls;
       snap_vpips := sorted_items vpips;
       snap_positions := sorted_items positions;
       snap_actions := sorted_items actions;
       snap_bets := sorted_items bets |} in
  let hash_ := Some snapshot in
  let changed := bool_decide (hash_ ≠ prev_hash self) || hand_reset in
  let game_state :=
    if changed then
      GameState.update_players
        (GameState.update_hero_cards
           (GameState.update_board (GameState.update_pot (state self) pot) board) hero)
        bankrolls vpips positions actions bets
    else state self in
  let json_state := if changed then Some (GameState.to_json game_state) else None in
  {| next :=
       {| state := game_state;
          seated_players := seated_players;
          bankrolls := bankrolls; vpips := vpips; positions := positions;
          actions := actions; bets := bets;
          prev_hash := if changed then hash_ else prev_hash self;
          folded_players := folded_players;
          last_street_count := last_street_count;
          last_hero_cards := hero;
          last_board := board;
          hand_just_ended := hand_just_ended self |};
     returned := json_state;
     written := if write_fails f then None else json_state;
     taken := snapshot |}.

(** Successive cycles of the polling loop. *)
Definition run (self : t) (frames : list frame) : t :=
  fold_left (fun s f => next (refresh_all s f)) frames self.

(** No cycle of [frames], run from [self], takes the hand-reset branch. *)
Fixpoint no_reset (self : t) (frames : list frame) : bool :=
  match frames with
  | [] => true
  | f :: frames' =>
      negb (detect_hand_reset self (board_read f) (hero_read f))
      && no_reset (next (refresh_all self f)) frames'
  end.

(** The text joined from a seat's action region shows a fold. *)
Definition reads_fold (f : frame) (p : pystr) : bool :=
  contains (py "fold") (lower (join (py " ") (action_text f p))).

(** *** The readers of the pot and of the cards *)

(** [s.split()]: the maximal runs of characters that are not white space;
    [cur] is the run being read, last character first. *)
Fixpoint split_run (cur : pystr) (s : pystr) : list pystr :=
  match s with
  | [] => if nonempty cur then [rev cur] else []
  | c :: s' =>
      if isspace c then
        if nonempty cur then rev cur :: split_run [] s' else split_run [] s'
      else split_run (c :: cur) s'
  end.

Definition split (s : pystr) : list pystr := split_run [] s.

(** [_pot], from the texts recognised in the pot region: the first part,
    in reading order, that [float] accepts. *)
Definition _pot (raw : list pystr) : pystr :=
  match find (fun part => bool_decide (is_Some (float_of_str part)))
             (flat_map (fun t => split (replace_char 44 [] t)) raw) with
  | Some part => part
  | None => py "N/A"
  end.

Definition valid_cards : list pystr :=
  [py "A"; py "K"; py "Q"; py "J"; py "10";
   py "2"; py "3"; py "4"; py "5"; py "6"; py "7"; py "8"; py "9"].

Definition corrections : list (pystr * pystr) :=
  [(py "0", py "Q"); (py "O", py "Q")].

Definition _smart_card_correction (text_raw : pystr) : option pystr :=
  if negb (nonempty text_raw) then None
  else
    let text := upper (strip text_raw) in
    if str_in text valid_cards then Some text
    else
      match dict_lookup text corrections with
      | Some rank => Some rank
      | None =>
          if str_in text [py "10"; py "TO"; py "1O"; py "IO"; py "LO"] then Some (py "10")
          else
            match text with
            | [c] =>
                if isdigit c && (2 <=? c - 48) && (c - 48 <=? 9) then Some text else None
            | _ => None
            end
      end.

(** What is seen of one card: the texts recognised in its value region
    and, for each reference colour of [suit_rgb], the distance of the mean
    colour of its suit region to it. *)
Record card_region := {
  value_text : list pystr;
  suit_dist : pystr -> spec_float
}.

(** [_suit]: the key of [suit_rgb] (clubs, hearts, diamonds, spades, in
    that order) with the least distance. *)
Definition _suit (r : card_region) : pystr :=
  min_by [club] (suit_dist r [club])
         (map (fun s => (s, suit_dist r s)) [[heart]; [diamond]; [spade]]).

(** The inner function [card] of [_hero_cards]. *)
Fixpoint card_of_texts (r : card_region) (card_texts : list pystr) : option pystr :=
  match card_texts with
  | [] => None
  | raw_text :: rest =>
      match _smart_card_correction raw_text with
      | Some corrected_value =>
          if nonempty corrected_value then Some (corrected_value ++ _suit r)
          else card_of_texts r rest
      | None => card_of_texts r rest
      end
  end.

Definition _hero_cards (hero_1 hero_2 : card_region) : list pystr :=
  let c1 := card_of_texts hero_1 (value_text hero_1) in
  let c2 := card_of_texts hero_2 (value_text hero_2) in
  flat_map (fun c => match c with
                     | Some c => if nonempty c then [c] else []
                     | None => []
                     end) [c1; c2].

(** One turn of the loop of [_board]. *)
Definition _board_step (cards : list pystr) (r : card_region) : list pystr :=
  match value_text r with
  | [] => cards
  | first :: _ =>
      match _smart_card_correction first with
      | Some corrected_value =>
          if nonempty corrected_value then cards ++ [corrected_value ++ _suit r]
          else cards
      | None => cards
      end
  end.

Definition _board (card_1 card_2 card_3 card_4 card_5 : card_region) : list pystr :=
  fold_left _board_step [card_1; card_2; card_3; card_4; card_5] [].

(** [text.ljust(w)] and [_row], for cells that are already strings. *)
Definition ljust (w : nat) (text : pystr) : pystr :=
  text ++ repeat 32 (w - length text).

Definition _row (c : list pystr) (w : nat) : pystr :=
  join (py "  ") (map (ljust w) c).

End OCR.

(** ** Vocabulary of the statements *)

(** A card of the canonical grammar: a rank followed by a suit symbol. *)
Definition canonical_card (card : pystr) : Prop :=
  ∃ rank suit, rank ∈ ranks ∧ suit ∈ suits ∧ card = rank ++ [suit].

(** ** Sample readings

    A table with two seated players, Hero and Player 2, whose position
    marks cannot be captured; [fold_text] is what is read in the action
    region of Player 2. *)
Definition table_frame (board hero fold_text : list pystr) : frame :=
  {| pot_read := py "10"; board_read := board; hero_read := hero;
     bank_text := λ p, if str_in p [py "Hero"; py "Player 2"] then [py "200"] else [];
     vpip_text := λ _, [py "25"];
     position_dist := λ _, None;
     action_text := λ p, if str_eqb p (py "Player 2") then fold_text else [];
     bet_text := λ _, [];
     write_fails := false |}.


Definition ace_king : list pystr := [py "A" ++ [spade]; py "K" ++ [spade]].
Definition flop : list pystr := [py "A" ++ [heart]; py "K" ++ [club]; py "Q" ++ [diamond]].

(** The readings of [f] with the bankroll of Player 2 unread, so that
    only Hero is seated. *)
Definition without_player_2 (f : frame) : frame :=
  {| pot_read := pot_read f; board_read := board_read f; hero_read := hero_read f;
     bank_text := λ p, if str_eqb p (py "Player 2") then [] else bank_text f p;
     vpip_text := vpip_text f;
     position_dist := position_dist f;
     action_text := action_text f;
     bet_text := bet_text f;
     write_fails := write_fails f |}.

(** The readings of [f] in a cycle in which the state file cannot be
    written. *)
Definition unwritable (f : frame) : frame :=
  {| pot_read := pot_read f; board_read := board_read f; hero_read := hero_read f;
     bank_text := bank_text f;
     vpip_text := vpip_text f;
     position_dist := position_dist f;
     action_text := action_text f;
     bet_text := bet_text f;
     write_fails := true |}.

(** [x < y] on [(str, str)] tuples, the order [sorted] puts items in. *)
Definition item_lt (x y : pystr * pystr) : bool :=
  str_ltb (fst x) (fst y) || (str_eqb (fst x) (fst y) && str_ltb (snd x) (snd y)).

(** ** ml_pipeline.py: the debugging summary *)

(** [len(v)]; [None] is [TypeError]. *)
Definition py_len (v : json) : option nat :=
  match v with
  | JStr s => Some (length s)
  | JList l => Some (length l)
  | JDict d => Some (length d)
  | _ => None
  end.

(** The items [', '.join(v)] joins: the texts of a list of strings, the
    characters of a string, the keys of a dict; [None] is [TypeError]. *)
Definition join_items (v : json) : option (list pystr) :=
  match v with
  | JList l =>
      if forallb (fun x => match x with JStr _ => true | _ => false end) l
      then Some (omap (fun x => match x with JStr s => Some s | _ => None end) l)
      else None
  | JStr s => Some (map (fun c => [c]) s)
  | JDict d => Some (map fst d)
  | _ => None
  end.

(** [f"{label} ({len(v)}): {', '.join(v) if v else 'Empty'}"] *)
Definition summary_cards (label : pystr) (v : json) : option pystr :=
  match py_len v with
  | None => None
  | Some n =>
      if truthy v then
        match join_items v with
        | Some items =>
            Some (label ++ py " (" ++ decimal_of_N (N.of_nat n) ++ py "): "
                  ++ join (py ", ") items)
        | None => None
        end
      else Some (label ++ py " (" ++ decimal_of_N (N.of_nat n) ++ py "): Empty")
  end.

(** [len([p for p in players.values() if p.get('bankroll') != 'N/A'])];
    [None] is [AttributeError]. *)
Fixpoint count_active (values : list json) : option nat :=
  match values with
  | [] => Some 0%nat
  | JDict p :: rest =>
      match count_active rest with
      | Some n =>
          Some (if eq_str (dict_get p (py "bankroll") JNull) (py "N/A") then n else S n)
      | None => None
      end
  | _ :: _ => None
  end.

(** [get_game_state_summary(state)]; [None] stands for the [TypeError]
    or [AttributeError] the call ends with. *)
Definition get_game_state_summary (state : json) : option pystr :=
  if negb (truthy state) then Some (py "Empty state")
  else
    match state with
    | JDict d =>
        let pot_part := py "Pot: " ++ py_str (dict_get d (py "pot") (JStr (py "N/A"))) in
        match summary_cards (py "Board") (dict_get d (py "board") (JList [])) with
        | None => None
        | Some board_part =>
            match summary_cards (py "Hero") (dict_get d (py "hero_cards") (JList [])) with
            | None => None
            | Some hero_part =>
                match dict_get d (py "players") (JDict []) with
                | JDict players =>
                    match count_active (map snd players) with
                    | Some active_players =>
                        Some (join (py " | ")
                                [pot_part; board_part; hero_part;
                                 py "Players: " ++ decimal_of_N (N.of_nat active_players)
                                 ++ py " active"])
                    | None => None
                    end
                | _ => None
                end
            end
        end
    | _ => None
    end.

(** The shape of a match of [\d+\.?\d*]: digits, or digits, a dot and
    digits. *)
Definition number_text (n : pystr) : Prop :=
  ∃ d0 ds fs,
    isdigit d0 = true ∧ Forall (λ c, isdigit c = true) ds
    ∧ Forall (λ c, isdigit c = true) fs
    ∧ (n = d0 :: ds ∨ n = (d0 :: ds) ++ [46] ++ fs).

(** The four results of [clean_action_value]. *)
Definition action_names : list pystr := [py "Fold"; py "Raise"; py "Call"; py "--"].

(** A text as the two cleaners keep it: stripped, without dollar sign or
    comma, and accepted by [float]. *)
Definition numeric_text (t : pystr) : Prop :=
  strip t = t ∧ (36 ∉ t) ∧ (44 ∉ t) ∧ is_Some (float_of_str t).

(** An entry of the cleaned player mapping: the five attributes, each a
    string in the form its cleaner gives it, with a numeric bankroll. *)
Definition cleaned_player (info : json) : Prop :=
  ∃ bankroll vpip position action bet,
    info = JDict [(py "bankroll", JStr bankroll); (py "vpip", JStr vpip);
                  (py "position", JStr position); (py "action", JStr action);
                  (py "bet", JStr bet)]
    ∧ numeric_text bankroll
    ∧ (vpip = py "--"
       ∨ ∃ body percentage, vpip = body ++ py "%" ∧ float_of_str body = Some percentage)
    ∧ position ∈ py "--" :: position_codes
    ∧ action ∈ action_names
    ∧ (bet = py "N/A" ∨ numeric_text bet).

(** The VPIP texts of the players of a state. *)
Definition state_vpips (state : json) : list pystr :=
  match state with
  | JDict d =>
      match dict_get d (py "players") (JDict []) with
      | JDict players =>
          omap (λ item,
                  match snd item with
                  | JDict info =>
                      match dict_get info (py "vpip") JNull with
                      | JStr vpip => Some vpip
                      | _ => None
                      end
                  | _ => None
                  end) players
      | _ => []
      end
  | _ => []
  end.

(** The state [clean_game_state] builds from a document that has none of
    the four fields. *)
Definition empty_state : json :=
  JDict [(py "pot", JFloat float_zero); (py "board", JList []);
         (py "hero_cards", JList []); (py "players", JDict [])].

(** The document of the demonstration at the end of ml_pipeline.py, as
    [json.loads] decodes it. *)
Definition test_json : json :=
  JDict
    [(py "pot", JStr (py "25.50"));
     (py "board", JList [JStr (py "A" ++ [spade]); JStr (py "K" ++ [club]);
                         JStr (py "Q" ++ [diamond])]);
     (py "hero_cards", JList [JStr (py "10" ++ [heart]); JStr (py "J" ++ [spade])]);
     (py "players",
       JDict
         [(py "Hero",
            JDict [(py "bankroll", JStr (py "200.00")); (py "vpip", JStr (py "25%"));
                   (py "position", JStr (py "BTN")); (py "action", JStr (py "Call"));
                   (py "bet", JStr (py "5"))]);
          (py "Player 2",
            JDict [(py "bankroll", JStr (py "150")); (py "vpip", JStr (py "45%"));
                   (py "position", JStr (py "SB")); (py "action", JStr (py "--"));
                   (py "bet", JStr (py "N/A"))])])].

(** The state the demonstration prints: the pot as the float 25.5, the rest as
    it was written. *)
Definition test_cleaned : json :=
  JDict
    [(py "pot", JFloat (S754_finite false 7177611906121728 (-48)));
     (py "board", JList [JStr (py "A" ++ [spade]); JStr (py "K" ++ [club]);
                         JStr (py "Q" ++ [diamond])]);
     (py "hero_cards", JList [JStr (py "10" ++ [heart]); JStr (py "J" ++ [spade])]);
     (py "players",
       JDict
         [(py "Hero",
            JDict [(py "bankroll", JStr (py "200.00")); (py "vpip", JStr (py "25%"));
                   (py "position", JStr (py "BTN")); (py "action", JStr (py "Call"));
                   (py "bet", JStr (py "5"))]);
          (py "Player 2",
            JDict [(py "bankroll", JStr (py "150")); (py "vpip", JStr (py "45%"));
                   (py "position", JStr (py "SB")); (py "action", JStr (py "--"));
                   (py "bet", JStr (py "N/A"))])])].

(** A text of ASCII characters: on these [str.upper], [str.lower] and
    [str.isdigit] are the functions of this file. *)
Definition ascii_text (s : pystr) : Prop := Forall (λ c, c < 128) s.

(** A card region that reads a lower-case ace between blanks, on a
    colour nearest to the reference of spades. *)
Definition sample_region : OCR.card_region :=
  {| OCR.value_text := [py " a "];
     OCR.suit_dist := λ s, if str_eqb s [spade] then float_zero else float_100 |}.

(** ** main.py: the polling interval *)

Definition UPDATE_INTERVAL_FAST : Z := 500.
Definition UPDATE_INTERVAL_NORMAL : Z := 1000.
Definition UPDATE_INTERVAL_SLOW : Z := 2000.

(** [PokerOverlay.get_dynamic_interval], on the state object the overlay
    shares with the OCR. *)
Definition get_dynamic_interval (game_state : GameState.t) : Z :=
  if (length (GameState.hero_cards game_state) =? 2)%nat then UPDATE_INTERVAL_FAST
  else if negb (str_eqb (GameState.pot game_state) (py "N/A"))
          && negb (str_eqb (GameState.pot game_state) (py "0"))
  then UPDATE_INTERVAL_NORMAL
  else UPDATE_INTERVAL_SLOW.

(** * Properties *)

(** ** Strings *)

Lemma head_lstrip (s : pystr) (c : N) :
  head (lstrip s) = Some c → isspace c = false.
Proof.
  induction s as [|a s IH]; simpl; [discriminate|].
  destruct (isspace a) eqn:Ha; [exact IH|].
  simpl. intros [= <-]. exact Ha.
Qed.

Lemma last_rev_head {A} (l : list A) : last (rev l) = head l.
Proof. destruct l as [|a l]; simpl; [reflexivity|]. apply last_snoc. Qed.

Lemma last_strip (s : pystr) (c : N) :
  last (strip s) = Some c → isspace c = false.
Proof.
  unfold strip, rstrip. rewrite last_rev_head. apply head_lstrip.
Qed.

Lemma last_drop {A} (n : nat) (l : list A) (c : A) :
  last (drop n l) = Some c → last l = Some c.
Proof.
  intros H. rewrite <- (take_drop n l). apply last_app_Some. left. exact H.
Qed.

Lemma last_ten_drop (n : nat) (card : pystr) (c : N) :
  last (py "10" ++ drop n (strip card)) = Some c → c ≠ 10.
Proof.
  intros H ->. apply last_app_Some in H as [H|[_ H]].
  - apply last_drop, last_strip in H. discriminate.
  - discriminate.
Qed.

(** The text a card is normalised to never ends in a line feed. *)
Lemma last_normalize_card_format (card : pystr) :
  last (normalize_card_format card) ≠ Some 10.
Proof.
  unfold normalize_card_format. intros H.
  destruct (startswith (py "10") _); [by eapply last_ten_drop|].
  destruct (startswith (py "T") _); [by eapply last_ten_drop|].
  destruct (find _ suit_replacements) as [[text_suit symbol]|] eqn:Hf.
  - rewrite last_snoc in H. injection H as ->.
    assert (Hall : Forall (λ item, snd item ≠ 10) suit_replacements)
      by (repeat constructor; discriminate).
    rewrite Forall_forall in Hall.
    apply find_some in Hf as [Hin _]. apply list_elem_of_In in Hin.
    by apply Hall in Hin.
  - apply last_strip in H. discriminate.
Qed.

Lemma str_eqb_eq (s t : pystr) : str_eqb s t = true ↔ s = t.
Proof. unfold str_eqb. rewrite bool_decide_eq_true. reflexivity. Qed.

Lemma VALID_CARD_PATTERN_inv (card : pystr) :
  VALID_CARD_PATTERN card = true →
  ∃ rank suit, rank ∈ ranks ∧ suit ∈ suits
               ∧ (card = rank ++ [suit] ∨ card = rank ++ [suit; 10]).
Proof.
  unfold VALID_CARD_PATTERN. rewrite existsb_exists.
  intros (rank & Hr & H). apply existsb_exists in H as (suit & Hs & H).
  exists rank, suit. rewrite !list_elem_of_In. split; [exact Hr|]. split; [exact Hs|].
  apply orb_true_iff in H as [H|H]; apply str_eqb_eq in H; auto.
Qed.

Lemma valid_normalized_canonical (card : pystr) :
  VALID_CARD_PATTERN (normalize_card_format card) = true →
  canonical_card (normalize_card_format card).
Proof.
  intros H. pose proof (last_normalize_card_format card) as Hl.
  apply VALID_CARD_PATTERN_inv in H as (rank & suit & Hr & Hs & [H|H]).
  - exists rank, suit. auto.
  - exfalso. apply Hl. rewrite H.
    change (rank ++ [suit; 10]) with (rank ++ [suit] ++ [10]).
    rewrite app_assoc. apply last_snoc.
Qed.

Lemma clean_single_card_canonical (card : json) (cleaned : pystr) :
  clean_single_card card = Some cleaned → canonical_card cleaned.
Proof.
  destruct card as [| | | |s| |]; simpl; try discriminate.
  destruct (negb _ || _); [discriminate|].
  destruct (VALID_CARD_PATTERN (normalize_card_format (strip s))) eqn:Hv.
  - intros [= <-]. by apply valid_normalized_canonical.
  - unfold repair_card_ocr_errors.
    destruct (length _ <? 2)%nat; [discriminate|].
    match goal with |- context [VALID_CARD_PATTERN (normalize_card_format ?x)] =>
      destruct (VALID_CARD_PATTERN (normalize_card_format x)) eqn:Hr end.
    + rewrite andb_true_r.
      destruct (nonempty _); [|discriminate].
      intros [= <-]. by apply valid_normalized_canonical.
    + rewrite andb_false_r. discriminate.
Qed.

Lemma canonical_card_nonempty (card : pystr) :
  canonical_card card → nonempty card = true.
Proof.
  intros (rank & suit & _ & _ & ->). by destruct rank.
Qed.

Lemma clean_card_step_omap (cleaned_cards : list pystr) (card : json) :
  clean_card_step cleaned_cards card = cleaned_cards ++ omap clean_single_card [card].
Proof.
  unfold clean_card_step. simpl.
  destruct (clean_single_card card) as [c|] eqn:H.
  - apply clean_single_card_canonical, canonical_card_nonempty in H.
    by rewrite H.
  - by rewrite app_nil_r.
Qed.

Lemma clean_card_fold (cards : list json) (acc : list pystr) :
  fold_left clean_card_step cards acc = acc ++ omap clean_single_card cards.
Proof.
  revert acc. induction cards as [|card cards IH]; intros acc.
  - simpl. by rewrite app_nil_r.
  - cbn [fold_left]. rewrite IH, clean_card_step_omap.
    by rewrite <- app_assoc, <- omap_app.
Qed.

(** C10. [clean_card_list] is an order-preserving filter: applied to a
    list it returns, in the order of the input, the cleaned form of each
    entry that [clean_single_card] accepts and nothing else (for a value
    that is not a list it returns the empty list); and every entry of its
    result is a rank of A, K, Q, J, 10, 2..9 followed by one suit symbol. *)
Theorem clean_card_list_filter :
  (∀ card_list : json,
      clean_card_list card_list =
      match card_list with
      | JList cards => omap clean_single_card cards
      | _ => []
      end)
  ∧ (∀ card_list : json, Forall canonical_card (clean_card_list card_list)).
Proof.
  assert (Hlist : ∀ cards, clean_card_list (JList cards) = omap clean_single_card cards).
  { intros cards. unfold clean_card_list. by rewrite clean_card_fold. }
  split.
  - intros [| | | | |cards|]; try reflexivity. apply Hlist.
  - intros [| | | | |cards|]; try by constructor.
    rewrite Hlist. apply Forall_forall. intros c Hc.
    apply list_elem_of_omap in Hc as (card & _ & Hc).
    by eapply clean_single_card_canonical.
Qed.

(** ** The validator *)

(** What [validate_game_state] guarantees of an accepted state: the four
    fields are there, the pot is a float that is not below zero, board and
    hero cards are lists of at most 5 and 2 texts, players is a dict. *)
Lemma clean_decoded_accepted (data cleaned : json) :
  clean_decoded data = Returns (Some cleaned) →
  ∃ pot board hero_cards players,
    cleaned = JDict [(py "pot", JFloat pot); (py "board", JList (map JStr board));
                     (py "hero_cards", JList (map JStr hero_cards));
                     (py "players", JDict players)]
    ∧ float_ltb pot float_zero = false
    ∧ (length board ≤ 5)%nat ∧ (length hero_cards ≤ 2)%nat.
Proof.
  destruct data as [| | | | | |d]; try discriminate. unfold clean_decoded.
  destruct (clean_pot_value _) as [e|pot]; [discriminate|]. cbn [bind].
  set (board := clean_card_list _). set (hero := clean_card_list _).
  set (players := clean_players_data _).
  destruct (validate_game_state _) eqn:Hv; [|discriminate].
  cbn [negb]. intros [= <-]. exists pot, board, hero, players.
  split; [reflexivity|].
  unfold validate_game_state in Hv.
  change (forallb _ required_fields) with true in Hv. cbn [negb] in Hv.
  change (dict_get _ (py "pot") JNull) with (JFloat pot) in Hv.
  change (dict_get _ (py "board") JNull) with (JList (map JStr board)) in Hv.
  change (dict_get _ (py "hero_cards") JNull) with (JList (map JStr hero)) in Hv.
  cbn [is_number is_list negb orb below_zero list_longer_than] in Hv.
  rewrite !length_map in Hv.
  destruct (float_ltb pot float_zero); [discriminate|].
  destruct (5 <? length board)%nat eqn:Hb; [discriminate|].
  destruct (2 <? length hero)%nat eqn:Hh; [discriminate|].
  apply Nat.ltb_ge in Hb, Hh. auto.
Qed.

(** C1, at the failing input.  The document [{"pot": "nan"}] is cleaned
    and accepted with a pot that is not a number at all: [nan < 0] is
    false, so the validator lets it through, and [0 <= nan] is false
    too. *)
Theorem clean_game_state_accepts_nan_pot :
  clean_decoded (JDict [(py "pot", JStr (py "nan"))])
  = Returns (Some (JDict [(py "pot", JFloat S754_nan); (py "board", JList []);
                          (py "hero_cards", JList []); (py "players", JDict [])]))
  ∧ float_ltb S754_nan float_zero = false
  ∧ float_leb float_zero S754_nan = false.
Proof. by vm_compute. Qed.

(** C4, at the failing input.  A VPIP text without a percent sign is
    returned with the sign added whenever it reads as a float, with no
    range check: 150 becomes 150%, although 150 > 100; the branch for
    texts that end in a percent sign does check the range and turns 150%
    into "--". *)
Theorem clean_vpip_value_unchecked_range :
  clean_vpip_value (JStr (py "150")) = py "150%"
  ∧ (∃ percentage, float_of_str (py "150") = Some percentage
                   ∧ float_leb percentage float_100 = false)
  ∧ clean_vpip_value (JStr (py "150%")) = py "--".
Proof.
  split; [vm_compute; reflexivity|]. split; [|vm_compute; reflexivity].
  eexists. split.
  - vm_compute. reflexivity.
  - vm_compute. reflexivity.
Qed.

(** C8, at the failing input.  Cleaning a document whose only player has
    VPIP 150 succeeds and gives VPIP 150%; cleaning that result again
    succeeds and gives VPIP "--": the second state differs from the
    first. *)
Theorem clean_game_state_not_idempotent :
  let player vpip :=
    JDict [(py "bankroll", JStr (py "200")); (py "vpip", JStr (py vpip));
           (py "position", JStr (py "--")); (py "action", JStr (py "--"));
           (py "bet", JStr (py "N/A"))] in
  let cleaned vpip :=
    JDict [(py "pot", JFloat float_zero); (py "board", JList []);
           (py "hero_cards", JList []);
           (py "players", JDict [(py "Hero", player vpip)])] in
  let raw :=
    JDict [(py "players",
            JDict [(py "Hero", JDict [(py "bankroll", JStr (py "200"));
                                      (py "vpip", JStr (py "150"))])])] in
  clean_decoded raw = Returns (Some (cleaned "150%"))
  ∧ clean_decoded (cleaned "150%") = Returns (Some (cleaned "--"))
  ∧ cleaned "150%" ≠ cleaned "--".
Proof. by vm_compute. Qed.

(** ** Dicts *)

Section Dicts.
Context {V : Type}.
Implicit Types (d : list (pystr * V)) (k p : pystr) (v : V).

Lemma dict_lookup_set d k v p :
  dict_lookup p (dict_set k v d) = if decide (k = p) then Some v else dict_lookup p d.
Proof.
  induction d as [|[k' w] d IH]; simpl; unfold str_eqb.
  - destruct (decide (k = p)) as [->|Hp].
    + by rewrite bool_decide_eq_true_2.
    + by rewrite bool_decide_eq_false_2.
  - destruct (decide (k' = k)) as [->|Hk].
    + rewrite bool_decide_eq_true_2 by done. simpl. unfold str_eqb.
      destruct (decide (k = p)) as [->|Hp].
      * by rewrite bool_decide_eq_true_2.
      * by rewrite bool_decide_eq_false_2.
    + rewrite (bool_decide_eq_false_2 (k' = k)) by done. simpl. rewrite IH.
      unfold str_eqb. destruct (decide (k = p)) as [->|Hp]; [|done].
      by rewrite bool_decide_eq_false_2.
Qed.

Lemma dict_lookup_fold (g : pystr → V) (keys : list pystr) d p :
  dict_lookup p (fold_left (λ d k, dict_set k (g k) d) keys d)
  = if decide (p ∈ keys) then Some (g p) else dict_lookup p d.
Proof.
  revert d. induction keys as [|k keys IH]; intros d; cbn [fold_left].
  - rewrite decide_False; [done|]. apply not_elem_of_nil.
  - rewrite IH, dict_lookup_set.
    destruct (decide (p ∈ keys)) as [Hin|Hnin].
    + rewrite decide_True; [done|]. by right.
    + destruct (decide (k = p)) as [->|Hne].
      * rewrite decide_True; [done|]. by left.
      * rewrite decide_False; [done|]. intros [->|?]%elem_of_cons; done.
Qed.

Lemma dict_lookup_comp (g : pystr → V) (keys : list pystr) p :
  dict_lookup p (dict_comp keys g) = if decide (p ∈ keys) then Some (g p) else None.
Proof. unfold dict_comp. by rewrite dict_lookup_fold. Qed.

Lemma dict_lookup_keys d p : p ∈ map fst d → is_Some (dict_lookup p d).
Proof.
  induction d as [|[k w] d IH]; simpl.
  - by intros ?%elem_of_nil.
  - unfold str_eqb. case_bool_decide; [by eexists|].
    intros [->|Hin]%elem_of_cons; [done|]. by apply IH.
Qed.

Lemma dict_comp_keys (g : pystr → V) (keys : list pystr) p :
  p ∈ map fst (dict_comp keys g) → p ∈ keys.
Proof.
  intros [v Hv]%dict_lookup_keys. rewrite dict_lookup_comp in Hv.
  by destruct (decide (p ∈ keys)).
Qed.
End Dicts.

Lemma seated_in_seats (f : frame) (p : pystr) :
  p ∈ snd (OCR._bankrolls f) → p ∈ seats.
Proof.
  unfold OCR._bankrolls. cbn [snd]. intros Hp.
  apply (dict_comp_keys (λ p, OCR._first (bank_text f p))).
  apply list_elem_of_fmap in Hp as ([k v] & -> & Hin).
  apply list_elem_of_fmap. exists (k, v). split; [done|].
  by apply list_elem_of_filter in Hin as [_ Hin].
Qed.

(** ** The hand lifecycle *)

Section Lifecycle.
Variables (self : OCR.t) (f : frame).

(** The reset condition of the specification. *)
Let reset_condition : Prop :=
  (0 < length (OCR.last_hero_cards self) ∧ length (hero_read f) = 0)%nat
  ∨ (0 < length (OCR.last_board self) ∧ length (board_read f) = 0)%nat
  ∨ (length (OCR.last_hero_cards self) = 2 ∧ length (hero_read f) = 2
     ∧ ¬ ∀ card, card ∈ hero_read f ↔ card ∈ OCR.last_hero_cards self)%nat.

Lemma detect_hand_reset_spec :
  OCR.detect_hand_reset self (board_read f) (hero_read f) = true ↔ reset_condition.
Proof.
  unfold OCR.detect_hand_reset, reset_condition.
  assert (Hset : (list_to_set (hero_read f) : gset pystr) ≠ list_to_set (OCR.last_hero_cards self)
                 ↔ ¬ ∀ card, card ∈ hero_read f ↔ card ∈ OCR.last_hero_cards self).
  { split; intros H Heq; apply H.
    - apply set_eq. intros c. by rewrite !elem_of_list_to_set.
    - intros c. rewrite <- !(elem_of_list_to_set (C := gset pystr)). by rewrite Heq. }
  destruct (0 <? length (OCR.last_hero_cards self))%nat eqn:H1;
    destruct (length (hero_read f) =? 0)%nat eqn:H2;
    destruct (0 <? length (OCR.last_board self))%nat eqn:H3;
    destruct (length (board_read f) =? 0)%nat eqn:H4;
    destruct (length (hero_read f) =? 2)%nat eqn:H5;
    destruct (length (OCR.last_hero_cards self) =? 2)%nat eqn:H6;
    cbn [andb];
    try case_bool_decide;
    rewrite ?Nat.ltb_lt, ?Nat.ltb_ge, ?Nat.eqb_eq, ?Nat.eqb_neq in *;
    split; try done; try tauto; try lia; intros; try (exfalso; lia); intuition (try lia).
Qed.

(** C2. The tracking step of a cycle takes the hand-reset branch if and
    only if hero cards were held and none are read now, or the board had
    cards and none are read now, or two hero cards were held, two are
    read now and they are not the same set; failing that, it takes the
    street-advance branch if and only if the length of the board read
    differs from the recorded street length; otherwise it is steady. *)
Theorem classify_spec :
  (OCR.classify self f = HandReset ↔ reset_condition)
  ∧ (OCR.classify self f = StreetAdvance
     ↔ ¬ reset_condition ∧ length (board_read f) ≠ OCR.last_street_count self)
  ∧ (OCR.classify self f = Steady
     ↔ ¬ reset_condition ∧ length (board_read f) = OCR.last_street_count self).
Proof.
  pose proof detect_hand_reset_spec as Hr. unfold OCR.classify.
  destruct (OCR.detect_hand_reset self (board_read f) (hero_read f)).
  - rewrite orb_true_r. assert (reset_condition) as Hc by by apply Hr.
    repeat split; try done; intros [Hn _]; by destruct Hn.
  - rewrite orb_false_r. assert (¬ reset_condition) as Hc by by intros ?%Hr.
    destruct (length (board_read f) =? OCR.last_street_count self)%nat eqn:Hs;
      cbn [negb]; [apply Nat.eqb_eq in Hs | apply Nat.eqb_neq in Hs];
      repeat split; try done; intros [_ Hn]; by destruct Hs.
Qed.
End Lifecycle.

Lemma str_in_elem (p : pystr) (l : list pystr) : str_in p l = true ↔ p ∈ l.
Proof.
  unfold str_in. rewrite existsb_exists. split.
  - intros (q & Hq%list_elem_of_In & ->%str_eqb_eq). exact Hq.
  - intros Hp. exists p. split; [by apply list_elem_of_In | by apply str_eqb_eq].
Qed.

(** ** One cycle *)

Section Cycle.
Variables (self : OCR.t) (f : frame).

Let seated := snd (OCR._bankrolls f).
Let hand_reset := OCR.detect_hand_reset self (board_read f) (hero_read f).
Let after := OCR.next (OCR.refresh_all self f).

Lemma refresh_all_seated : OCR.seated_players after = seated.
Proof.
  unfold after, OCR.refresh_all. by destruct (OCR.track _ _ _ _) as [[[??]?]?].
Qed.

Lemma refresh_all_track :
  (OCR.actions after, OCR.bets after, OCR.folded_players after, OCR.last_street_count after)
  = OCR.track self seated hand_reset f.
Proof.
  unfold after, OCR.refresh_all. fold seated hand_reset.
  by destruct (OCR.track _ _ _ _) as [[[??]?]?].
Qed.

Lemma refresh_all_prev_hash :
  OCR.prev_hash after = Some (OCR.taken (OCR.refresh_all self f)).
Proof.
  unfold after, OCR.refresh_all.
  destruct (OCR.track _ _ _ _) as [[[??]?]?].
  cbn [OCR.next OCR.prev_hash OCR.taken].
  case_bool_decide as Hh; cbn [orb]; [done|].
  destruct (OCR.detect_hand_reset _ _ _); [done|].
  symmetry. exact Hh.
Qed.

Lemma refresh_all_returned :
  OCR.returned (OCR.refresh_all self f)
  = if bool_decide (Some (OCR.taken (OCR.refresh_all self f)) ≠ OCR.prev_hash self) || hand_reset
    then Some (GameState.to_json (OCR.state after)) else None.
Proof.
  unfold after, OCR.refresh_all. fold hand_reset.
  destruct (OCR.track _ _ _ _) as [[[??]?]?].
  cbn [OCR.next OCR.returned OCR.taken OCR.state].
  by destruct (_ || _).
Qed.

Lemma refresh_all_written :
  OCR.written (OCR.refresh_all self f)
  = if write_fails f then None else OCR.returned (OCR.refresh_all self f).
Proof.
  unfold OCR.refresh_all. by destruct (OCR.track _ _ _ _) as [[[??]?]?].
Qed.

Lemma classify_hand_reset : OCR.classify self f = HandReset ↔ hand_reset = true.
Proof.
  unfold OCR.classify. fold hand_reset.
  destruct hand_reset; [by rewrite orb_true_r|].
  rewrite orb_false_r. by destruct (negb _).
Qed.

Lemma classify_steady :
  OCR.classify self f = Steady
  ↔ negb (length (board_read f) =? OCR.last_street_count self)%nat || hand_reset = false.
Proof.
  unfold OCR.classify. fold hand_reset.
  destruct (negb _ || hand_reset) eqn:H; [|done].
  by destruct hand_reset.
Qed.
End Cycle.

(** C7. On a cycle that is not steady, every seated player's action
    becomes "--" and bet "N/A" (and no other seat has an entry), and the
    length of the board read is recorded as the street length; the folded
    set is left as it was on a street advance and emptied on a hand
    reset. *)
Theorem reset_effects (self : OCR.t) (f : frame) :
  OCR.classify self f ≠ Steady →
  let after := OCR.next (OCR.refresh_all self f) in
  (∀ p, dict_lookup p (OCR.actions after)
        = if decide (p ∈ OCR.seated_players after) then Some (py "--") else None)
  ∧ (∀ p, dict_lookup p (OCR.bets after)
          = if decide (p ∈ OCR.seated_players after) then Some (py "N/A") else None)
  ∧ OCR.last_street_count after = length (board_read f)
  ∧ match OCR.classify self f with
    | HandReset => OCR.folded_players after = ∅
    | _ => OCR.folded_players after = OCR.folded_players self
    end.
Proof.
  intros Hns after.
  pose proof (refresh_all_track self f) as Ht.
  pose proof (refresh_all_seated self f) as Hseat.
  cbv zeta in Ht, Hseat. fold after in Ht, Hseat.
  rewrite Hseat.
  assert (Hb : negb (length (board_read f) =? OCR.last_street_count self)%nat
               || OCR.detect_hand_reset self (board_read f) (hero_read f) = true).
  { destruct (_ || _) eqn:H; [done|]. by apply (classify_steady self f) in H. }
  unfold OCR.track in Ht. rewrite Hb in Ht. injection Ht as Ha Hbets Hfold Hstreet.
  rewrite Ha, Hbets. split; [|split; [|split]].
  - intros p. exact (dict_lookup_comp (λ _, py "--") _ p).
  - intros p. exact (dict_lookup_comp (λ _, py "N/A") _ p).
  - exact Hstreet.
  - unfold OCR.classify. rewrite Hb.
    by destruct (OCR.detect_hand_reset _ _ _).
Qed.

(** ** The sticky fold *)

Lemma actions_step_mono (f : frame) (folded : gset pystr)
    (acts : list (pystr * pystr)) (q : pystr) :
  folded ⊆ (OCR._actions_step f (folded, acts) q).1.
Proof.
  unfold OCR._actions_step.
  repeat (match goal with |- context [if ?b then _ else _] => destruct b end);
    cbn [fst]; try done; apply union_subseteq_r.
Qed.

Section Actions.
Variables (f : frame) (p : pystr).
Hypothesis p_seat : p ∈ seats.

Implicit Types (folded : gset pystr) (acts : list (pystr * pystr)).

Let marked folded acts : Prop :=
  p ∈ folded ∧ dict_lookup p acts = Some (py "Fold").

Lemma actions_step_marks folded acts :
  OCR.reads_fold f p = true ∨ p ∈ folded →
  marked (OCR._actions_step f (folded, acts) p).1 (OCR._actions_step f (folded, acts) p).2.
Proof.
  unfold OCR._actions_step, OCR.reads_fold, marked.
  apply str_in_elem in p_seat as ->.
  intros [-> | Hin].
  - cbn [fst snd]. rewrite dict_lookup_set, decide_True by done.
    split; [|done]. by apply elem_of_union_l, elem_of_singleton.
  - destruct (contains (py "fold") _); cbn [fst snd].
    + rewrite dict_lookup_set, decide_True by done.
      split; [|done]. by apply elem_of_union_r.
    + rewrite bool_decide_eq_true_2 by done. cbn [fst snd].
      by rewrite dict_lookup_set, decide_True.
Qed.

Lemma actions_step_keeps folded acts q :
  marked folded acts →
  marked (OCR._actions_step f (folded, acts) q).1 (OCR._actions_step f (folded, acts) q).2.
Proof.
  intros [Hin Hact]. destruct (decide (q = p)) as [->|Hne].
  - apply actions_step_marks. by right.
  - split; [by apply actions_step_mono|].
    unfold OCR._actions_step.
    repeat (match goal with |- context [if ?b then _ else _] => destruct b end);
      cbn [snd]; by rewrite dict_lookup_set, decide_False.
Qed.

Lemma actions_fold_keeps (l : list pystr) folded acts :
  marked folded acts →
  marked (fold_left (OCR._actions_step f) l (folded, acts)).1
         (fold_left (OCR._actions_step f) l (folded, acts)).2.
Proof.
  revert folded acts. induction l as [|q l IH]; intros folded acts H; [done|].
  cbn [fold_left].
  destruct (OCR._actions_step f (folded, acts) q) as [folded' acts'] eqn:Hs.
  apply IH. pose proof (actions_step_keeps folded acts q H) as Hk.
  by rewrite Hs in Hk.
Qed.

Lemma actions_fold_marks (l : list pystr) folded acts :
  p ∈ l →
  OCR.reads_fold f p = true ∨ p ∈ folded →
  marked (fold_left (OCR._actions_step f) l (folded, acts)).1
         (fold_left (OCR._actions_step f) l (folded, acts)).2.
Proof.
  revert folded acts. induction l as [|q l IH]; intros folded acts Hin H.
  - by apply elem_of_nil in Hin.
  - cbn [fold_left].
    destruct (OCR._actions_step f (folded, acts) q) as [folded' acts'] eqn:Hs.
    destruct (decide (q = p)) as [->|Hne].
    + apply actions_fold_keeps.
      pose proof (actions_step_marks folded acts H) as Hm. by rewrite Hs in Hm.
    + apply IH.
      * by apply elem_of_cons in Hin as [->|Hin].
      * destruct H as [H|H]; [by left|right].
        pose proof (actions_step_mono f folded acts q) as Hm.
        rewrite Hs in Hm. by apply Hm.
Qed.

Lemma actions_marks (seated : list pystr) folded :
  p ∈ seated →
  OCR.reads_fold f p = true ∨ p ∈ folded →
  p ∈ (OCR._actions seated folded f).1
  ∧ dict_lookup p (OCR._actions seated folded f).2 = Some (py "Fold").
Proof. intros Hin H. by apply actions_fold_marks. Qed.
End Actions.

Lemma actions_mono (f : frame) (seated : list pystr) (folded : gset pystr) :
  folded ⊆ (OCR._actions seated folded f).1.
Proof.
  unfold OCR._actions. generalize (@nil (pystr * pystr)) as acts.
  revert folded. induction seated as [|q l IH]; intros folded acts; [done|].
  cbn [fold_left].
  pose proof (actions_step_mono f folded acts q) as Hm.
  destruct (OCR._actions_step f (folded, acts) q) as [folded' acts'].
  etrans; [exact Hm|]. apply IH.
Qed.

(** Without a hand reset a cycle only adds to the folded set. *)
Lemma refresh_all_folded_mono (self : OCR.t) (f : frame) :
  OCR.detect_hand_reset self (board_read f) (hero_read f) = false →
  OCR.folded_players self ⊆ OCR.folded_players (OCR.next (OCR.refresh_all self f)).
Proof.
  intros Hr. pose proof (refresh_all_track self f) as Ht. cbv zeta in Ht.
  unfold OCR.track in Ht. rewrite Hr in Ht.
  destruct (negb _ || false).
  - injection Ht as _ _ -> _. done.
  - pose proof (actions_mono f (OCR._bankrolls f).2 (OCR.folded_players self)) as Hm.
    destruct (OCR._actions _ _ _) as [folded acts].
    injection Ht as _ _ -> _. exact Hm.
Qed.

Lemma run_folded_mono (frames : list frame) (self : OCR.t) :
  OCR.no_reset self frames = true →
  OCR.folded_players self ⊆ OCR.folded_players (OCR.run self frames).
Proof.
  revert self. induction frames as [|f frames IH]; intros self H; [done|].
  cbn [OCR.no_reset] in H. apply andb_true_iff in H as [Hr Hn].
  apply negb_true_iff in Hr.
  unfold OCR.run. cbn [fold_left]. etrans; [by apply refresh_all_folded_mono|].
  by apply IH.
Qed.

(** A steady cycle marks every seated seat that shows a fold or was
    already folded. *)
Lemma steady_marks (self : OCR.t) (f : frame) (p : pystr) :
  OCR.classify self f = Steady →
  p ∈ OCR.seated_players (OCR.next (OCR.refresh_all self f)) →
  OCR.reads_fold f p = true ∨ p ∈ OCR.folded_players self →
  p ∈ OCR.folded_players (OCR.next (OCR.refresh_all self f))
  ∧ dict_lookup p (OCR.actions (OCR.next (OCR.refresh_all self f))) = Some (py "Fold").
Proof.
  intros Hs Hin H.
  pose proof (refresh_all_track self f) as Ht.
  pose proof (refresh_all_seated self f) as Hseat.
  cbv zeta in Ht, Hseat. rewrite Hseat in Hin.
  apply (classify_steady self f) in Hs.
  unfold OCR.track in Ht. rewrite Hs in Ht.
  pose proof (actions_marks f p (seated_in_seats f p Hin) _ (OCR.folded_players self) Hin H)
    as Hm.
  destruct (OCR._actions _ _ _) as [folded acts].
  injection Ht as -> _ -> _. exact Hm.
Qed.

Lemma reset_effects_witness :
  let self := OCR.next (OCR.refresh_all (OCR.init GameState.init) (table_frame [] ace_king [py "Fold"])) in
  let f := table_frame flop ace_king [py "Call"] in
  let after := OCR.next (OCR.refresh_all self f) in
  OCR.classify self f = StreetAdvance
  ∧ py "Player 2" ∈ OCR.folded_players self
  ∧ OCR.last_street_count after = 3%nat
  ∧ OCR.folded_players after = OCR.folded_players self.
Proof.
  intros self f after.
  assert (Hc : OCR.classify self f = StreetAdvance) by by vm_compute.
  split; [exact Hc|]. split; [apply (bool_decide_unpack _); by vm_compute|].
  assert (Hn : OCR.classify self f ≠ Steady) by by rewrite Hc.
  pose proof (reset_effects self f Hn) as (_ & _ & Hs & Hf).
  rewrite Hc in Hf. split; [exact Hs | exact Hf].
Defined.

(** ** Positions *)

(** C9, at the failing input.  Hero and Player 2 are seated and the
    capture of the position mark raises for both: every distance is then
    infinite, the first seated player is taken for the button and the
    seats are labelled BTN and SB, not "--".  The call itself returns. *)
Theorem positions_when_every_capture_fails :
  let f := table_frame [] [] [] in
  (∀ p, position_dist f p = None)
  ∧ snd (OCR._bankrolls f) = [py "Hero"; py "Player 2"]
  ∧ OCR._positions [py "Hero"; py "Player 2"] f
    = [(py "Hero", py "BTN"); (py "Player 2", py "SB")]
  ∧ OCR.positions (OCR.next (OCR.refresh_all (OCR.init GameState.init) f))
    = [(py "Hero", py "BTN"); (py "Player 2", py "SB")].
Proof. by vm_compute. Qed.

(** ** The order of [sorted] *)

Lemma str_ltb_cons (a b : N) (s t : pystr) :
  str_ltb (a :: s) (b :: t) = true ↔ a < b ∨ (a = b ∧ str_ltb s t = true).
Proof.
  cbn [str_ltb]. rewrite orb_true_iff, andb_true_iff, N.ltb_lt, N.eqb_eq. tauto.
Qed.

Lemma str_ltb_irrefl (s : pystr) : str_ltb s s = false.
Proof.
  induction s as [|a s IH]; [done|].
  apply not_true_is_false. rewrite str_ltb_cons. intros [H|[_ H]]; [lia|congruence].
Qed.

Lemma str_ltb_trans (s t u : pystr) :
  str_ltb s t = true → str_ltb t u = true → str_ltb s u = true.
Proof.
  revert t u. induction s as [|a s IH]; intros [|b t] [|c u]; try done.
  rewrite !str_ltb_cons. intros [H1|[-> H1]] [H2|[-> H2]]; try (left; lia).
  right. split; [done|]. by eapply IH.
Qed.

Lemma str_ltb_total (s t : pystr) :
  str_ltb s t = true ∨ s = t ∨ str_ltb t s = true.
Proof.
  revert t. induction s as [|a s IH]; intros [|b t];
    [by right; left | by left | by right; right |].
  rewrite !str_ltb_cons.
  destruct (N.lt_trichotomy a b) as [H|[->|H]]; [by left; left| |by right; right; left].
  destruct (IH t) as [H|[->|H]]; [by left; right|by right; left|by right; right; right].
Qed.

Lemma item_lt_spec (x y : pystr * pystr) :
  item_lt x y = true
  ↔ str_ltb (fst x) (fst y) = true ∨ (fst x = fst y ∧ str_ltb (snd x) (snd y) = true).
Proof.
  unfold item_lt. rewrite orb_true_iff, andb_true_iff, str_eqb_eq. tauto.
Qed.

Lemma item_lt_irrefl (x : pystr * pystr) : item_lt x x = false.
Proof.
  apply not_true_is_false. rewrite item_lt_spec, !str_ltb_irrefl. by intros [?|[_ ?]].
Qed.

Lemma item_lt_trans (x y z : pystr * pystr) :
  item_lt x y = true → item_lt y z = true → item_lt x z = true.
Proof.
  rewrite !item_lt_spec. intros [H1|[E1 H1]] [H2|[E2 H2]].
  - left. by eapply str_ltb_trans.
  - left. by rewrite <- E2.
  - left. by rewrite E1.
  - right. split; [congruence|]. by eapply str_ltb_trans.
Qed.

Lemma item_lt_total (x y : pystr * pystr) :
  item_lt x y = true ∨ x = y ∨ item_lt y x = true.
Proof.
  rewrite !item_lt_spec. destruct x as [k v], y as [k' v']. cbn [fst snd].
  destruct (str_ltb_total k k') as [H|[->|H]]; [by left; left| |by right; right; left].
  destruct (str_ltb_total v v') as [H|[->|H]]; [by left; right|by right; left|].
  by right; right; right.
Qed.

Lemma item_le_lt (x y : pystr * pystr) : item_le x y ↔ item_lt y x = false.
Proof. unfold item_le. fold (item_lt y x). by rewrite negb_true_iff. Qed.

Lemma item_le_total : Total item_le.
Proof.
  intros x y. rewrite !item_le_lt.
  destruct (item_lt y x) eqn:H; [|by left]. right.
  apply not_true_is_false. intros H'.
  pose proof (item_lt_trans _ _ _ H H') as Hyy. by rewrite item_lt_irrefl in Hyy.
Qed.

Lemma item_le_trans : Transitive item_le.
Proof.
  intros x y z. rewrite !item_le_lt. intros Hxy Hyz.
  apply not_true_is_false. intros Hzx.
  destruct (item_lt_total x y) as [H|[->|H]]; [|congruence|congruence].
  pose proof (item_lt_trans _ _ _ Hzx H). congruence.
Qed.

Lemma item_le_antisymm : AntiSymm (=) item_le.
Proof.
  intros x y. rewrite !item_le_lt. intros Hxy Hyx.
  destruct (item_lt_total x y) as [H|[->|H]]; [congruence|done|congruence].
Qed.

(** Two dicts have the same sorted items exactly when they have the same
    items, in whatever order. *)
Lemma sorted_items_eq_iff (d1 d2 : list (pystr * pystr)) :
  sorted_items d1 = sorted_items d2 ↔ d1 ≡ₚ d2.
Proof.
  unfold sorted_items. split.
  - intros H. rewrite <- (merge_sort_Permutation item_le d1), H.
    apply merge_sort_Permutation.
  - intros H.
    apply (@Sorted_unique _ item_le item_le_trans item_le_antisymm).
    + apply Sorted_merge_sort, item_le_total.
    + apply Sorted_merge_sort, item_le_total.
    + by rewrite !merge_sort_Permutation.
Qed.


(** ** Dicts built from distinct keys *)

Lemma dict_set_fresh {V} (d : list (pystr * V)) (k : pystr) (v : V) :
  k ∉ map fst d → dict_set k v d = d ++ [(k, v)].
Proof.
  induction d as [|[k' w] d IH]; [done|]. intros H.
  apply not_elem_of_cons in H as [Hne Hd]. simpl in *. unfold str_eqb.
  rewrite bool_decide_eq_false_2 by done. by rewrite IH.
Qed.

Lemma dict_comp_fold_nodup {V} (h : pystr → V) (keys : list pystr) (acc : list (pystr * V)) :
  NoDup keys → (∀ k, k ∈ keys → k ∉ map fst acc) →
  fold_left (λ d k, dict_set k (h k) d) keys acc = acc ++ map (λ k, (k, h k)) keys.
Proof.
  revert acc. induction keys as [|k keys IH]; intros acc Hnd Hdis.
  - simpl. by rewrite app_nil_r.
  - apply NoDup_cons in Hnd as [Hk Hnd]. cbn [fold_left map].
    rewrite dict_set_fresh by (apply Hdis; by left).
    rewrite IH; [by rewrite <- app_assoc|done|].
    intros k' Hk'. rewrite map_app. cbn [map fst]. intros Hin.
    apply elem_of_app in Hin as [Hin|Hin].
    + revert Hin. apply Hdis. by right.
    + apply list_elem_of_singleton in Hin. by subst k'.
Qed.

Lemma dict_comp_nodup {V} (h : pystr → V) (keys : list pystr) :
  NoDup keys → dict_comp keys h = map (λ k, (k, h k)) keys.
Proof.
  intros Hnd. unfold dict_comp. rewrite dict_comp_fold_nodup; [done..|].
  intros k _. apply not_elem_of_nil.
Qed.

Lemma map_fst_pairs {V} (h : pystr → V) (keys : list pystr) :
  map fst (map (λ k, (k, h k)) keys) = keys.
Proof. induction keys as [|k keys IH]; [done|]. simpl. by rewrite IH. Qed.

Lemma NoDup_seats : NoDup seats.
Proof. apply (bool_decide_unpack _). vm_compute. exact I. Qed.

Lemma bankrolls_items (f : frame) :
  (OCR._bankrolls f).1 = map (λ p, (p, OCR._first (bank_text f p))) seats.
Proof. unfold OCR._bankrolls. cbn [fst]. apply dict_comp_nodup, NoDup_seats. Qed.

(** ** What a cycle stores, compares and returns *)

Section Stored.
Variables (self : OCR.t) (f : frame).

Let after := OCR.next (OCR.refresh_all self f).

Lemma refresh_all_readers :
  OCR.bankrolls after = (OCR._bankrolls f).1
  ∧ OCR.vpips after = OCR._vpips (OCR.seated_players after) f
  ∧ OCR.positions after = OCR._positions (OCR.seated_players after) f.
Proof.
  unfold after, OCR.refresh_all. by destruct (OCR.track _ _ _ _) as [[[??]?]?].
Qed.

Lemma refresh_all_taken :
  OCR.taken (OCR.refresh_all self f)
  = {| snap_pot := pot_read f; snap_board := board_read f; snap_hero := hero_read f;
       snap_bankrolls := sorted_items (OCR.bankrolls after);
       snap_vpips := sorted_items (OCR.vpips after);
       snap_positions := sorted_items (OCR.positions after);
       snap_actions := sorted_items (OCR.actions after);
       snap_bets := sorted_items (OCR.bets after) |}.
Proof.
  unfold after, OCR.refresh_all. by destruct (OCR.track _ _ _ _) as [[[??]?]?].
Qed.

(** The document of a cycle: the pot, board and hero cards read, and for
    each of the seven seats its five attributes, taken from the dicts of
    the cycle with the defaults of [update_players]. *)
Lemma refresh_all_document :
  OCR.returned (OCR.refresh_all self f) = None
  ∨ OCR.returned (OCR.refresh_all self f)
    = Some (JDict
        [(py "pot", JStr (pot_read f));
         (py "board", JList (map JStr (board_read f)));
         (py "hero_cards", JList (map JStr (hero_read f)));
         (py "players",
           JDict (map (λ name,
             (name,
              JDict [(py "bankroll", JStr (dict_get (OCR.bankrolls after) name (py "N/A")));
                     (py "vpip", JStr (dict_get (OCR.vpips after) name (py "--")));
                     (py "position", JStr (dict_get (OCR.positions after) name (py "--")));
                     (py "action", JStr (dict_get (OCR.actions after) name (py "--")));
                     (py "bet", JStr (dict_get (OCR.bets after) name (py "N/A")))]))
             seats))]).
Proof.
  unfold after, OCR.refresh_all.
  destruct (OCR.track _ _ _ _) as [[[acts bts] ?] ?].
  cbn [OCR.returned OCR.next OCR.bankrolls OCR.vpips OCR.positions OCR.actions OCR.bets].
  destruct (_ || _); [right|by left].
  reflexivity.
Qed.
End Stored.

Lemma snapshot_eq_iff (a b : snapshot) :
  a = b
  ↔ snap_pot a = snap_pot b ∧ snap_board a = snap_board b ∧ snap_hero a = snap_hero b
    ∧ snap_bankrolls a = snap_bankrolls b ∧ snap_vpips a = snap_vpips b
    ∧ snap_positions a = snap_positions b ∧ snap_actions a = snap_actions b
    ∧ snap_bets a = snap_bets b.
Proof.
  split; [by intros ->|]. destruct a, b. cbn.
  intros (-> & -> & -> & -> & -> & -> & -> & ->). reflexivity.
Qed.

(** C3, as the code has it.  Of two consecutive cycles, the second
    returns a serialised state if and only if its snapshot differs from
    the snapshot of the first or it is classified as a hand reset, and
    returns nothing exactly when the snapshots are equal and there is no
    reset.  The two snapshots are equal exactly when the pot, board and
    hero cards read are the same and the bankroll, VPIP, position, action
    and bet dicts of the two cycles hold the same items, in whatever
    order; the first three dicts are what [_bankrolls], [_vpips] and
    [_positions] read in the cycle and the last two are those of the
    tracking step.  What is returned is the document of
    the readings of this cycle, with one player entry for each of the
    seven seats.  It is written to the state file when the write does not
    raise; when it raises nothing is persisted and the state is returned
    all the same.  The first cycle of a new object always returns a
    state. *)
Theorem refresh_all_emits_iff (self : OCR.t) (f1 f2 : frame) :
  let c1 := OCR.refresh_all self f1 in
  let c2 := OCR.refresh_all (OCR.next c1) f2 in
  let s1 := OCR.next c1 in
  let s2 := OCR.next c2 in
  (is_Some (OCR.returned c2)
   ↔ OCR.taken c2 ≠ OCR.taken c1 ∨ OCR.classify s1 f2 = HandReset)
  ∧ (OCR.returned c2 = None
     ↔ OCR.taken c2 = OCR.taken c1 ∧ OCR.classify s1 f2 ≠ HandReset)
  ∧ (OCR.taken c2 = OCR.taken c1
     ↔ pot_read f2 = pot_read f1 ∧ board_read f2 = board_read f1
       ∧ hero_read f2 = hero_read f1
       ∧ OCR.bankrolls s2 ≡ₚ OCR.bankrolls s1 ∧ OCR.vpips s2 ≡ₚ OCR.vpips s1
       ∧ OCR.positions s2 ≡ₚ OCR.positions s1 ∧ OCR.actions s2 ≡ₚ OCR.actions s1
       ∧ OCR.bets s2 ≡ₚ OCR.bets s1)
  ∧ (OCR.bankrolls s2 = map (λ p, (p, OCR._first (bank_text f2 p))) seats
     ∧ OCR.vpips s2 = OCR._vpips (OCR.seated_players s2) f2
     ∧ OCR.positions s2 = OCR._positions (OCR.seated_players s2) f2
     ∧ (OCR.actions s2, OCR.bets s2, OCR.folded_players s2, OCR.last_street_count s2)
       = OCR.track s1 (OCR.seated_players s2)
           (OCR.detect_hand_reset s1 (board_read f2) (hero_read f2)) f2)
  ∧ (OCR.returned c2 = None
     ∨ OCR.returned c2
       = Some (JDict
           [(py "pot", JStr (pot_read f2));
            (py "board", JList (map JStr (board_read f2)));
            (py "hero_cards", JList (map JStr (hero_read f2)));
            (py "players",
              JDict (map (λ name,
                (name,
                 JDict [(py "bankroll", JStr (dict_get (OCR.bankrolls s2) name (py "N/A")));
                        (py "vpip", JStr (dict_get (OCR.vpips s2) name (py "--")));
                        (py "position", JStr (dict_get (OCR.positions s2) name (py "--")));
                        (py "action", JStr (dict_get (OCR.actions s2) name (py "--")));
                        (py "bet", JStr (dict_get (OCR.bets s2) name (py "N/A")))]))
                seats))]))
  ∧ OCR.written c2 = (if write_fails f2 then None else OCR.returned c2)
  ∧ (∀ game_state, is_Some (OCR.returned (OCR.refresh_all (OCR.init game_state) f1))).
Proof.
  intros c1 c2 s1 s2.
  pose proof (refresh_all_returned (OCR.next c1) f2) as Hr.
  pose proof (refresh_all_prev_hash self f1) as Hp.
  pose proof (classify_hand_reset (OCR.next c1) f2) as Hc.
  cbv zeta in Hr, Hp, Hc. fold c1 in Hp. rewrite Hp in Hr. fold c2 in Hr.
  fold s1 in Hr, Hc.
  split; [|split; [|split; [|split; [|split; [|split]]]]].
  - rewrite Hr. case_bool_decide as Hs; cbn [orb].
    + split; [intros _; left; congruence | by eexists].
    + injection Hs as Hs.
      destruct (OCR.detect_hand_reset _ _ _).
      * split; [intros _; right; by apply Hc | by eexists].
      * split; [by intros [? [=]] |].
        intros [Hne|Hreset]; [done|]. by apply Hc in Hreset.
  - rewrite Hr. case_bool_decide as Hs; cbn [orb].
    + split; [done|]. intros [Heq _]. congruence.
    + injection Hs as Hs.
      destruct (OCR.detect_hand_reset _ _ _).
      * split; [done|]. intros [_ Hn]. destruct Hn. by apply Hc.
      * split; [|done]. intros _. split; [done|]. by intros ?%Hc.
  - pose proof (refresh_all_taken (OCR.next (OCR.refresh_all self f1)) f2) as T2.
    pose proof (refresh_all_taken self f1) as T1.
    cbv zeta in T1, T2. clear Hr Hp Hc. subst s2 s1 c2 c1. rewrite T1, T2.
    rewrite snapshot_eq_iff. cbn [snap_pot snap_board snap_hero snap_bankrolls snap_vpips
      snap_positions snap_actions snap_bets].
    by rewrite !sorted_items_eq_iff.
  - pose proof (refresh_all_readers s1 f2) as (Hb & Hv & Hpos).
    pose proof (refresh_all_track s1 f2) as Ht.
    pose proof (refresh_all_seated s1 f2) as Hseat.
    cbv zeta in Ht, Hseat.
    change (OCR.next (OCR.refresh_all s1 f2)) with s2 in Ht, Hseat.
    split; [rewrite <- bankrolls_items; exact Hb|].
    split; [exact Hv|]. split; [exact Hpos|]. rewrite Hseat. exact Ht.
  - exact (refresh_all_document s1 f2).
  - apply refresh_all_written.
  - intros game_state. rewrite refresh_all_returned. cbv zeta. cbn [OCR.init OCR.prev_hash].
    rewrite bool_decide_eq_true_2 by done. by eexists.
Qed.

(** C3, counterexample: a second cycle in which the bankroll of Player 2
    is no longer read, while the state file cannot be written.  Its
    snapshot differs from the one before and it returns the new state,
    but nothing is persisted. *)
Lemma changed_state_not_persisted :
  let f1 := table_frame [] ace_king [] in
  let f2 := unwritable (without_player_2 (table_frame [] ace_king [])) in
  let c1 := OCR.refresh_all (OCR.init GameState.init) f1 in
  let c2 := OCR.refresh_all (OCR.next c1) f2 in
  OCR.taken c2 ≠ OCR.taken c1
  ∧ is_Some (OCR.returned c2)
  ∧ OCR.written c2 = None.
Proof.
  split; [|split].
  - vm_compute. discriminate.
  - apply (bool_decide_unpack _). vm_compute. exact I.
  - vm_compute. reflexivity.
Qed.


(** ** The repair table *)

(** C5, as the code has it.  The repair table has the seven misread
    characters 0, O, I, L, S, B and G.  For each of 0, O, S, B, G and each
    suit symbol, the repair pass turns the character followed by the suit
    into Q, Q, 5, 8, 6 followed by the same suit, the result passes
    validation and cleaning the token yields it.  For I and L the repair
    pass gives 1 followed by the suit, which is no card: validation
    refuses it and cleaning the token yields nothing. *)
Theorem repair_then_validate :
  map fst value_corrections = [py "0"; py "O"; py "I"; py "L"; py "S"; py "B"; py "G"]
  ∧ suits = [9824; 9829; 9830; 9827]
  ∧ Forall (λ suit,
      Forall (λ entry,
        let token := fst entry ++ [suit] in
        let corrected := snd entry ++ [suit] in
        repair_card_ocr_errors token = Some corrected
        ∧ VALID_CARD_PATTERN corrected = true
        ∧ clean_single_card (JStr token) = Some corrected)
        [(py "0", py "Q"); (py "O", py "Q"); (py "S", py "5"); (py "B", py "8");
         (py "G", py "6")]
      ∧ Forall (λ misread,
          repair_card_ocr_errors (misread ++ [suit]) = Some (py "1" ++ [suit])
          ∧ VALID_CARD_PATTERN (py "1" ++ [suit]) = false
          ∧ clean_single_card (JStr (misread ++ [suit])) = None)
          [py "I"; py "L"])
      [9824; 9829; 9830; 9827].
Proof.
  split; [vm_compute; reflexivity|]. split; [vm_compute; reflexivity|].
  repeat constructor; vm_compute; reflexivity.
Qed.

(** C5, counterexample: the token I♠ is in the domain of the repair table;
    the repair pass gives 1♠, validation refuses it and cleaning returns
    nothing. *)
Lemma repair_I_spade_dropped :
  repair_card_ocr_errors (py "I" ++ [spade]) = Some (py "1" ++ [spade])
  ∧ VALID_CARD_PATTERN (py "1" ++ [spade]) = false
  ∧ clean_single_card (JStr (py "I" ++ [spade])) = None.
Proof. by vm_compute. Qed.

(** ** The sticky fold, over several cycles *)

Lemma actions_fold_absent (f : frame) (p : pystr) (l : list pystr)
    (folded : gset pystr) (acts : list (pystr * pystr)) :
  p ∉ l → dict_lookup p acts = None →
  dict_lookup p (fold_left (OCR._actions_step f) l (folded, acts)).2 = None.
Proof.
  revert folded acts. induction l as [|q l IH]; intros folded acts Hp Ha; [done|].
  apply not_elem_of_cons in Hp as [Hne Hp]. cbn [fold_left].
  destruct (OCR._actions_step f (folded, acts) q) as [folded' acts'] eqn:Hs.
  apply IH; [done|].
  assert (acts' = (OCR._actions_step f (folded, acts) q).2) as -> by by rewrite Hs.
  unfold OCR._actions_step.
  repeat (match goal with |- context [if ?b then _ else _] => destruct b end);
    cbn [snd]; rewrite dict_lookup_set, decide_False; done.
Qed.

(** In a steady cycle a seat that is not seated has no action entry. *)
Lemma steady_absent (self : OCR.t) (f : frame) (p : pystr) :
  OCR.classify self f = Steady →
  p ∉ OCR.seated_players (OCR.next (OCR.refresh_all self f)) →
  dict_lookup p (OCR.actions (OCR.next (OCR.refresh_all self f))) = None.
Proof.
  intros Hs Hin.
  pose proof (refresh_all_track self f) as Ht.
  pose proof (refresh_all_seated self f) as Hseat.
  cbv zeta in Ht, Hseat. rewrite Hseat in Hin.
  apply (classify_steady self f) in Hs.
  unfold OCR.track in Ht. rewrite Hs in Ht.
  pose proof (actions_fold_absent f p _ (OCR.folded_players self) [] Hin eq_refl) as Hm.
  fold (OCR._actions (OCR._bankrolls f).2 (OCR.folded_players self) f) in Hm.
  destruct (OCR._actions _ _ _) as [folded acts].
  injection Ht as -> _ _ _. exact Hm.
Qed.

(** C6, as the code has it.  A seat that is seated in a steady cycle and
    whose action text shows a fold there is put in the folded set and its
    action is "Fold".  As long as no cycle is a hand reset it stays in the
    folded set, and in every later steady cycle its action is "Fold" if it
    is seated in that cycle, whatever text is read for it then; if it is
    not seated in that cycle (its bankroll is not read) it has no action
    entry at all.  A cycle that is not a hand reset never takes a seat out
    of the folded set. *)
Theorem sticky_fold (self : OCR.t) (f : frame) (later : list frame) (g : frame) (p : pystr) :
  let s1 := OCR.next (OCR.refresh_all self f) in
  let s2 := OCR.run s1 later in
  let s3 := OCR.next (OCR.refresh_all s2 g) in
  OCR.classify self f = Steady →
  p ∈ OCR.seated_players s1 →
  OCR.reads_fold f p = true →
  OCR.no_reset s1 later = true →
  OCR.classify s2 g = Steady →
  dict_lookup p (OCR.actions s1) = Some (py "Fold")
  ∧ dict_lookup p (OCR.actions s3)
    = (if decide (p ∈ OCR.seated_players s3) then Some (py "Fold") else None)
  ∧ p ∈ OCR.folded_players s1 ∧ p ∈ OCR.folded_players s2 ∧ p ∈ OCR.folded_players s3
  ∧ (∀ (s : OCR.t) (h : frame) (q : pystr),
       q ∈ OCR.folded_players s →
       q ∉ OCR.folded_players (OCR.next (OCR.refresh_all s h)) →
       OCR.classify s h = HandReset).
Proof.
  intros s1 s2 s3 Hf Hp1 Hfold Hlater Hg.
  destruct (steady_marks self f p Hf Hp1 (or_introl Hfold)) as [Hin1 Hact1].
  assert (Hin2 : p ∈ OCR.folded_players s2) by by apply run_folded_mono.
  assert (Hin3 : p ∈ OCR.folded_players s3).
  { apply (refresh_all_folded_mono s2 g); [|done].
    destruct (OCR.detect_hand_reset s2 (board_read g) (hero_read g)) eqn:Hr; [|done].
    apply (classify_hand_reset s2 g) in Hr. congruence. }
  split; [done|]. split; [|split; [done|split; [done|split; [done|]]]].
  - destruct (decide (p ∈ OCR.seated_players s3)) as [Hp3|Hp3].
    + by destruct (steady_marks s2 g p Hg Hp3 (or_intror Hin2)).
    + by apply steady_absent.
  - intros s h q Hq Hnq. apply classify_hand_reset.
    destruct (OCR.detect_hand_reset s (board_read h) (hero_read h)) eqn:Hr; [done|].
    destruct Hnq. by apply refresh_all_folded_mono.
Qed.

Lemma sticky_fold_witness :
  let self := OCR.init GameState.init in
  let f := table_frame [] ace_king [py "Fold"] in
  let later := [table_frame flop ace_king [py "Call"]] in
  let g := table_frame flop ace_king [py "Raise"] in
  let p := py "Player 2" in
  let s1 := OCR.next (OCR.refresh_all self f) in
  let s2 := OCR.run s1 later in
  let s3 := OCR.next (OCR.refresh_all s2 g) in
  OCR.classify self f = Steady
  ∧ OCR.classify s1 (table_frame flop ace_king [py "Call"]) = StreetAdvance
  ∧ OCR.classify s2 g = Steady
  ∧ OCR.reads_fold g p = false
  ∧ dict_lookup p (OCR.actions s3) = Some (py "Fold").
Proof.
  intros self f later g p s1 s2 s3.
  do 4 (split; [vm_compute; reflexivity|]).
  assert (Hp3 : p ∈ OCR.seated_players s3).
  { apply (bool_decide_unpack _). vm_compute. exact I. }
  rewrite <- (decide_True (Some (py "Fold")) None Hp3).
  refine (proj1 (proj2 (sticky_fold self f later g p _ _ _ _ _))).
  - vm_compute. reflexivity.
  - apply (bool_decide_unpack _). vm_compute. exact I.
  - vm_compute. reflexivity.
  - vm_compute. reflexivity.
  - vm_compute. reflexivity.
Defined.

(** C6, counterexample: Player 2 is read as folded in a steady cycle; in
    the next cycle, steady too and with the same fold text, its bankroll
    is not read.  It then has no action entry, and the state the cycle
    emits gives it the action "--", although it is still in the folded
    set. *)
Lemma fold_not_shown_when_unseated :
  let self := OCR.init GameState.init in
  let f := table_frame [] ace_king [py "Fold"] in
  let g := without_player_2 f in
  let p := py "Player 2" in
  let s1 := OCR.next (OCR.refresh_all self f) in
  let c2 := OCR.refresh_all s1 g in
  OCR.classify self f = Steady
  ∧ OCR.reads_fold f p = true
  ∧ dict_lookup p (OCR.actions s1) = Some (py "Fold")
  ∧ OCR.classify s1 g = Steady
  ∧ OCR.reads_fold g p = true
  ∧ dict_lookup p (OCR.actions (OCR.next c2)) = None
  ∧ is_Some (OCR.returned c2)
  ∧ dict_lookup p (GameState.players (OCR.state (OCR.next c2)))
    = Some [(py "bankroll", py "N/A"); (py "vpip", py "--"); (py "position", py "--");
            (py "action", py "--"); (py "bet", py "N/A")]
  ∧ p ∈ OCR.folded_players (OCR.next c2).
Proof.
  do 6 (split; [vm_compute; reflexivity|]).
  split; [apply (bool_decide_unpack _); vm_compute; exact I|].
  split; [vm_compute; reflexivity|].
  apply (bool_decide_unpack _). vm_compute. exact I.
Qed.

(** * Further properties of the cleaner *)

(** ** Cards *)

Lemma canonical_cards_fixed :
  Forall (λ rank, Forall (λ suit,
    clean_single_card (JStr (rank ++ [suit])) = Some (rank ++ [suit])) suits) ranks.
Proof. repeat constructor; vm_compute; reflexivity. Qed.

Lemma clean_single_card_fixed (card : pystr) :
  canonical_card card → clean_single_card (JStr card) = Some card.
Proof.
  intros (rank & suit & Hr & Hs & ->).
  pose proof canonical_cards_fixed as H.
  rewrite Forall_forall in H. specialize (H rank Hr).
  rewrite Forall_forall in H. exact (H suit Hs).
Qed.

Lemma omap_clean_canonical (cards : list pystr) :
  Forall canonical_card cards → omap clean_single_card (map JStr cards) = cards.
Proof.
  induction 1 as [|card cards Hc _ IH]; [reflexivity|].
  change (map JStr (card :: cards)) with ([JStr card] ++ map JStr cards).
  rewrite omap_app, IH. cbn [omap list_omap].
  by rewrite (clean_single_card_fixed card Hc).
Qed.

Lemma clean_card_list_canonical (card_list : json) :
  Forall canonical_card (clean_card_list card_list).
Proof.
  destruct card_list as [| | | | |cards|]; try by constructor.
  unfold clean_card_list. rewrite clean_card_fold. cbn [app].
  apply Forall_forall. intros c Hc.
  apply list_elem_of_omap in Hc as (card & _ & Hc).
  by eapply clean_single_card_canonical.
Qed.

Lemma clean_card_list_fixed (cards : list pystr) :
  Forall canonical_card cards → clean_card_list (JList (map JStr cards)) = cards.
Proof.
  intros H. unfold clean_card_list. rewrite clean_card_fold. cbn [app].
  by apply omap_clean_canonical.
Qed.

Lemma omap_length_le {A B} (f : A → option B) (l : list A) :
  (length (omap f l) ≤ length l)%nat.
Proof.
  induction l as [|a l IH]; [done|]. cbn [omap list_omap length].
  destruct (f a); cbn [length]; lia.
Qed.

(** X1. A card of the canonical grammar is returned unchanged by
    [clean_single_card]: normalisation leaves it as it is and the pattern
    accepts it. *)
Theorem canonical_card_round_trip (card : pystr) :
  canonical_card card → clean_single_card (JStr card) = Some card.
Proof. apply clean_single_card_fixed. Qed.

Lemma canonical_card_round_trip_witness :
  canonical_card (py "10" ++ [heart])
  ∧ clean_single_card (JStr (py "10" ++ [heart])) = Some (py "10" ++ [heart]).
Proof.
  assert (H : canonical_card (py "10" ++ [heart])).
  { exists (py "10"), heart. split; [|split; [|reflexivity]].
    - apply (bool_decide_unpack _). vm_compute. reflexivity.
    - apply (bool_decide_unpack _). vm_compute. reflexivity. }
  split; [exact H|]. exact (canonical_card_round_trip _ H).
Defined.

(** X2. Cleaning a card list is idempotent: the cleaned list, given back
    as a list of strings, is returned as it is; and the cleaned list is
    never longer than the input list. *)
Theorem clean_card_list_idempotent :
  (∀ card_list : json,
     clean_card_list (JList (map JStr (clean_card_list card_list)))
     = clean_card_list card_list)
  ∧ (∀ cards : list json, (length (clean_card_list (JList cards)) ≤ length cards)%nat).
Proof.
  split.
  - intros card_list. apply clean_card_list_fixed, clean_card_list_canonical.
  - intros cards. unfold clean_card_list. rewrite clean_card_fold. cbn [app].
    apply omap_length_le.
Qed.

(** X3. Suits written as a letter.  For every rank but 10, the rank
    followed by S, H, D or C, in either case, is cleaned to the rank with
    the suit symbol; for 10, and for T in place of 10, a letter suit is
    not converted and the token is dropped, while T followed by a suit
    symbol is cleaned to 10 with that symbol. *)
Theorem letter_suits :
  Forall (λ rank, Forall (λ entry,
    let expected :=
      if bool_decide (rank = py "10") then None else Some (rank ++ [snd entry]) in
    clean_single_card (JStr (rank ++ fst entry)) = expected
    ∧ clean_single_card (JStr (lower (rank ++ fst entry))) = expected)
    [(py "S", spade); (py "H", heart); (py "D", diamond); (py "C", club)]) ranks
  ∧ Forall (λ letter,
      clean_single_card (JStr (py "T" ++ letter)) = None
      ∧ clean_single_card (JStr (py "t" ++ lower letter)) = None)
      [py "S"; py "H"; py "D"; py "C"]
  ∧ Forall (λ suit,
      clean_single_card (JStr (py "T" ++ [suit])) = Some (py "10" ++ [suit])
      ∧ clean_single_card (JStr (py "t" ++ [suit])) = Some (py "10" ++ [suit])) suits.
Proof.
  split; [|split]; repeat constructor; vm_compute; reflexivity.
Qed.

(** X4. Suits written as a word.  The replacement table is searched in
    the order it is written and the one-letter keys come first, so of the
    words only SPADE, HEART and CLUB are converted; a plural ends in S
    and DIAMOND ends in D, the letter is replaced alone and the token is
    dropped.  This holds for every rank but 10, for which no word is
    converted. *)
Theorem word_suits :
  Forall (λ rank, Forall (λ entry,
    clean_single_card (JStr (rank ++ fst entry))
    = if bool_decide (rank = py "10") then None else Some (rank ++ [snd entry]))
    [(py "SPADE", spade); (py "HEART", heart); (py "CLUB", club)]) ranks
  ∧ Forall (λ rank, Forall (λ word, clean_single_card (JStr (rank ++ word)) = None)
      [py "SPADES"; py "HEARTS"; py "CLUBS"; py "DIAMONDS"; py "DIAMOND"]) ranks.
Proof.
  split; repeat constructor; vm_compute; reflexivity.
Qed.

(** ** Stripping *)

Lemma lstrip_id (s : pystr) :
  (∀ c, head s = Some c → isspace c = false) → lstrip s = s.
Proof.
  destruct s as [|a s]; [done|]. intros H. simpl. by rewrite (H a).
Qed.

Lemma strip_id (s : pystr) :
  (∀ c, head s = Some c → isspace c = false) →
  (∀ c, last s = Some c → isspace c = false) →
  strip s = s.
Proof.
  intros Hh Hl. unfold strip, rstrip. rewrite (lstrip_id s Hh).
  rewrite lstrip_id; [apply rev_involutive|].
  intros c Hc. apply Hl. rewrite <- (rev_involutive s). by rewrite last_rev_head.
Qed.

Lemma lstrip_suffix (s : pystr) : ∃ pre, s = pre ++ lstrip s.
Proof.
  induction s as [|a s [pre IH]]; [by exists []|]. simpl.
  destruct (isspace a); [|by exists []].
  exists (a :: pre). simpl. by f_equal.
Qed.

Lemma elem_of_lstrip (s : pystr) (c : N) : c ∈ lstrip s → c ∈ s.
Proof.
  destruct (lstrip_suffix s) as [pre H]. intros Hc.
  rewrite H. apply elem_of_app. by right.
Qed.

Lemma elem_of_rev {A} (l : list A) (x : A) : x ∈ rev l → x ∈ l.
Proof. rewrite !list_elem_of_In. apply in_rev. Qed.

Lemma elem_of_strip (s : pystr) (c : N) : c ∈ strip s → c ∈ s.
Proof.
  unfold strip, rstrip. intros H.
  apply elem_of_rev, elem_of_lstrip, elem_of_rev in H.
  apply elem_of_lstrip. exact H.
Qed.

Lemma head_strip (s : pystr) (c : N) : head (strip s) = Some c → isspace c = false.
Proof.
  unfold strip, rstrip. set (t := lstrip s).
  destruct (lstrip_suffix (rev t)) as [pre H].
  destruct (lstrip (rev t)) as [|a u] eqn:Hu; [done|].
  intros Hc.
  assert (Hl : last (rev t) = last (a :: u)).
  { rewrite H. apply last_app_cons. }
  rewrite last_rev_head in Hl.
  assert (Hh : head (rev (a :: u)) = last (a :: u)).
  { rewrite <- last_rev_head. by rewrite rev_involutive. }
  rewrite Hh, <- Hl in Hc. by apply head_lstrip in Hc.
Qed.

Lemma strip_strip (s : pystr) : strip (strip s) = strip s.
Proof. apply strip_id; [apply head_strip | apply last_strip]. Qed.

(** A text that ends in a character that is not white space still ends
    in it once stripped. *)
Lemma strip_snoc (s : pystr) (c : N) :
  isspace c = false → ∃ t, strip (s ++ [c]) = t ++ [c].
Proof.
  intros Hc. unfold strip, rstrip.
  assert (H : ∃ t, lstrip (s ++ [c]) = t ++ [c]).
  { induction s as [|a s [t IH]]; simpl.
    - rewrite Hc. by exists [].
    - destruct (isspace a); [by exists t|]. by exists (a :: s). }
  destruct H as [t ->]. exists t.
  rewrite rev_app_distr. simpl. rewrite Hc. simpl.
  by rewrite rev_involutive.
Qed.

Lemma replace_char_absent (c : N) (s : pystr) : c ∉ s → replace_char c [] s = s.
Proof.
  induction s as [|a s IH]; [done|]. intros H.
  apply not_elem_of_cons in H as [Hne Hs]. unfold replace_char in *. simpl.
  destruct (a =? c) eqn:Ha; [apply N.eqb_eq in Ha; congruence|].
  simpl. by rewrite IH.
Qed.

Lemma elem_of_replace_char (c d : N) (s : pystr) :
  d ∈ replace_char c [] s → d ∈ s ∧ d ≠ c.
Proof.
  induction s as [|a s IH]; unfold replace_char in *; simpl.
  - by intros ?%elem_of_nil.
  - destruct (a =? c) eqn:Ha; simpl.
    + intros [H1 H2]%IH. split; [by right|done].
    + intros [->|H]%elem_of_cons.
      * split; [by left|]. by apply N.eqb_neq in Ha.
      * apply IH in H as [H1 H2]. split; [by right|done].
Qed.

Lemma upper_char_eq (c d : N) :
  upper_char c = d → d < 97 ∨ 122 < d → c = d ∨ c = d + 32.
Proof.
  unfold upper_char. destruct ((97 <=? c) && (c <=? 122)) eqn:H.
  - apply andb_true_iff in H as [H1%N.leb_le H2%N.leb_le]. lia.
  - auto.
Qed.

Lemma last_map {A B} (f : A → B) (l : list A) : last (map f l) = f <$> last l.
Proof.
  induction l as [|a [|b l] IH]; [done..|].
  change (map f (a :: b :: l)) with (f a :: f b :: map f l).
  rewrite !last_cons_cons. exact IH.
Qed.

(** ** Position and action *)

Lemma VALID_POSITION_PATTERN_inv (text : pystr) :
  VALID_POSITION_PATTERN text = true →
  ∃ code, code ∈ position_codes ∧ (text = code ∨ text = code ++ [10]).
Proof.
  unfold VALID_POSITION_PATTERN. rewrite existsb_exists.
  intros (code & Hc%list_elem_of_In & H). exists code. split; [done|].
  apply orb_true_iff in H as [H|H]; apply str_eqb_eq in H; auto.
Qed.

Lemma last_upper_strip (s : pystr) : last (upper (strip s)) ≠ Some 10.
Proof.
  unfold upper. rewrite last_map.
  destruct (last (strip s)) as [c|] eqn:Hc; [|done].
  apply last_strip in Hc. cbn. intros [= H].
  unfold upper_char in H.
  destruct ((97 <=? c) && (c <=? 122)) eqn:Hr.
  - apply andb_true_iff in Hr as [H1%N.leb_le H2%N.leb_le]. lia.
  - by subst c.
Qed.

Lemma dict_get_Forall {V} (P : V → Prop) (d : list (pystr * V)) (key : pystr) (default : V) :
  Forall (λ item, P (snd item)) d → P default → P (dict_get d key default).
Proof.
  unfold dict_get. intros Hd Hdef. induction Hd as [|[k v] d Hv _ IH]; [done|].
  simpl. by destruct (str_eqb k key).
Qed.

Lemma clean_position_value_in (position : json) :
  clean_position_value position ∈ py "--" :: position_codes.
Proof.
  assert (Hdash : py "--" ∈ py "--" :: position_codes) by by left.
  unfold clean_position_value.
  destruct (is_none position); [done|].
  destruct (str_in _ _); [done|].
  destruct (VALID_POSITION_PATTERN _) eqn:Hv.
  - apply VALID_POSITION_PATTERN_inv in Hv as (code & Hc & [H|H]).
    + rewrite H. by right.
    + exfalso. apply (last_upper_strip (py_str position)). rewrite H. apply last_snoc.
  - apply (dict_get_Forall (λ v, v ∈ py "--" :: position_codes)); [|done].
    repeat constructor; apply (bool_decide_unpack _); vm_compute; exact I.
Qed.

Lemma position_outputs_fixed :
  Forall (λ text, clean_position_value (JStr text) = text) (py "--" :: position_codes).
Proof. repeat constructor; vm_compute; reflexivity. Qed.

Lemma clean_position_value_fixed (position : json) :
  clean_position_value (JStr (clean_position_value position))
  = clean_position_value position.
Proof.
  pose proof position_outputs_fixed as H. rewrite Forall_forall in H.
  apply H, clean_position_value_in.
Qed.

(** X5. [clean_position_value] returns one of BTN, SB, BB, UTG, MP, CO, HJ
    or "--", whatever it is given, and returns its own result unchanged
    when given it again. *)
Theorem clean_position_value_codes :
  (∀ position : json, clean_position_value position ∈ py "--" :: position_codes)
  ∧ (∀ position : json,
       clean_position_value (JStr (clean_position_value position))
       = clean_position_value position).
Proof. split; [apply clean_position_value_in | apply clean_position_value_fixed]. Qed.

Lemma clean_action_value_in (action : json) :
  clean_action_value action ∈ action_names.
Proof.
  unfold clean_action_value, action_names.
  repeat (match goal with |- context [if ?b then _ else _] => destruct b end);
    apply (bool_decide_unpack _); vm_compute; exact I.
Qed.

Lemma action_outputs_fixed :
  Forall (λ text, clean_action_value (JStr text) = text) action_names.
Proof. repeat constructor; vm_compute; reflexivity. Qed.

Lemma clean_action_value_fixed (action : json) :
  clean_action_value (JStr (clean_action_value action)) = clean_action_value action.
Proof.
  pose proof action_outputs_fixed as H. rewrite Forall_forall in H.
  apply H, clean_action_value_in.
Qed.

(** X6. [clean_action_value] returns one of Fold, Raise, Call or "--",
    whatever it is given, and returns its own result unchanged when given
    it again. *)
Theorem clean_action_value_buckets :
  (∀ action : json, clean_action_value action ∈ action_names)
  ∧ (∀ action : json,
       clean_action_value (JStr (clean_action_value action))
       = clean_action_value action).
Proof. split; [apply clean_action_value_in | apply clean_action_value_fixed]. Qed.

(** X7. The fold bucket is tried first: an action whose text, stripped
    and in lower case, contains "fold" is cleaned to Fold even when it
    also names a raise, a bet, a call or a check. *)
Theorem clean_action_value_fold_first (action : json) :
  is_none action = false →
  contains (py "fold") (lower (strip (py_str action))) = true →
  clean_action_value action = py "Fold".
Proof.
  intros Hn Hf. unfold clean_action_value. rewrite Hn.
  destruct (str_in _ _) eqn:Hin.
  - apply str_in_elem in Hin.
    repeat (apply elem_of_cons in Hin as [Hin|Hin];
            [rewrite Hin in Hf; vm_compute in Hf; discriminate|]).
    by apply elem_of_nil in Hin.
  - cbn [existsb]. by rewrite Hf.
Qed.

Lemma clean_action_value_fold_first_witness :
  contains (py "raise") (lower (strip (py "Folds to a RAISE"))) = true
  ∧ clean_action_value (JStr (py "Folds to a RAISE")) = py "Fold".
Proof.
  split; [vm_compute; reflexivity|].
  apply clean_action_value_fold_first; vm_compute; reflexivity.
Defined.

(** ** Numbers in text *)

Lemma isdigit_cases (c : N) :
  isdigit c = true →
  c ∈ [48; 49; 50; 51; 52; 53; 54; 55; 56; 57].
Proof.
  unfold isdigit. intros [H1%N.leb_le H2%N.leb_le]%andb_true_iff.
  assert (H : c = 48 ∨ c = 49 ∨ c = 50 ∨ c = 51 ∨ c = 52 ∨ c = 53 ∨ c = 54
              ∨ c = 55 ∨ c = 56 ∨ c = 57) by lia.
  repeat (destruct H as [->|H]; [apply (bool_decide_unpack _); vm_compute; exact I|]).
  subst c. apply (bool_decide_unpack _); vm_compute; exact I.
Qed.

(** A fact about every decimal digit, checked digit by digit. *)
Lemma for_digits (P : N → Prop) :
  Forall P [48; 49; 50; 51; 52; 53; 54; 55; 56; 57] → ∀ c, isdigit c = true → P c.
Proof.
  intros H c Hc. rewrite Forall_forall in H. by apply H, isdigit_cases.
Qed.

Lemma digit_not_space (c : N) : isdigit c = true → isspace c = false.
Proof. apply (for_digits (λ c, isspace c = false)). by repeat constructor. Qed.

Lemma digit_not_float_space (c : N) : isdigit c = true → float_space c = false.
Proof. apply (for_digits (λ c, float_space c = false)). by repeat constructor. Qed.

Lemma digit_lower (c : N) : isdigit c = true → lower_char c = c.
Proof. apply (for_digits (λ c, lower_char c = c)). by repeat constructor. Qed.

Lemma parse_sign_digit (c : N) (s : pystr) :
  isdigit c = true → parse_sign (c :: s) = (false, c :: s).
Proof.
  revert c. apply (for_digits (λ c, parse_sign (c :: s) = (false, c :: s))).
  by repeat constructor.
Qed.

Lemma span_digits_spec (s : pystr) :
  s = (span_digits s).1 ++ (span_digits s).2
  ∧ Forall (λ c, isdigit c = true) (span_digits s).1.
Proof.
  induction s as [|c s [IH1 IH2]]; [by split|]. simpl.
  destruct (isdigit c) eqn:Hc; [|by split].
  destruct (span_digits s) as [ds r]. simpl in *. split; [by f_equal|by constructor].
Qed.

Lemma findall_numbers_0_shape (s n : pystr) :
  findall_numbers_0 s = Some n → number_text n.
Proof.
  induction s as [|c s IH]; [done|]. cbn [findall_numbers_0].
  destruct (isdigit c) eqn:Hc; [|exact IH]. clear IH.
  cbn [span_digits]. rewrite Hc.
  pose proof (span_digits_spec s) as [_ Hds].
  destruct (span_digits s) as [ds r]. cbn [fst] in Hds.
  destruct r as [|d r].
  - intros [= <-]. exists c, ds, []. auto.
  - destruct (N.eq_dec d 46) as [->|Hne].
    + pose proof (span_digits_spec r) as [_ Hfs].
      destruct (span_digits r) as [fs r']. cbn [fst] in Hfs.
      intros [= <-]. exists c, ds, fs. auto.
    + match goal with |- (?m = Some n → _) =>
        assert (Hm : m = Some (c :: ds)) end.
      { clear -Hne. destruct d as [|p]; [reflexivity|].
        do 6 (destruct p as [p|p|]; try reflexivity). by destruct Hne. }
      rewrite Hm. intros [= <-]. exists c, ds, []. auto.
Qed.

Lemma digitpart_tail_digits (ds rest : pystr) :
  Forall (λ c, isdigit c = true) ds →
  (rest = [] ∨ ∃ c r, rest = c :: r ∧ isdigit c = false ∧ c ≠ 95) →
  digitpart_tail (ds ++ rest) = (ds, rest).
Proof.
  intros Hds Hrest. induction Hds as [|d ds Hd _ IH]; simpl.
  - destruct Hrest as [->|(c & r & -> & Hc & Hne)]; [done|].
    simpl. rewrite Hc. apply N.eqb_neq in Hne. by rewrite Hne.
  - by rewrite Hd, IH.
Qed.

Lemma lstrip_float_id (s : pystr) :
  (∀ c, head s = Some c → float_space c = false) → lstrip_float s = s.
Proof.
  destruct s as [|a s]; [done|]. intros H. simpl. by rewrite (H a).
Qed.

Lemma strip_float_id (s : pystr) :
  (∀ c, head s = Some c → float_space c = false) →
  (∀ c, last s = Some c → float_space c = false) →
  strip_float s = s.
Proof.
  intros Hh Hl. unfold strip_float. rewrite (lstrip_float_id s Hh).
  rewrite lstrip_float_id; [apply rev_involutive|].
  intros c Hc. apply Hl. rewrite <- (rev_involutive s). by rewrite last_rev_head.
Qed.

Lemma number_text_chars (n : pystr) :
  number_text n → Forall (λ c, isdigit c = true ∨ c = 46) n.
Proof.
  intros (d0 & ds & fs & Hd & Hds & Hfs & [->| ->]).
  - constructor; [by left|]. eapply Forall_impl; [exact Hds|]. by left.
  - constructor; [by left|]. apply Forall_app. split.
    + eapply Forall_impl; [exact Hds|]. by left.
    + constructor; [by right|]. eapply Forall_impl; [exact Hfs|]. by left.
Qed.

Lemma number_text_head (n : pystr) :
  number_text n → ∃ d0 rest, n = d0 :: rest ∧ isdigit d0 = true.
Proof. intros (d0 & ds & fs & Hd & _ & _ & [->| ->]); eauto. Qed.

Lemma Forall_last {A} (P : A → Prop) (l : list A) (x : A) :
  Forall P l → last l = Some x → P x.
Proof.
  intros H Hl. rewrite Forall_forall in H. apply H.
  apply last_Some in Hl as [l' ->]. apply elem_of_app. right. by left.
Qed.

(** [float] accepts every match of the number pattern. *)
Lemma float_of_number_text (n : pystr) :
  number_text n → is_Some (float_of_str n).
Proof.
  intros Hn. pose proof (number_text_chars n Hn) as Hchars.
  destruct (number_text_head n Hn) as (d0 & rest & Hn0 & Hd0).
  assert (Hns : ∀ c, isdigit c = true ∨ c = 46 → float_space c = false).
  { intros c [Hc| ->]; [by apply digit_not_float_space | done]. }
  unfold float_of_str. rewrite strip_float_id.
  2:{ rewrite Hn0. intros c [= <-]. by apply digit_not_float_space. }
  2:{ intros c Hc. apply Hns.
      exact (Forall_last (λ c, isdigit c = true ∨ c = 46) n c Hchars Hc). }
  rewrite Hn0 at 1. rewrite parse_sign_digit by done. rewrite <- Hn0.
  assert (Hlow : lower n = n).
  { unfold lower. clear -Hchars. induction Hchars as [|c l Hc _ IH]; [done|].
    simpl. rewrite IH. f_equal. destruct Hc as [Hc| ->]; [by apply digit_lower | done]. }
  rewrite Hlow.
  assert (Hne : ∀ text, isdigit (default 0 (head text)) = false → str_eqb n text = false).
  { intros text Ht. apply bool_decide_eq_false_2. intros <-.
    rewrite Hn0 in Ht. simpl in Ht. congruence. }
  rewrite !Hne by done. cbn [orb].
  destruct Hn as (e0 & ds & fs & He & Hds & Hfs & [Hn| Hn]).
  - assert (Hp : parse_number n = Some (digits_value n, 0%Z)).
    { unfold parse_number, digitpart. rewrite Hn, He.
      rewrite <- (app_nil_r ds), digitpart_tail_digits by auto.
      by rewrite app_nil_r. }
    rewrite Hp. by eexists.
  - unfold parse_number, digitpart. rewrite Hn. cbn [app]. rewrite He.
    rewrite digitpart_tail_digits.
    2: done.
    2:{ right. exists 46, fs. done. }
    destruct Hfs as [|f fs Hf Hfs].
    + cbn. by eexists.
    + rewrite Hf. rewrite <- (app_nil_r fs), digitpart_tail_digits by auto.
      cbn. by eexists.
Qed.

(** ** Bankroll and bet *)

Lemma upper_char_inv (c d : N) :
  upper_char c = d → c = d ∨ (c = d + 32 ∧ 65 <= d ∧ d <= 90).
Proof.
  unfold upper_char. destruct ((97 <=? c) && (c <=? 122)) eqn:H.
  - apply andb_true_iff in H as [H1%N.leb_le H2%N.leb_le]. lia.
  - auto.
Qed.

Lemma upper_na_not_float (s : pystr) : upper s = py "N/A" → float_of_str s = None.
Proof.
  destruct s as [|a [|b [|c [|? ?]]]]; try discriminate.
  intros [= Ha%upper_char_inv Hb%upper_char_inv Hc%upper_char_inv].
  destruct Ha as [->|[-> _]], Hb as [->|[-> ?]], Hc as [->|[-> _]];
    try lia; vm_compute; reflexivity.
Qed.

Lemma upper_dashes_not_float (s : pystr) : upper s = py "--" → float_of_str s = None.
Proof.
  destruct s as [|a [|b [|? ?]]]; try discriminate.
  intros [= Ha%upper_char_inv Hb%upper_char_inv].
  destruct Ha as [->|[-> ?]], Hb as [->|[-> ?]]; try lia; vm_compute; reflexivity.
Qed.

Lemma str_eqb_ne (s t : pystr) : s ≠ t → str_eqb s t = false.
Proof. intros H. by apply bool_decide_eq_false_2. Qed.

Lemma number_text_numeric (n : pystr) : number_text n → numeric_text n.
Proof.
  intros Hn. pose proof (number_text_chars n Hn) as Hchars.
  destruct (number_text_head n Hn) as (d0 & rest & Hn0 & Hd0).
  assert (Hns : ∀ c, isdigit c = true ∨ c = 46 → isspace c = false).
  { intros c [Hc| ->]; [by apply digit_not_space | done]. }
  rewrite Forall_forall in Hchars.
  repeat split.
  - apply strip_id.
    + rewrite Hn0. intros c [= <-]. by apply digit_not_space.
    + intros c Hc. apply Hns, Hchars.
      apply last_Some in Hc as [l' ->]. apply elem_of_app. right. by left.
  - intros [H| H]%Hchars; [by vm_compute in H | done].
  - intros [H| H]%Hchars; [by vm_compute in H | done].
  - by apply float_of_number_text.
Qed.

Lemma stripped_numeric (s : pystr) :
  let t := strip (replace_char 44 [] (replace_char 36 [] s)) in
  is_Some (float_of_str t) → numeric_text t.
Proof.
  intros t Hf. repeat split; [apply strip_strip| | |done].
  - intros H%elem_of_strip%elem_of_replace_char. destruct H as [H _].
    apply elem_of_replace_char in H as [_ H]. done.
  - intros H%elem_of_strip%elem_of_replace_char. by destruct H as [_ H].
Qed.

Lemma numeric_text_facts (t : pystr) :
  numeric_text t →
  strip (replace_char 44 [] (replace_char 36 [] t)) = t
  ∧ str_eqb (strip t) [] = false
  ∧ upper t ≠ py "N/A" ∧ upper t ≠ py "--" ∧ t ≠ [].
Proof.
  intros (Hs & H36 & H44 & Hf).
  rewrite (replace_char_absent 36 t H36), (replace_char_absent 44 t H44), Hs.
  assert (Hne : t ≠ []) by (intros ->; by destruct Hf).
  repeat split; try done.
  - by apply str_eqb_ne.
  - intros H%upper_na_not_float. rewrite H in Hf. by destruct Hf.
  - intros H%upper_dashes_not_float. rewrite H in Hf. by destruct Hf.
Qed.

Lemma clean_bankroll_value_keeps (t : pystr) :
  numeric_text t → clean_bankroll_value (JStr t) = t.
Proof.
  intros Ht. destruct (numeric_text_facts t Ht) as (Hr & He & Hna & _ & Hne).
  destruct Ht as (_ & _ & _ & [x Hf]).
  unfold clean_bankroll_value. cbn [is_none py_str orb]. rewrite He, Hr.
  rewrite (str_eqb_ne (upper t) (py "N/A") Hna), (str_eqb_ne t [] Hne).
  cbn [orb]. by rewrite Hf.
Qed.

Lemma clean_bet_value_keeps (t : pystr) :
  numeric_text t → clean_bet_value (JStr t) = t.
Proof.
  intros Ht. destruct (numeric_text_facts t Ht) as (Hr & _ & Hna & Hdash & Hne).
  destruct Ht as (_ & _ & _ & [x Hf]).
  unfold clean_bet_value. cbn [is_none py_str]. rewrite Hr.
  assert (Hin : str_in (upper t) [py "N/A"; py "--"; []] = false).
  { apply not_true_is_false. intros H%str_in_elem.
    repeat (apply elem_of_cons in H as [H|H]; [done || (by destruct t)|]).
    by apply elem_of_nil in H. }
  by rewrite Hin, Hf.
Qed.

Lemma clean_bankroll_value_shape (bankroll : json) :
  clean_bankroll_value bankroll = py "N/A" ∨ numeric_text (clean_bankroll_value bankroll).
Proof.
  unfold clean_bankroll_value.
  destruct (is_none bankroll || _); [by left|].
  destruct (_ || _); [by left|].
  destruct (float_of_str _) as [x|] eqn:Hf.
  - right. apply stripped_numeric. by rewrite Hf.
  - destruct (findall_numbers_0 _) as [n|] eqn:Hn; [|by left].
    right. by eapply number_text_numeric, findall_numbers_0_shape.
Qed.

Lemma clean_bet_value_shape (bet : json) :
  clean_bet_value bet = py "N/A" ∨ numeric_text (clean_bet_value bet).
Proof.
  unfold clean_bet_value.
  destruct (is_none bet); [by left|].
  destruct (str_in _ _); [by left|].
  destruct (float_of_str _) as [x|] eqn:Hf.
  - right. apply stripped_numeric. by rewrite Hf.
  - destruct (findall_numbers_0 _) as [n|] eqn:Hn; [|by left].
    right. by eapply number_text_numeric, findall_numbers_0_shape.
Qed.

Lemma clean_bankroll_value_fixed (bankroll : json) :
  clean_bankroll_value (JStr (clean_bankroll_value bankroll))
  = clean_bankroll_value bankroll.
Proof.
  destruct (clean_bankroll_value_shape bankroll) as [-> | H];
    [vm_compute; reflexivity | by apply clean_bankroll_value_keeps].
Qed.

Lemma clean_bet_value_fixed (bet : json) :
  clean_bet_value (JStr (clean_bet_value bet)) = clean_bet_value bet.
Proof.
  destruct (clean_bet_value_shape bet) as [-> | H];
    [vm_compute; reflexivity | by apply clean_bet_value_keeps].
Qed.

(** X8. Whatever they are given, [clean_bankroll_value] and
    [clean_bet_value] return either "N/A" or a text that [float] accepts,
    that has no dollar sign and no comma and no white space at either
    end. *)
Theorem bankroll_and_bet_numeric :
  (∀ bankroll : json,
     let text := clean_bankroll_value bankroll in
     text = py "N/A"
     ∨ (is_Some (float_of_str text) ∧ (36 ∉ text) ∧ (44 ∉ text) ∧ strip text = text))
  ∧ (∀ bet : json,
     let text := clean_bet_value bet in
     text = py "N/A"
     ∨ (is_Some (float_of_str text) ∧ (36 ∉ text) ∧ (44 ∉ text) ∧ strip text = text)).
Proof.
  split; intros v text.
  - destruct (clean_bankroll_value_shape v) as [H | (? & ? & ? & ?)]; auto.
  - destruct (clean_bet_value_shape v) as [H | (? & ? & ? & ?)]; auto.
Qed.

(** X9. [clean_bankroll_value] and [clean_bet_value] are idempotent: each
    returns its own result unchanged when given it again. *)
Theorem bankroll_and_bet_idempotent :
  (∀ bankroll : json,
     clean_bankroll_value (JStr (clean_bankroll_value bankroll))
     = clean_bankroll_value bankroll)
  ∧ (∀ bet : json, clean_bet_value (JStr (clean_bet_value bet)) = clean_bet_value bet).
Proof. split; [apply clean_bankroll_value_fixed | apply clean_bet_value_fixed]. Qed.

(** ** VPIP *)

Lemma endswith_snoc (c : N) (t : pystr) : endswith [c] (t ++ [c]) = true.
Proof.
  unfold endswith. rewrite rev_app_distr. cbn. by rewrite N.eqb_refl.
Qed.

Lemma endswith_inv (c : N) (s : pystr) :
  endswith [c] s = true → s = drop_last 1 s ++ [c].
Proof.
  unfold endswith, drop_last. cbn [rev app].
  destruct (rev s) as [|c' u] eqn:Hu; [discriminate|].
  cbn [startswith]. rewrite andb_true_r. intros ->%N.eqb_eq.
  assert (Hs : s = rev u ++ [c']).
  { rewrite <- (rev_involutive s), Hu. reflexivity. }
  rewrite Hs at 3. rewrite Hs at 1. f_equal.
  rewrite Hs, length_app. cbn [length].
  replace (length (rev u) + 1 - 1)%nat with (length (rev u)) by lia.
  by rewrite take_app_length.
Qed.

Lemma clean_vpip_value_shape (vpip : json) :
  clean_vpip_value vpip = py "--"
  ∨ ∃ body percentage,
      clean_vpip_value vpip = body ++ py "%"
      ∧ float_of_str body = Some percentage.
Proof.
  unfold clean_vpip_value.
  destruct (is_none vpip); [by left|].
  destruct (str_in _ _); [by left|].
  set (vpip_str := strip (py_str vpip)).
  destruct (endswith (py "%") vpip_str) eqn:He; cbn [negb andb].
  - destruct (float_of_str (drop_last 1 vpip_str)) as [p|] eqn:Hf; [|by left].
    destruct (float_leb float_zero p && float_leb p float_100); [|by left].
    right. exists (drop_last 1 vpip_str), p. split; [|done].
    by apply (endswith_inv 37).
  - destruct (negb (str_eqb vpip_str (py "--"))); [|by left].
    destruct (float_of_str vpip_str) as [p|] eqn:Hf; [|by left].
    right. by exists vpip_str, p.
Qed.

(** X10. Whatever it is given, [clean_vpip_value] returns either "--" or
    a text that [float] accepts followed by one percent sign. *)
Theorem clean_vpip_value_percent_text (vpip : json) :
  clean_vpip_value vpip = py "--"
  ∨ ∃ body percentage,
      clean_vpip_value vpip = body ++ py "%"
      ∧ float_of_str body = Some percentage.
Proof. apply clean_vpip_value_shape. Qed.

Lemma clean_vpip_value_signed (text : pystr) :
  let vpip := clean_vpip_value (JStr (text ++ py "%")) in
  vpip = py "--"
  ∨ ∃ body percentage,
      vpip = strip (text ++ py "%") ∧ vpip = body ++ py "%"
      ∧ float_of_str body = Some percentage
      ∧ float_leb float_zero percentage = true
      ∧ float_leb percentage float_100 = true.
Proof.
  intros vpip. subst vpip. unfold clean_vpip_value. cbn [is_none py_str].
  destruct (str_in _ _); [by left|].
  destruct (strip_snoc text 37 eq_refl) as [t Ht].
  change (text ++ py "%") with (text ++ [37]). rewrite Ht.
  change (py "%") with [37]. rewrite endswith_snoc. cbn [negb andb].
  destruct (float_of_str (drop_last 1 (t ++ [37]))) as [p|] eqn:Hf; [|by left].
  destruct (float_leb float_zero p) eqn:H0; [|by left].
  destruct (float_leb p float_100) eqn:H1; [|by left].
  right. exists (drop_last 1 (t ++ [37])), p. cbn [andb].
  split; [done|]. split; [|done].
  apply (endswith_inv 37), endswith_snoc.
Qed.

(** X11. A VPIP text that ends in a percent sign, as every text built by
    the capture stage does, goes through the range check: the result is
    "--", or the stripped text itself, whose number lies between 0 and
    100. *)
Theorem clean_vpip_value_with_sign_checked (text : pystr) :
  let vpip := clean_vpip_value (JStr (text ++ py "%")) in
  vpip = py "--"
  ∨ ∃ body percentage,
      vpip = strip (text ++ py "%") ∧ vpip = body ++ py "%"
      ∧ float_of_str body = Some percentage
      ∧ float_leb float_zero percentage = true
      ∧ float_leb percentage float_100 = true.
Proof. apply clean_vpip_value_signed. Qed.

(** ** The player mapping and the whole state *)

Lemma dict_set_keys_in {V} (k x : pystr) (v : V) (d : list (pystr * V)) :
  x ∈ map fst (dict_set k v d) ↔ x = k ∨ x ∈ map fst d.
Proof.
  induction d as [|[k' w] d IH]; simpl.
  - rewrite list_elem_of_singleton. split; [by left|]. intros [H|H]; [done|].
    by apply elem_of_nil in H.
  - destruct (str_eqb k' k) eqn:Hk; simpl.
    + apply str_eqb_eq in Hk as ->. rewrite elem_of_cons. tauto.
    + rewrite !elem_of_cons, IH. tauto.
Qed.

Lemma dict_set_NoDup {V} (k : pystr) (v : V) (d : list (pystr * V)) :
  NoDup (map fst d) → NoDup (map fst (dict_set k v d)).
Proof.
  induction d as [|[k' w] d IH]; simpl; intros Hnd.
  - apply NoDup_singleton.
  - apply NoDup_cons in Hnd as [Hk' Hnd].
    destruct (str_eqb k' k) eqn:Hk; simpl.
    + by apply NoDup_cons.
    + apply NoDup_cons. split; [|by apply IH].
      rewrite dict_set_keys_in. intros [->|H]; [|done].
      unfold str_eqb in Hk. by apply bool_decide_eq_false_1 in Hk.
Qed.

Lemma dict_set_Forall {V} (P : V → Prop) (k : pystr) (v : V) (d : list (pystr * V)) :
  P v → Forall (λ item, P (snd item)) d → Forall (λ item, P (snd item)) (dict_set k v d).
Proof.
  intros Hv Hd. induction Hd as [|[k' w] d Hw Hd IH]; simpl.
  - by repeat constructor.
  - destruct (str_eqb k' k); by constructor.
Qed.

Lemma dict_set_length {V} (k : pystr) (v : V) (d : list (pystr * V)) :
  (length (dict_set k v d) ≤ S (length d))%nat.
Proof.
  induction d as [|[k' w] d IH]; simpl; [lia|].
  destruct (str_eqb k' k); simpl; lia.
Qed.

Lemma numeric_not_na (t : pystr) : numeric_text t → t ≠ py "N/A".
Proof. intros (_ & _ & _ & [x Hf]) ->. vm_compute in Hf. discriminate. Qed.

Lemma clean_player_step_cases (acc : list (pystr * json)) (name : pystr) (player_info : json) :
  clean_player_step acc (name, player_info) = acc
  ∨ ∃ info cleaned,
      player_info = JDict info
      ∧ eq_str (dict_get info (py "bankroll") (JStr (py "N/A"))) (py "N/A") = false
      ∧ truthy (dict_get info (py "bankroll") (JStr (py "N/A"))) = true
      ∧ clean_bankroll_value (dict_get info (py "bankroll") (JStr (py "N/A"))) ≠ py "N/A"
      ∧ cleaned_player cleaned
      ∧ clean_player_step acc (name, player_info) = dict_set name cleaned acc.
Proof.
  destruct player_info as [| | | | | |info]; try by left.
  unfold clean_player_step.
  set (bankroll := dict_get info (py "bankroll") (JStr (py "N/A"))).
  destruct (eq_str bankroll (py "N/A")) eqn:Hna; [by left|].
  destruct (truthy bankroll) eqn:Ht; [|by left]. cbn [negb orb].
  destruct (str_eqb (clean_bankroll_value bankroll) (py "N/A")) eqn:Hc; [by left|].
  cbn [negb]. right. eexists info, _. split; [done|]. split; [done|]. split; [done|].
  assert (Hne : clean_bankroll_value bankroll ≠ py "N/A").
  { intros H. apply str_eqb_eq in H. congruence. }
  split; [done|]. split; [|reflexivity].
  eexists _, _, _, _, _. split; [reflexivity|].
  split; [by destruct (clean_bankroll_value_shape bankroll)|].
  split; [apply clean_vpip_value_shape|].
  split; [apply clean_position_value_in|].
  split; [apply clean_action_value_in|apply clean_bet_value_shape].
Qed.

Lemma clean_players_fold (items acc : list (pystr * json)) :
  NoDup (map fst acc) → Forall (λ item, cleaned_player (snd item)) acc →
  let cleaned := fold_left clean_player_step items acc in
  NoDup (map fst cleaned) ∧ Forall (λ item, cleaned_player (snd item)) cleaned
  ∧ (length cleaned ≤ length acc + length items)%nat
  ∧ ∀ name, name ∈ map fst cleaned →
      name ∈ map fst acc
      ∨ ∃ info, (name, JDict info) ∈ items
          ∧ eq_str (dict_get info (py "bankroll") (JStr (py "N/A"))) (py "N/A") = false
          ∧ truthy (dict_get info (py "bankroll") (JStr (py "N/A"))) = true
          ∧ clean_bankroll_value (dict_get info (py "bankroll") (JStr (py "N/A"))) ≠ py "N/A".
Proof.
  revert acc. induction items as [|[name player_info] items IH]; intros acc Hnd Hall; cbn zeta.
  - simpl. repeat split; [done|done|lia|]. intros name H. by left.
  - cbn [fold_left].
    destruct (clean_player_step_cases acc name player_info)
      as [->|(info & cleaned & -> & Hna & Ht & Hc & Hcl & ->)].
    + destruct (IH acc Hnd Hall) as (H1 & H2 & H3 & H4).
      repeat split; [done|done|simpl; lia|].
      intros x Hx. destruct (H4 x Hx) as [H|(i & Hi & H)]; [by left|].
      right. exists i. split; [by right|done].
    + destruct (IH (dict_set name cleaned acc)) as (H1 & H2 & H3 & H4).
      { by apply dict_set_NoDup. }
      { by apply dict_set_Forall. }
      repeat split; [done|done|..].
      { pose proof (dict_set_length name cleaned acc). simpl. lia. }
      intros x Hx. destruct (H4 x Hx) as [H|(i & Hi & H)].
      * apply dict_set_keys_in in H as [->|H]; [|by left].
        right. exists info. split; [by left|done].
      * right. exists i. split; [by right|done].
Qed.

Lemma cleaned_players_wellformed (players_data : json) :
  NoDup (map fst (clean_players_data players_data))
  ∧ Forall (λ item, cleaned_player (snd item)) (clean_players_data players_data).
Proof.
  destruct players_data as [| | | | | |items];
    try (simpl; split; [apply NoDup_nil_2|constructor]).
  unfold clean_players_data.
  destruct (clean_players_fold items []) as (H1 & H2 & _);
    [apply NoDup_nil_2|constructor|done].
Qed.

(** X12. The player mapping [clean_players_data] returns: its keys are
    distinct, every entry has exactly the five attributes, each in the
    form its cleaner gives it and with a numeric bankroll, there are no
    more entries than the input has, and every name kept belongs to an
    input entry that is a dict whose bankroll is set, is not "N/A" and
    is cleaned to a number. *)
Theorem clean_players_data_invariant (players_data : json) :
  let cleaned := clean_players_data players_data in
  NoDup (map fst cleaned)
  ∧ Forall (λ item, cleaned_player (snd item)) cleaned
  ∧ (∀ items, players_data = JDict items → (length cleaned ≤ length items)%nat)
  ∧ (∀ name, name ∈ map fst cleaned →
       ∃ items info,
         players_data = JDict items ∧ (name, JDict info) ∈ items
         ∧ eq_str (dict_get info (py "bankroll") (JStr (py "N/A"))) (py "N/A") = false
         ∧ truthy (dict_get info (py "bankroll") (JStr (py "N/A"))) = true
         ∧ clean_bankroll_value (dict_get info (py "bankroll") (JStr (py "N/A")))
           ≠ py "N/A").
Proof.
  destruct players_data as [| | | | | |items]; cbn zeta;
    try (simpl; repeat split; [apply NoDup_nil_2|constructor|discriminate|];
         intros name H; by apply elem_of_nil in H).
  unfold clean_players_data.
  destruct (clean_players_fold items []) as (H1 & H2 & H3 & H4);
    [apply NoDup_nil_2|constructor|].
  repeat split; [done|done|..].
  - intros ? [= <-]. simpl in H3. lia.
  - intros name Hn. destruct (H4 name Hn) as [H|(info & H)].
    + by apply elem_of_nil in H.
    + by exists items, info.
Qed.

(** ** Cleaning a cleaned state *)

Lemma validate_cleaned (pot : spec_float) (board hero_cards : list pystr)
    (players : list (pystr * json)) :
  validate_game_state
    (JDict [(py "pot", JFloat pot); (py "board", JList (map JStr board));
            (py "hero_cards", JList (map JStr hero_cards));
            (py "players", JDict players)])
  = negb (float_ltb pot float_zero) && negb (5 <? length board)%nat
    && negb (2 <? length hero_cards)%nat.
Proof.
  unfold validate_game_state.
  change (forallb _ required_fields) with true. cbn [negb].
  change (dict_get _ (py "pot") JNull) with (JFloat pot).
  change (dict_get _ (py "board") JNull) with (JList (map JStr board)).
  change (dict_get _ (py "hero_cards") JNull) with (JList (map JStr hero_cards)).
  change (dict_get _ (py "players") JNull) with (JDict players).
  cbn [is_number is_list is_dict negb orb below_zero list_longer_than].
  rewrite !length_map.
  destruct (float_ltb pot float_zero), (5 <? length board)%nat,
    (2 <? length hero_cards)%nat; reflexivity.
Qed.

Lemma clean_decoded_unfold (d : list (pystr * json)) :
  clean_decoded (JDict d)
  = bind (clean_pot_value (dict_get d (py "pot") JNull)) (λ pot,
      let board := clean_card_list (dict_get d (py "board") (JList [])) in
      let hero_cards := clean_card_list (dict_get d (py "hero_cards") (JList [])) in
      let players := clean_players_data (dict_get d (py "players") (JDict [])) in
      if float_ltb pot float_zero || (5 <? length board)%nat
         || (2 <? length hero_cards)%nat
      then Returns None
      else Returns (Some (JDict [(py "pot", JFloat pot);
                                 (py "board", JList (map JStr board));
                                 (py "hero_cards", JList (map JStr hero_cards));
                                 (py "players", JDict players)]))).
Proof.
  unfold clean_decoded. destruct (clean_pot_value _) as [e|pot]; [done|].
  cbn [bind]. cbv zeta. rewrite validate_cleaned.
  destruct (float_ltb pot float_zero), (5 <? length _)%nat, (2 <? length _)%nat;
    reflexivity.
Qed.

Lemma clean_pot_value_float (pot : spec_float) : clean_pot_value (JFloat pot) = Returns pot.
Proof. reflexivity. Qed.

Lemma fold_dict_set_nodup {V} (step : list (pystr * V) → pystr * V → list (pystr * V))
    (items acc : list (pystr * V)) :
  (∀ a item, item ∈ items → step a item = dict_set (fst item) (snd item) a) →
  NoDup (map fst items) → (∀ k, k ∈ map fst items → k ∉ map fst acc) →
  fold_left step items acc = acc ++ items.
Proof.
  revert acc. induction items as [|[k v] items IH]; intros acc Hstep Hnd Hdis.
  - simpl. by rewrite app_nil_r.
  - simpl in Hnd. apply NoDup_cons in Hnd as [Hk Hnd]. cbn [fold_left].
    rewrite Hstep by by left. cbn [fst snd].
    rewrite dict_set_fresh by (apply Hdis; by left).
    rewrite IH; [by rewrite <- app_assoc| |done|].
    + intros a item Hi. apply Hstep. by right.
    + intros k' Hk'. rewrite map_app. cbn [map fst]. intros Hin.
      apply elem_of_app in Hin as [Hin|Hin].
      * revert Hin. apply Hdis. by right.
      * apply list_elem_of_singleton in Hin. by subst k'.
Qed.

Lemma clean_player_step_cleaned (acc : list (pystr * json)) (name : pystr) (info : json) :
  cleaned_player info →
  (∀ fields vpip, info = JDict fields → dict_get fields (py "vpip") JNull = JStr vpip →
     clean_vpip_value (JStr vpip) = vpip) →
  clean_player_step acc (name, info) = dict_set name info acc.
Proof.
  intros (bankroll & vpip & position & action & bet & -> & Hb & _ & Hp & Ha & Hbet) Hv.
  specialize (Hv _ vpip eq_refl eq_refl).
  destruct (numeric_text_facts bankroll Hb) as (_ & _ & _ & _ & Hne).
  pose proof (numeric_not_na bankroll Hb) as Hna.
  unfold clean_player_step.
  change (dict_get _ (py "bankroll") _) with (JStr bankroll).
  change (dict_get _ (py "vpip") _) with (JStr vpip).
  change (dict_get _ (py "position") _) with (JStr position).
  change (dict_get _ (py "action") _) with (JStr action).
  change (dict_get _ (py "bet") _) with (JStr bet).
  cbn [eq_str truthy]. rewrite (str_eqb_ne _ _ Hna).
  assert (Ht : nonempty bankroll = true) by (by destruct bankroll).
  rewrite Ht. cbn [negb orb].
  rewrite (clean_bankroll_value_keeps bankroll Hb), (str_eqb_ne _ _ Hna), Hv.
  pose proof position_outputs_fixed as Hpf. rewrite Forall_forall in Hpf.
  pose proof action_outputs_fixed as Haf. rewrite Forall_forall in Haf.
  rewrite (Hpf position Hp), (Haf action Ha).
  assert (Hbf : clean_bet_value (JStr bet) = bet).
  { destruct Hbet as [->|Hbet]; [by vm_compute|by apply clean_bet_value_keeps]. }
  by rewrite Hbf.
Qed.

Lemma state_vpips_players (pot board hero_cards : json) (players : list (pystr * json))
    (name : pystr) (fields : list (pystr * json)) (vpip : pystr) :
  (name, JDict fields) ∈ players → dict_get fields (py "vpip") JNull = JStr vpip →
  vpip ∈ state_vpips (JDict [(py "pot", pot); (py "board", board);
                              (py "hero_cards", hero_cards); (py "players", JDict players)]).
Proof.
  intros Hin Hv. unfold state_vpips.
  change (dict_get _ (py "players") (JDict [])) with (JDict players).
  apply list_elem_of_omap. exists (name, JDict fields). split; [done|].
  cbn [snd]. by rewrite Hv.
Qed.

(** X13. What keeps the cleaner from being idempotent is the VPIP text
    alone: a state the cleaner returned, all of whose VPIP texts are left
    unchanged by [clean_vpip_value], is returned as it is when it is
    cleaned again. *)
Theorem clean_decoded_stable (data state : json) :
  clean_decoded data = Returns (Some state) →
  Forall (λ vpip, clean_vpip_value (JStr vpip) = vpip) (state_vpips state) →
  clean_decoded state = Returns (Some state).
Proof.
  destruct data as [| | | | | |d]; try discriminate.
  rewrite clean_decoded_unfold.
  destruct (clean_pot_value _) as [e|pot]; [discriminate|]. cbn [bind]. cbv zeta.
  set (board := clean_card_list (dict_get d (py "board") (JList []))).
  set (hero := clean_card_list (dict_get d (py "hero_cards") (JList []))).
  set (players := clean_players_data (dict_get d (py "players") (JDict []))).
  destruct (_ || _ || _) eqn:Hv; [discriminate|]. intros [= <-] Hvp.
  rewrite clean_decoded_unfold.
  change (dict_get _ (py "pot") JNull) with (JFloat pot).
  change (dict_get _ (py "board") (JList [])) with (JList (map JStr board)).
  change (dict_get _ (py "hero_cards") (JList [])) with (JList (map JStr hero)).
  change (dict_get _ (py "players") (JDict [])) with (JDict players).
  rewrite clean_pot_value_float. cbn [bind]. cbv zeta.
  rewrite !clean_card_list_fixed by apply clean_card_list_canonical.
  assert (Hp : clean_players_data (JDict players) = players).
  { destruct (cleaned_players_wellformed (dict_get d (py "players") (JDict [])))
      as (Hnd & Hall).
    fold players in Hnd, Hall. unfold clean_players_data at 1.
    rewrite fold_dict_set_nodup; [done| |done|intros k _; apply not_elem_of_nil].
    intros a [name info] Hin. cbn [fst snd].
    rewrite Forall_forall in Hall. apply clean_player_step_cleaned.
    - apply (Hall _ Hin).
    - intros fields vpip -> Hf. rewrite Forall_forall in Hvp. apply Hvp.
      by apply (state_vpips_players _ _ _ _ name fields). }
  rewrite Hp, Hv. reflexivity.
Qed.

Lemma clean_decoded_stable_witness :
  clean_decoded test_cleaned = Returns (Some test_cleaned).
Proof.
  apply (clean_decoded_stable test_json test_cleaned); [vm_compute; reflexivity|].
  change (state_vpips test_cleaned) with [py "25%"; py "45%"].
  apply Forall_cons. split; [vm_compute; reflexivity|].
  apply Forall_cons. split; [vm_compute; reflexivity|]. apply Forall_nil_2.
Defined.

(** ** The verdict of the validator *)

(** X14. On a state the cleaner has built, the validator comes down to
    three tests: the pot is below zero, the board has more than five
    cards, the hero has more than two.  The tests on the keys and on the
    types never fail.  A decoded document that is not a dict is rejected
    before any cleaning.  Each of the three tests does reject: a pot of
    -1, a board of six cards, a hand of three. *)
Theorem clean_decoded_verdict :
  (∀ d : list (pystr * json),
     let board := clean_card_list (dict_get d (py "board") (JList [])) in
     let hero_cards := clean_card_list (dict_get d (py "hero_cards") (JList [])) in
     let players := clean_players_data (dict_get d (py "players") (JDict [])) in
     match clean_pot_value (dict_get d (py "pot") JNull) with
     | Raises e => clean_decoded (JDict d) = Raises e
     | Returns pot =>
         clean_decoded (JDict d)
         = if float_ltb pot float_zero || (5 <? length board)%nat
              || (2 <? length hero_cards)%nat
           then Returns None
           else Returns (Some (JDict [(py "pot", JFloat pot);
                                      (py "board", JList (map JStr board));
                                      (py "hero_cards", JList (map JStr hero_cards));
                                      (py "players", JDict players)]))
     end)
  ∧ (∀ data, is_dict data = false → clean_decoded data = Returns None)
  ∧ clean_decoded (JDict [(py "pot", JStr (py "-1"))]) = Returns None
  ∧ clean_decoded (JDict [(py "board", JList (map JStr (flop ++ flop)))]) = Returns None
  ∧ clean_decoded (JDict [(py "hero_cards", JList (map JStr flop))]) = Returns None.
Proof.
  split; [|split; [|by vm_compute]].
  - intros d. cbv zeta. rewrite clean_decoded_unfold.
    by destruct (clean_pot_value _).
  - by intros [| | | | | |d].
Qed.

Lemma clean_pot_value_raises (pot_value : json) (e : exn) :
  clean_pot_value pot_value = Raises e ↔ ∃ z, pot_value = JInt z ∧ float_of_int z = Raises e.
Proof.
  split.
  - unfold clean_pot_value.
    destruct pot_value as [|b|z|x|s|l|d]; cbn [is_none eq_str orb py_float];
      try discriminate.
    + intros H. exists z. split; [done|]. by destruct (float_of_int z).
    + destruct (str_eqb s (py "N/A")); [discriminate|].
      destruct (_ || _); [discriminate|].
      destruct (float_of_str (replace_char _ _ _)); [discriminate|].
      destruct (findall_numbers_0 _) as [n|];
        [destruct (float_of_str n); [discriminate|]|];
        by destruct (float_of_str s).
  - intros (z & -> & H). unfold clean_pot_value. cbn [is_none eq_str orb py_float].
    by rewrite H.
Qed.


Lemma dict_get_missing {V} (d : list (pystr * V)) (key : pystr) (default : V) :
  dict_lookup key d = None → dict_get d key default = default.
Proof. unfold dict_get. by intros ->. Qed.

(** X16. A document that has none of the four fields, the empty document
    among them, is not rejected: it is cleaned to the state of an empty
    table, with a pot of 0.0, no cards and no players.  The text given to
    [clean_game_state] is rejected without being decoded when it is empty
    or blank, and when it does not decode. *)
Theorem clean_decoded_without_fields (d : list (pystr * json)) :
  Forall (λ field, dict_lookup field d = None) required_fields →
  clean_decoded (JDict d) = Returns (Some empty_state)
  ∧ (∀ json_loads json_state,
       json_loads json_state = Some (JDict d) → strip json_state ≠ [] →
       clean_game_state json_loads json_state = Returns (Some empty_state))
  ∧ (∀ json_loads json_state,
       strip json_state = [] ∨ json_loads json_state = None →
       clean_game_state json_loads json_state = Returns None).
Proof.
  intros H. apply Forall_cons in H as [Hpot H]. apply Forall_cons in H as [Hboard H].
  apply Forall_cons in H as [Hhero H]. apply Forall_cons in H as [Hplayers _].
  assert (Hd : clean_decoded (JDict d) = Returns (Some empty_state)).
  { rewrite clean_decoded_unfold.
    rewrite (dict_get_missing d _ _ Hpot), (dict_get_missing d _ _ Hboard),
      (dict_get_missing d _ _ Hhero), (dict_get_missing d _ _ Hplayers).
    reflexivity. }
  split; [done|]. split.
  - intros json_loads json_state Hl Hs. unfold clean_game_state.
    assert (Hn : nonempty json_state = true) by (by destruct json_state).
    rewrite Hn, (str_eqb_ne _ _ Hs), Hl. done.
  - intros json_loads json_state [Hs|Hl]; unfold clean_game_state.
    + assert (Hb : str_eqb (strip json_state) [] = true) by (by apply str_eqb_eq).
      rewrite Hb. by destruct (negb _).
    + rewrite Hl. by destruct (_ || _).
Qed.

Lemma clean_decoded_without_fields_witness :
  clean_decoded (JDict []) = Returns (Some empty_state).
Proof.
  refine (proj1 (clean_decoded_without_fields [] _)).
  repeat constructor.
Defined.

(** ** The summary of a cleaned state *)

Lemma join_items_strings (cards : list pystr) :
  join_items (JList (map JStr cards)) = Some cards.
Proof.
  unfold join_items.
  assert (Hf : forallb (λ x, match x with JStr _ => true | _ => false end)
                       (map JStr cards) = true).
  { induction cards as [|c cards IH]; [done|]. simpl. by rewrite IH. }
  rewrite Hf. f_equal. clear Hf. induction cards as [|c cards IH]; [done|].
  simpl. f_equal. exact IH.
Qed.

Lemma summary_cards_strings (label : pystr) (cards : list pystr) :
  summary_cards label (JList (map JStr cards))
  = Some (label ++ py " (" ++ decimal_of_N (N.of_nat (length cards)) ++ py "): "
          ++ match cards with [] => py "Empty" | _ => join (py ", ") cards end).
Proof.
  unfold summary_cards. cbn [py_len]. rewrite length_map, join_items_strings.
  by destruct cards.
Qed.

Lemma count_active_cleaned (players : list (pystr * json)) :
  Forall (λ item, cleaned_player (snd item)) players →
  count_active (map snd players) = Some (length players).
Proof.
  induction 1 as [|[name info] players Hc _ IH]; [done|].
  destruct Hc as (bankroll & vpip & position & action & bet & Hi & Hb & _).
  cbn [snd] in Hi. subst info. cbn [map snd count_active]. rewrite IH.
  change (dict_get _ (py "bankroll") JNull) with (JStr bankroll).
  cbn [eq_str]. by rewrite (str_eqb_ne _ _ (numeric_not_na bankroll Hb)).
Qed.

(** X17. The summary of a state the cleaner returned is never an error
    and counts every player as active: the pot as [str] prints the float,
    the board and the hand with their lengths and their cards joined by a
    comma (or Empty), and the number of players kept. *)
Theorem summary_of_cleaned_state (data state : json) :
  clean_decoded data = Returns (Some state) →
  ∃ pot board hero_cards players,
    state = JDict [(py "pot", JFloat pot); (py "board", JList (map JStr board));
                   (py "hero_cards", JList (map JStr hero_cards));
                   (py "players", JDict players)]
    ∧ get_game_state_summary state
      = Some (py "Pot: " ++ float_repr pot
              ++ py " | Board (" ++ decimal_of_N (N.of_nat (length board)) ++ py "): "
              ++ match board with [] => py "Empty" | _ => join (py ", ") board end
              ++ py " | Hero (" ++ decimal_of_N (N.of_nat (length hero_cards)) ++ py "): "
              ++ match hero_cards with [] => py "Empty" | _ => join (py ", ") hero_cards end
              ++ py " | Players: " ++ decimal_of_N (N.of_nat (length players))
              ++ py " active").
Proof.
  destruct data as [| | | | | |d]; try discriminate.
  rewrite clean_decoded_unfold.
  destruct (clean_pot_value _) as [e|pot]; [discriminate|]. cbn [bind]. cbv zeta.
  set (board := clean_card_list (dict_get d (py "board") (JList []))).
  set (hero := clean_card_list (dict_get d (py "hero_cards") (JList []))).
  destruct (cleaned_players_wellformed (dict_get d (py "players") (JDict [])))
    as [_ Hall].
  set (players := clean_players_data (dict_get d (py "players") (JDict []))) in *.
  destruct (_ || _ || _); [discriminate|]. intros [= <-].
  exists pot, board, hero, players. split; [reflexivity|].
  unfold get_game_state_summary. cbn [truthy negb].
  change (dict_get _ (py "pot") (JStr (py "N/A"))) with (JFloat pot).
  change (dict_get _ (py "board") (JList [])) with (JList (map JStr board)).
  change (dict_get _ (py "hero_cards") (JList [])) with (JList (map JStr hero)).
  change (dict_get _ (py "players") (JDict [])) with (JDict players).
  rewrite !summary_cards_strings, (count_active_cleaned players Hall).
  cbn [py_str py_repr join]. f_equal. rewrite <- !app_assoc. reflexivity.
Qed.

Lemma summary_of_cleaned_state_witness :
  ∃ pot board hero_cards players,
    empty_state = JDict [(py "pot", JFloat pot); (py "board", JList (map JStr board));
                   (py "hero_cards", JList (map JStr hero_cards));
                   (py "players", JDict players)]
    ∧ get_game_state_summary empty_state
      = Some (py "Pot: " ++ float_repr pot
              ++ py " | Board (" ++ decimal_of_N (N.of_nat (length board)) ++ py "): "
              ++ match board with [] => py "Empty" | _ => join (py ", ") board end
              ++ py " | Hero (" ++ decimal_of_N (N.of_nat (length hero_cards)) ++ py "): "
              ++ match hero_cards with [] => py "Empty" | _ => join (py ", ") hero_cards end
              ++ py " | Players: " ++ decimal_of_N (N.of_nat (length players))
              ++ py " active").
Proof.
  apply (summary_of_cleaned_state (JDict []) empty_state). vm_compute. reflexivity.
Defined.

(** X18. The demonstration at the end of ml_pipeline.py: the document is
    cleaned to a state that is true as a condition, so the script prints
    its success line, and the summary it prints is the one below. *)
Theorem demonstration_succeeds :
  clean_decoded test_json = Returns (Some test_cleaned)
  ∧ truthy test_cleaned = true
  ∧ get_game_state_summary test_cleaned
    = Some (py "Pot: 25.5 | Board (3): A" ++ [spade] ++ py ", K" ++ [club]
            ++ py ", Q" ++ [diamond] ++ py " | Hero (2): 10" ++ [heart]
            ++ py ", J" ++ [spade] ++ py " | Players: 2 active").
Proof. by vm_compute. Qed.

(** ** ocr.py: the readers of the cards *)

Lemma min_by_in (best : pystr) (best_v : spec_float) (rest : list (pystr * spec_float)) :
  OCR.min_by best best_v rest ∈ best :: map fst rest.
Proof.
  revert best best_v. induction rest as [|[k v] rest IH]; intros best best_v; simpl.
  - by left.
  - destruct (float_ltb v best_v).
    + right. apply IH.
    + specialize (IH best best_v). apply elem_of_cons in IH as [->|IH]; [by left|].
      right. by right.
Qed.

Lemma suit_symbol (r : OCR.card_region) : ∃ suit, suit ∈ suits ∧ OCR._suit r = [suit].
Proof.
  pose proof (min_by_in [club] (OCR.suit_dist r [club])
    (map (λ s, (s, OCR.suit_dist r s)) [[heart]; [diamond]; [spade]])) as H.
  fold (OCR._suit r) in H. cbn [map fst] in H.
  repeat (apply elem_of_cons in H as [H|H];
          [eexists; split; [|exact H]; apply (bool_decide_unpack _); vm_compute; exact I|]).
  by apply elem_of_nil in H.
Qed.

Lemma valid_cards_ranks (rank : pystr) : rank ∈ OCR.valid_cards → rank ∈ ranks.
Proof.
  intros H. unfold OCR.valid_cards in H.
  repeat (apply elem_of_cons in H as [->|H];
          [apply (bool_decide_unpack _); vm_compute; exact I|]).
  by apply elem_of_nil in H.
Qed.

Lemma str_eqb_sym (s t : pystr) : str_eqb s t = str_eqb t s.
Proof. unfold str_eqb. apply bool_decide_ext. split; congruence. Qed.

Lemma smart_card_correction_cases (text_raw : pystr) :
  OCR._smart_card_correction text_raw
  = (let text := upper (strip text_raw) in
     if str_in text OCR.valid_cards then Some text
     else if str_in text [py "0"; py "O"] then Some (py "Q")
     else if str_in text [py "TO"; py "1O"; py "IO"; py "LO"] then Some (py "10")
     else None).
Proof.
  unfold OCR._smart_card_correction. cbv zeta.
  destruct text_raw as [|c0 raw]; [reflexivity|]. cbn [nonempty negb].
  set (text := upper (strip (c0 :: raw))).
  destruct (str_in text OCR.valid_cards) eqn:Hv; [reflexivity|].
  assert (Hnv : text ∉ OCR.valid_cards).
  { intros H%str_in_elem. congruence. }
  unfold OCR.corrections, str_in. cbn [dict_lookup existsb].
  rewrite (str_eqb_sym (py "0") text), (str_eqb_sym (py "O") text).
  destruct (str_eqb text (py "0")); [reflexivity|].
  destruct (str_eqb text (py "O")); [reflexivity|]. cbn [orb].
  assert (H10 : str_eqb text (py "10") = false).
  { apply str_eqb_ne. intros H. apply Hnv. rewrite H.
    apply (bool_decide_unpack _). vm_compute. exact I. }
  rewrite H10. cbn [orb].
  destruct (_ || _); [reflexivity|].
  destruct text as [|c [|? ?]] eqn:Ht; try reflexivity.
  destruct (isdigit c && (2 <=? c - 48) && (c - 48 <=? 9)) eqn:Hd; [|reflexivity].
  exfalso. apply Hnv.
  apply andb_true_iff in Hd as [[Hd H2%N.leb_le]%andb_true_iff H9%N.leb_le].
  apply isdigit_cases in Hd.
  repeat (apply elem_of_cons in Hd as [->|Hd];
          [first [apply (bool_decide_unpack _); vm_compute; exact I | lia]|]).
  by apply elem_of_nil in Hd.
Qed.

Lemma correction_is_rank (text_raw rank : pystr) :
  OCR._smart_card_correction text_raw = Some rank → rank ∈ OCR.valid_cards.
Proof.
  rewrite smart_card_correction_cases. cbv zeta.
  destruct (str_in _ OCR.valid_cards) eqn:Hv.
  - intros [= <-]. by apply str_in_elem.
  - destruct (str_in _ [py "0"; py "O"]).
    + intros [= <-]. apply (bool_decide_unpack _). vm_compute. exact I.
    + destruct (str_in _ [py "TO"; py "1O"; py "IO"; py "LO"]); [|discriminate].
      intros [= <-]. apply (bool_decide_unpack _). vm_compute. exact I.
Qed.

Lemma card_read_canonical (r : OCR.card_region) (text_raw rank : pystr) :
  OCR._smart_card_correction text_raw = Some rank → canonical_card (rank ++ OCR._suit r).
Proof.
  intros H%correction_is_rank%valid_cards_ranks.
  destruct (suit_symbol r) as (suit & Hs & ->). by exists rank, suit.
Qed.

Lemma card_of_texts_canonical (r : OCR.card_region) (card_texts : list pystr) (c : pystr) :
  OCR.card_of_texts r card_texts = Some c → canonical_card c.
Proof.
  induction card_texts as [|raw_text rest IH]; [discriminate|]. simpl.
  destruct (OCR._smart_card_correction raw_text) as [rank|] eqn:Hr; [|exact IH].
  destruct (nonempty rank); [|exact IH].
  intros [= <-]. by apply (card_read_canonical r raw_text).
Qed.

Lemma board_step_canonical (cards : list pystr) (r : OCR.card_region) :
  Forall canonical_card cards →
  Forall canonical_card (OCR._board_step cards r)
  ∧ (length (OCR._board_step cards r) ≤ S (length cards))%nat.
Proof.
  intros H. unfold OCR._board_step.
  destruct (OCR.value_text r) as [|first rest]; [split; [done|lia]|].
  destruct (OCR._smart_card_correction first) as [rank|] eqn:Hr; [|split; [done|lia]].
  destruct (nonempty rank); [|split; [done|lia]].
  split.
  - apply Forall_app. split; [done|]. constructor; [|constructor].
    by apply (card_read_canonical r first).
  - rewrite length_app. simpl. lia.
Qed.

(** X19. What [_smart_card_correction] returns for a text of ASCII
    characters.  The text, stripped and in upper case, is returned when
    it is one of the thirteen ranks; 0 and O give Q; TO, 1O, IO and LO
    give 10; every other text gives [None].  The test for a single digit
    between 2 and 9 that ends the function changes nothing, those digits
    being ranks already; so a value returned is always one of the
    thirteen ranks. *)
Theorem smart_card_correction_ranks (text_raw : pystr) :
  ascii_text text_raw →
  OCR._smart_card_correction text_raw
  = (let text := upper (strip text_raw) in
     if str_in text OCR.valid_cards then Some text
     else if str_in text [py "0"; py "O"] then Some (py "Q")
     else if str_in text [py "TO"; py "1O"; py "IO"; py "LO"] then Some (py "10")
     else None)
  ∧ (∀ rank, OCR._smart_card_correction text_raw = Some rank →
       rank ∈ OCR.valid_cards ∧ rank ∈ ranks ∧ nonempty rank = true).
Proof.
  intros _. split; [apply smart_card_correction_cases|].
  intros rank H. pose proof (correction_is_rank _ _ H) as Hr.
  split; [done|]. split; [by apply valid_cards_ranks|].
  destruct rank; [|done]. exfalso. revert Hr.
  apply (bool_decide_unpack _). vm_compute. exact I.
Qed.

Lemma smart_card_correction_ranks_witness :
  OCR._smart_card_correction (py " lo ") = Some (py "10").
Proof.
  refine (eq_trans (proj1 (smart_card_correction_ranks (py " lo ") _)) _).
  - repeat constructor.
  - vm_compute. reflexivity.
Defined.

(** X20. The cards the OCR reads pass the cleaner as they are.  When the
    texts of the card regions are ASCII, [_hero_cards] returns at most two
    cards and [_board] at most five, each a rank followed by a suit
    symbol; [clean_card_list] returns both lists unchanged and the two
    length tests of the validator hold. *)
Theorem cards_read_are_canonical
    (hero_1 hero_2 card_1 card_2 card_3 card_4 card_5 : OCR.card_region) :
  Forall (λ r, Forall ascii_text (OCR.value_text r))
         [hero_1; hero_2; card_1; card_2; card_3; card_4; card_5] →
  let hero := OCR._hero_cards hero_1 hero_2 in
  let board := OCR._board card_1 card_2 card_3 card_4 card_5 in
  (length hero ≤ 2)%nat ∧ (length board ≤ 5)%nat
  ∧ Forall canonical_card hero ∧ Forall canonical_card board
  ∧ clean_card_list (JList (map JStr hero)) = hero
  ∧ clean_card_list (JList (map JStr board)) = board
  ∧ list_longer_than 2 (JList (map JStr hero)) = false
  ∧ list_longer_than 5 (JList (map JStr board)) = false.
Proof.
  intros _ hero board.
  assert (Hh : Forall canonical_card hero ∧ (length hero ≤ 2)%nat).
  { unfold hero, OCR._hero_cards. cbv zeta.
    destruct (OCR.card_of_texts hero_1 _) as [c1|] eqn:H1;
      destruct (OCR.card_of_texts hero_2 _) as [c2|] eqn:H2; cbn [flat_map app];
      try (apply card_of_texts_canonical in H1);
      try (apply card_of_texts_canonical in H2);
      repeat match goal with
             | |- context [nonempty ?c] => destruct (nonempty c)
             end; cbn [app length]; split; try lia; repeat constructor; done. }
  assert (Hb : Forall canonical_card board ∧ (length board ≤ 5)%nat).
  { unfold board, OCR._board. cbn [fold_left].
    destruct (board_step_canonical [] card_1) as [A1 B1]; [constructor|].
    destruct (board_step_canonical _ card_2 A1) as [A2 B2].
    destruct (board_step_canonical _ card_3 A2) as [A3 B3].
    destruct (board_step_canonical _ card_4 A3) as [A4 B4].
    destruct (board_step_canonical _ card_5 A4) as [A5 B5].
    split; [done|]. simpl in B1. lia. }
  destruct Hh as [Hh1 Hh2], Hb as [Hb1 Hb2].
  repeat split; try done.
  - by apply clean_card_list_fixed.
  - by apply clean_card_list_fixed.
  - cbn [list_longer_than]. rewrite length_map. apply Nat.ltb_ge. lia.
  - cbn [list_longer_than]. rewrite length_map. apply Nat.ltb_ge. lia.
Qed.

Lemma cards_read_are_canonical_witness :
  OCR._hero_cards sample_region sample_region = [py "A" ++ [spade]; py "A" ++ [spade]]
  ∧ clean_card_list
      (JList (map JStr (OCR._hero_cards sample_region sample_region)))
    = OCR._hero_cards sample_region sample_region.
Proof.
  split; [vm_compute; reflexivity|].
  refine (proj1 (proj2 (proj2 (proj2 (proj2
    (cards_read_are_canonical sample_region sample_region sample_region
       sample_region sample_region sample_region sample_region _)))))).
  repeat constructor.
Defined.

(** ** ocr.py: the reader of the pot *)

Lemma rev_run_part (cur s : pystr) :
  nonempty cur = true → Forall (λ c, isspace c = false) cur →
  rev cur ≠ [] ∧ Forall (λ c, isspace c = false ∧ (c ∈ cur ∨ c ∈ s)) (rev cur).
Proof.
  intros Hne Hcur. split.
  - intros H. apply (f_equal (@rev N)) in H. rewrite rev_involutive in H.
    subst cur. discriminate.
  - apply Forall_forall. intros x Hx%elem_of_rev. rewrite Forall_forall in Hcur.
    split; [by apply Hcur|by left].
Qed.

Lemma split_run_parts (cur s : pystr) :
  Forall (λ c, isspace c = false) cur →
  Forall (λ part, part ≠ [] ∧ Forall (λ c, isspace c = false ∧ (c ∈ cur ∨ c ∈ s)) part)
         (OCR.split_run cur s).
Proof.
  revert cur. induction s as [|c s IH]; intros cur Hcur; cbn [OCR.split_run].
  - destruct (nonempty cur) eqn:Hne; [|constructor].
    constructor; [|constructor]. by apply rev_run_part.
  - destruct (isspace c) eqn:Hc.
    + assert (Hrest : Forall (λ part, part ≠ [] ∧
                Forall (λ x, isspace x = false ∧ (x ∈ cur ∨ x ∈ c :: s)) part)
                (OCR.split_run [] s)).
      { eapply Forall_impl; [apply IH; constructor|].
        intros part [Hne Hp]. split; [done|].
        eapply Forall_impl; [exact Hp|]. intros x [Hx [H|H]]; [by apply elem_of_nil in H|].
        split; [done|]. right. by right. }
      destruct (nonempty cur) eqn:Hne; [|done].
      constructor; [|done]. by apply rev_run_part.
    + eapply Forall_impl; [apply IH; by constructor|].
      intros part [Hne Hp]. split; [done|].
      eapply Forall_impl; [exact Hp|]. intros x [Hx [H|H]]; split; try done.
      * apply elem_of_cons in H as [->|H]; [right; by left|by left].
      * right. by right.
Qed.

Lemma split_parts (s part : pystr) :
  part ∈ OCR.split s →
  part ≠ [] ∧ Forall (λ c, isspace c = false ∧ c ∈ s) part.
Proof.
  intros H. pose proof (split_run_parts [] s (Forall_nil_2 _)) as Hall.
  rewrite Forall_forall in Hall. destruct (Hall part H) as [Hne Hp].
  split; [done|]. eapply Forall_impl; [exact Hp|].
  intros x [Hx [Hin|Hin]]; [by apply elem_of_nil in Hin|done].
Qed.

(** *** A text [float] accepts has no dollar sign *)

Lemma digitpart_tail_consumed (n : nat) (s ds r : pystr) :
  (length s ≤ n)%nat → digitpart_tail s = (ds, r) →
  ∃ pre, s = pre ++ r ∧ 36 ∉ pre.
Proof.
  revert s ds r. induction n as [|n IH]; intros s ds r Hn.
  - destruct s; [|simpl in Hn; lia]. intros [= <- <-]. exists []. split; [done|].
    apply not_elem_of_nil.
  - destruct s as [|c s]; [intros [= <- <-]; exists []; split; [done|apply not_elem_of_nil]|].
    simpl in Hn. cbn [digitpart_tail].
    destruct (isdigit c) eqn:Hc.
    + destruct (digitpart_tail s) as [ds' r'] eqn:Ht. intros [= <- <-].
      destruct (IH s ds' r' ltac:(lia) Ht) as (pre & -> & Hpre).
      exists (c :: pre). split; [done|]. apply not_elem_of_cons. split; [|done].
      intros <-. discriminate.
    + destruct (c =? 95) eqn:H95.
      * apply N.eqb_eq in H95 as ->.
        destruct s as [|d s']; [intros [= <- <-]; exists []; split; [done|apply not_elem_of_nil]|].
        destruct (isdigit d) eqn:Hd.
        -- destruct (digitpart_tail s') as [ds' r'] eqn:Ht. intros [= <- <-].
           simpl in Hn.
           destruct (IH s' ds' r' ltac:(lia) Ht) as (pre & -> & Hpre).
           exists (95 :: d :: pre). split; [done|].
           apply not_elem_of_cons. split; [done|].
           apply not_elem_of_cons. split; [|done]. intros <-. discriminate.
        -- intros [= <- <-]. exists []. split; [done|apply not_elem_of_nil].
      * intros [= <- <-]. exists []. split; [done|apply not_elem_of_nil].
Qed.

Lemma digitpart_consumed (s ds r : pystr) :
  digitpart s = Some (ds, r) → ∃ pre, s = pre ++ r ∧ 36 ∉ pre.
Proof.
  destruct s as [|c s]; [discriminate|]. cbn [digitpart].
  destruct (isdigit c) eqn:Hc; [|discriminate].
  destruct (digitpart_tail s) as [ds' r'] eqn:Ht. intros [= <- <-].
  destruct (digitpart_tail_consumed (length s) s ds' r' (le_n _) Ht) as (pre & -> & Hpre).
  exists (c :: pre). split; [done|]. apply not_elem_of_cons. split; [|done].
  intros <-. discriminate.
Qed.

Lemma parse_sign_consumed (s r : pystr) (neg : bool) :
  parse_sign s = (neg, r) → 36 ∉ r → 36 ∉ s.
Proof.
  unfold parse_sign. intros H Hr.
  destruct s as [|c s]; [by injection H as _ <-|].
  destruct (decide (c = 43)) as [->|H43]; [injection H as _ <-|].
  { apply not_elem_of_cons. by split. }
  destruct (decide (c = 45)) as [->|H45]; [injection H as _ <-|].
  { apply not_elem_of_cons. by split. }
  assert (Hs : r = c :: s).
  { destruct c as [|p]; [by injection H|].
    do 6 (destruct p as [p|p|]; try (by injection H)); by destruct H43 || by destruct H45. }
  by rewrite <- Hs.
Qed.

Lemma parse_exponent_consumed (s : pystr) (e : Z) :
  parse_exponent s = Some e → 36 ∉ s.
Proof.
  destruct s as [|c r]; [intros _; apply not_elem_of_nil|]. cbn [parse_exponent].
  destruct ((c =? 101) || (c =? 69)) eqn:Hc; [|discriminate].
  destruct (parse_sign r) as [neg r'] eqn:Hs.
  destruct (digitpart r') as [[ds [|? ?]]|] eqn:Hd; try discriminate. intros _.
  apply digitpart_consumed in Hd as (pre & -> & Hpre). rewrite app_nil_r in Hs.
  apply not_elem_of_cons. split.
  - intros <-. discriminate.
  - by apply (parse_sign_consumed r pre neg).
Qed.

Lemma parse_number_consumed (s : pystr) (m : N) (e : Z) :
  parse_number s = Some (m, e) → 36 ∉ s.
Proof.
  unfold parse_number.
  destruct (digitpart s) as [[ip r]|] eqn:Hi.
  - apply digitpart_consumed in Hi as (pre & -> & Hpre). intros H.
    assert (Hr : 36 ∉ r).
    { destruct r as [|c r']; [apply not_elem_of_nil|].
      destruct (decide (c = 46)) as [->|Hc].
      - apply not_elem_of_cons. split; [done|].
        destruct (digitpart r') as [[fp r'']|] eqn:Hf.
        + apply digitpart_consumed in Hf as (pre' & -> & Hpre').
          destruct (parse_exponent r'') as [e'|] eqn:He; [|discriminate].
          apply parse_exponent_consumed in He.
          intros [?|?]%elem_of_app; done.
        + destruct (parse_exponent r') as [e'|] eqn:He; [|discriminate].
          by apply parse_exponent_consumed in He.
      - assert (He : is_Some (parse_exponent (c :: r'))).
        { destruct c as [|p]; [by destruct (parse_exponent _)|].
          do 6 (destruct p as [p|p|]; try (by destruct (parse_exponent _)));
            by destruct Hc. }
        destruct He as [e' He]. by apply parse_exponent_consumed in He. }
    intros [?|?]%elem_of_app; done.
  - destruct s as [|c r']; [discriminate|].
    destruct (decide (c = 46)) as [->|Hc].
    + destruct (digitpart r') as [[fp r'']|] eqn:Hf; [|discriminate].
      apply digitpart_consumed in Hf as (pre' & -> & Hpre').
      destruct (parse_exponent r'') as [e'|] eqn:He; [|discriminate].
      apply parse_exponent_consumed in He. intros _.
      apply not_elem_of_cons. split; [done|]. intros [?|?]%elem_of_app; done.
    + intros H. exfalso. destruct c as [|p]; [discriminate|].
      do 6 (destruct p as [p|p|]; try discriminate). by destruct Hc.
Qed.

Lemma float_text_no_dollar (s : pystr) (x : spec_float) :
  Forall (λ c, isspace c = false) s → float_of_str s = Some x → 36 ∉ s.
Proof.
  intros Hs. unfold float_of_str.
  assert (Hfs : ∀ c, c ∈ s → float_space c = false).
  { intros c Hc. rewrite Forall_forall in Hs. unfold float_space. by rewrite (Hs c Hc). }
  rewrite strip_float_id.
  2:{ intros c Hc. apply Hfs. destruct s; [done|]. injection Hc as ->. by left. }
  2:{ intros c Hc. apply Hfs. apply last_Some in Hc as [l ->].
      apply elem_of_app. right. by left. }
  destruct (parse_sign s) as [neg r] eqn:Hp.
  assert (Hl : ∀ word, 36 ∉ word → lower r = word → 36 ∉ r).
  { intros word Hw <- Hr. apply Hw. unfold lower.
    change 36 with (lower_char 36). apply list_elem_of_fmap. by exists 36. }
  intros H. apply (parse_sign_consumed s r neg Hp).
  destruct (str_eqb (lower r) (py "inf")) eqn:H1.
  { apply str_eqb_eq in H1. apply (Hl (py "inf")); [|done].
    apply (bool_decide_unpack _). vm_compute. exact I. }
  destruct (str_eqb (lower r) (py "infinity")) eqn:H2.
  { apply str_eqb_eq in H2. apply (Hl (py "infinity")); [|done].
    apply (bool_decide_unpack _). vm_compute. exact I. }
  cbn [orb] in H.
  destruct (str_eqb (lower r) (py "nan")) eqn:H3.
  { apply str_eqb_eq in H3. apply (Hl (py "nan")); [|done].
    apply (bool_decide_unpack _). vm_compute. exact I. }
  destruct (parse_number r) as [[m e]|] eqn:Hn; [|discriminate].
  by apply parse_number_consumed in Hn.
Qed.

Lemma pot_part_cleaned (part : pystr) (x : spec_float) :
  part ≠ [] → Forall (λ c, isspace c = false) part → 44 ∉ part →
  float_of_str part = Some x →
  (36 ∉ part) ∧ clean_pot_value (JStr part) = Returns x.
Proof.
  intros Hne Hsp H44 Hf.
  pose proof (float_text_no_dollar part x Hsp Hf) as H36.
  split; [done|].
  assert (H32 : 32 ∉ part).
  { intros H. rewrite Forall_forall in Hsp. specialize (Hsp 32 H). discriminate. }
  assert (Hna : part ≠ py "N/A").
  { intros ->. vm_compute in Hf. discriminate. }
  unfold clean_pot_value. cbn [is_none eq_str orb].
  rewrite (str_eqb_ne _ _ Hna).
  rewrite (replace_char_absent 36 part H36), (replace_char_absent 44 part H44),
    (replace_char_absent 32 part H32).
  rewrite (str_eqb_ne _ _ Hne).
  assert (Hu : upper part ≠ py "N/A").
  { intros H%upper_na_not_float. congruence. }
  rewrite (str_eqb_ne _ _ Hu). cbn [orb]. by rewrite Hf.
Qed.

(** X21. The pot the OCR reads and the pot the cleaner makes of it.  For
    ASCII texts, [_pot] returns "N/A" when no part of the texts, commas
    removed and split at white space, is accepted by [float], and the
    cleaner turns that into 0.0.  Otherwise it returns such a part: it
    has no white space, no comma and no dollar sign, so the replacements
    of [clean_pot_value] leave it as it is and the cleaned pot is the
    float of that part. *)
Theorem pot_read_then_cleaned (raw : list pystr) :
  Forall ascii_text raw →
  (OCR._pot raw = py "N/A"
   ∧ (∀ t part, t ∈ raw → part ∈ OCR.split (replace_char 44 [] t) →
        float_of_str part = None)
   ∧ clean_pot_value (JStr (OCR._pot raw)) = Returns float_zero)
  ∨ (∃ t x,
       t ∈ raw ∧ OCR._pot raw ∈ OCR.split (replace_char 44 [] t)
       ∧ Forall (λ c, isspace c = false ∧ c ≠ 44 ∧ c ≠ 36) (OCR._pot raw)
       ∧ float_of_str (OCR._pot raw) = Some x
       ∧ clean_pot_value (JStr (OCR._pot raw)) = Returns x).
Proof.
  intros _. unfold OCR._pot.
  destruct (find _ _) as [part|] eqn:Hfind.
  - right. apply find_some in Hfind as [Hin Hf].
    apply in_flat_map in Hin as (t & Ht & Hin).
    apply list_elem_of_In in Ht, Hin.
    apply bool_decide_eq_true_1 in Hf as [x Hf].
    destruct (split_parts _ _ Hin) as [Hne Hp].
    assert (Hsp : Forall (λ c, isspace c = false) part).
    { eapply Forall_impl; [exact Hp|]. by intros c [? _]. }
    assert (H44 : 44 ∉ part).
    { intros H. rewrite Forall_forall in Hp. destruct (Hp 44 H) as [_ Hc].
      apply elem_of_replace_char in Hc. by destruct Hc. }
    destruct (pot_part_cleaned part x Hne Hsp H44 Hf) as [H36 Hc].
    exists t, x. repeat split; try done.
    apply Forall_forall. intros c Hc'. rewrite Forall_forall in Hsp.
    repeat split; [by apply Hsp|by intros ->|by intros ->].
  - left. split; [done|]. split; [|by vm_compute].
    intros t part Ht Hp.
    pose proof (find_none _ _ Hfind part) as Hn.
    destruct (float_of_str part) eqn:Hf; [|done]. exfalso.
    assert (Hin : In part (flat_map (λ t, OCR.split (replace_char 44 [] t)) raw)).
    { apply in_flat_map. exists t. by rewrite <- !list_elem_of_In. }
    specialize (Hn Hin). cbv beta in Hn. apply bool_decide_eq_false_1 in Hn.
    apply Hn. by rewrite Hf.
Qed.

Lemma pot_read_then_cleaned_witness :
  OCR._pot [py "Pot: 1,250.50 chips"] = py "1250.50"
  ∧ ((OCR._pot [py "Pot: 1,250.50 chips"] = py "N/A"
      ∧ (∀ t part, t ∈ [py "Pot: 1,250.50 chips"] →
           part ∈ OCR.split (replace_char 44 [] t) → float_of_str part = None)
      ∧ clean_pot_value (JStr (OCR._pot [py "Pot: 1,250.50 chips"])) = Returns float_zero)
     ∨ (∃ t x,
          t ∈ [py "Pot: 1,250.50 chips"]
          ∧ OCR._pot [py "Pot: 1,250.50 chips"] ∈ OCR.split (replace_char 44 [] t)
          ∧ Forall (λ c, isspace c = false ∧ c ≠ 44 ∧ c ≠ 36)
                   (OCR._pot [py "Pot: 1,250.50 chips"])
          ∧ float_of_str (OCR._pot [py "Pot: 1,250.50 chips"]) = Some x
          ∧ clean_pot_value (JStr (OCR._pot [py "Pot: 1,250.50 chips"])) = Returns x)).
Proof.
  split; [vm_compute; reflexivity|].
  apply (pot_read_then_cleaned [py "Pot: 1,250.50 chips"]).
  repeat constructor.
Defined.

(** ** ocr.py: the seat of the button *)

Lemma float_ltb_trans (x y z : spec_float) :
  float_ltb x y = true → float_ltb y z = true → float_ltb x z = true.
Proof.
  unfold float_ltb, SFltb, SFcompare.
  destruct x as [sx|sx| |sx mx ex], y as [sy|sy| |sy my ey], z as [sz|sz| |sz mz ez];
    try discriminate;
    repeat match goal with s : bool |- _ => destruct s end;
    try discriminate; try reflexivity;
    repeat match goal with
           | |- context [Pos.compare_cont Eq ?a ?b] =>
               change (Pos.compare_cont Eq a b) with (Pos.compare a b)
           end;
    destruct (Z.compare_spec ex ey), (Z.compare_spec ey ez), (Z.compare_spec ex ez);
    try discriminate; try reflexivity; try lia; subst;
    destruct (Pos.compare_spec mx my), (Pos.compare_spec my mz), (Pos.compare_spec mx mz);
    cbn [CompOpp]; try discriminate; try reflexivity; lia.
Qed.

Lemma float_ltb_irrefl (x : spec_float) : float_ltb x x = false.
Proof.
  unfold float_ltb, SFltb, SFcompare.
  destruct x as [s|s| |s m e]; try reflexivity; destruct s; try reflexivity;
    rewrite Z.compare_refl;
    change (Pos.compare_cont Eq m m) with (Pos.compare m m);
    by rewrite Pos.compare_refl.
Qed.

Lemma float_ltb_asym (x y : spec_float) : float_ltb x y = true → float_ltb y x = false.
Proof.
  intros H. destruct (float_ltb y x) eqn:H'; [|done].
  pose proof (float_ltb_trans x y x H H') as Hxx. by rewrite float_ltb_irrefl in Hxx.
Qed.

(** [min]: the key returned has a value none of the others is below. *)
Lemma min_by_least (rest : list (pystr * spec_float)) (best : pystr) (best_v : spec_float) :
  ∃ v, (OCR.min_by best best_v rest, v) ∈ (best, best_v) :: rest
       ∧ (float_ltb v best_v = true ∨ v = best_v)
       ∧ ∀ k w, (k, w) ∈ rest → float_ltb w v = false.
Proof.
  revert best best_v. induction rest as [|[k w] rest IH]; intros best best_v.
  - exists best_v. split; [by left|]. split; [by right|].
    intros k w H. by apply elem_of_nil in H.
  - cbn [OCR.min_by]. destruct (float_ltb w best_v) eqn:Hw.
    + destruct (IH k w) as (v & Hin & Hv & Hrest). exists v.
      split; [by right|]. split.
      * left. destruct Hv as [Hv| ->]; [by apply (float_ltb_trans v w)|done].
      * intros k' w' [[= -> ->]|Hin']%elem_of_cons; [|by apply (Hrest k')].
        destruct Hv as [Hv| ->]; [by apply float_ltb_asym|apply float_ltb_irrefl].
    + destruct (IH best best_v) as (v & Hin & Hv & Hrest). exists v.
      split; [apply elem_of_cons in Hin as [Hin|Hin]; [rewrite Hin; left|right; by right]|].
      split; [done|].
      intros k' w' [[= -> ->]|Hin']%elem_of_cons; [|by apply (Hrest k')].
      destruct Hv as [Hv| ->]; [|done].
      destruct (float_ltb w v) eqn:H'; [|done].
      by rewrite (float_ltb_trans w v best_v H' Hv) in Hw.
Qed.

Lemma index_lookup (x : pystr) (lst : list pystr) :
  x ∈ lst → lst !! OCR.index x lst = Some x ∧ (OCR.index x lst < length lst)%nat.
Proof.
  induction lst as [|y lst IH]; [by intros ?%elem_of_nil|].
  intros H. cbn [OCR.index]. destruct (str_eqb y x) eqn:Hy.
  - apply str_eqb_eq in Hy as ->. split; [done|simpl; lia].
  - apply elem_of_cons in H as [->|H].
    + unfold str_eqb in Hy. by apply bool_decide_eq_false_1 in Hy.
    + destruct (IH H) as [H1 H2]. split; [done|simpl; lia].
Qed.

Lemma dict_of_items_nodup {V} (items : list (pystr * V)) :
  NoDup (map fst items) → dict_of_items items = items.
Proof.
  intros Hnd. unfold dict_of_items.
  rewrite (fold_dict_set_nodup _ items []); [done|done|done|].
  intros k _. apply not_elem_of_nil.
Qed.

Lemma seated_filter (f : frame) :
  (OCR._bankrolls f).2
  = filter (λ p, negb (str_eqb (OCR._first (bank_text f p)) (py "N/A"))) seats.
Proof.
  unfold OCR._bankrolls. cbn [snd].
  rewrite (dict_comp_nodup _ seats NoDup_seats).
  induction seats as [|p l IH]; [done|].
  cbn [map]. rewrite !filter_cons. cbn [snd].
  destruct (decide _); cbn [map fst]; by rewrite IH.
Qed.

Lemma seated_facts (f : frame) :
  NoDup (OCR._bankrolls f).2 ∧ (length (OCR._bankrolls f).2 ≤ 7)%nat
  ∧ ∀ p, p ∈ (OCR._bankrolls f).2 ↔ p ∈ seats ∧ OCR._first (bank_text f p) ≠ py "N/A".
Proof.
  rewrite seated_filter. split; [apply NoDup_filter, NoDup_seats|].
  split; [apply (length_filter _ seats)|].
  intros p. rewrite list_elem_of_filter. split.
  - intros [H Hin]. split; [done|]. intros Heq.
    apply str_eqb_eq in Heq. rewrite Heq in H. done.
  - intros [Hin H]. split; [|done]. by rewrite (str_eqb_ne _ _ H).
Qed.

Lemma positions_rotation (seated : list pystr) (f : frame) :
  NoDup seated → (length seated ≤ 7)%nat → seated ≠ [] →
  let dist p := match position_dist f p with Some d => d | None => float_inf end in
  ∃ btn i,
    seated !! i = Some btn
    ∧ (∀ p, p ∈ seated → float_ltb (dist p) (dist btn) = false)
    ∧ OCR._positions seated f
      = zip (drop i seated ++ take i seated) OCR.position_labels.
Proof.
  intros Hnd Hlen Hne dist. unfold OCR._positions. fold dist.
  rewrite (dict_comp_nodup dist seated Hnd).
  destruct seated as [|p0 rest]; [done|]. cbn [map].
  set (dists := map (λ k, (k, dist k)) rest).
  destruct (min_by_least dists p0 (dist p0)) as (v & Hin & Hv & Hleast).
  set (btn := OCR.min_by p0 (dist p0) dists) in *.
  assert (Hvb : v = dist btn ∧ btn ∈ p0 :: rest).
  { apply elem_of_cons in Hin as [[= -> ->]|Hin]; [split; [done|by left]|].
    apply list_elem_of_fmap in Hin as (k & [= -> ->] & Hk). split; [done|by right]. }
  destruct Hvb as [-> Hbtn].
  destruct (index_lookup btn (p0 :: rest) Hbtn) as [Hi Hlt].
  set (i := OCR.index btn (p0 :: rest)) in *.
  exists btn, i. split; [done|]. split.
  - intros p [->|Hp]%elem_of_cons.
    + destruct Hv as [Hv|Hv]; [by apply float_ltb_asym|].
      rewrite Hv. apply float_ltb_irrefl.
    + apply (Hleast p). apply list_elem_of_fmap. by exists p.
  - cbv zeta. set (order := drop i (p0 :: rest) ++ take i (p0 :: rest)).
    assert (Hperm : order ≡ₚ p0 :: rest).
    { unfold order. rewrite Permutation_app_comm. by rewrite take_drop. }
    assert (Hol : length order = length (p0 :: rest)) by by rewrite Hperm.
    assert (Hz : zip order (take (length order) OCR.position_labels)
                 = zip order OCR.position_labels).
    { by apply zip_with_take_r. }
    rewrite Hz. apply dict_of_items_nodup.
    rewrite fst_zip; [by rewrite Hperm|].
    rewrite Hol. exact Hlen.
Qed.

(** X22. The positions of a cycle follow the button.  When somebody is
    seated, the button is the seated player whose position mark is
    nearest to the button colour, a capture that fails counting as
    infinitely far: no seated player is strictly nearer.  The labels BTN,
    SB, BB, UTG, MP, CO, HJ are given in seat order from the button on,
    cyclically, one to each seated player. *)
Theorem positions_follow_the_button (self : OCR.t) (f : frame) :
  let s := OCR.next (OCR.refresh_all self f) in
  let seated := OCR.seated_players s in
  let dist p := match position_dist f p with Some d => d | None => float_inf end in
  seated ≠ [] →
  ∃ btn i,
    seated !! i = Some btn
    ∧ (∀ p, p ∈ seated → float_ltb (dist p) (dist btn) = false)
    ∧ OCR.positions s = zip (drop i seated ++ take i seated) OCR.position_labels
    ∧ dict_lookup btn (OCR.positions s) = Some (py "BTN")
    ∧ map fst (OCR.positions s) ≡ₚ seated.
Proof.
  intros s seated dist Hne.
  pose proof (refresh_all_seated self f) as Hs. cbv zeta in Hs.
  pose proof (refresh_all_readers self f) as (_ & _ & Hp). cbv zeta in Hp.
  fold s in Hs, Hp. fold seated in Hp.
  destruct (seated_facts f) as (Hnd & Hlen & _).
  rewrite <- Hs in Hnd, Hlen. fold seated in Hnd, Hlen.
  destruct (positions_rotation seated f Hnd Hlen Hne) as (btn & i & Hi & Hleast & Hz).
  exists btn, i. rewrite Hp, Hz. split; [done|]. split; [done|]. split; [done|].
  assert (Hperm : drop i seated ++ take i seated ≡ₚ seated).
  { rewrite Permutation_app_comm. by rewrite take_drop. }
  split.
  - rewrite (drop_S seated btn i Hi). cbn [app zip zip_with OCR.position_labels dict_lookup].
    assert (Hb : str_eqb btn btn = true) by (by apply str_eqb_eq).
    by rewrite Hb.
  - rewrite fst_zip; [done|]. rewrite Hperm. exact Hlen.
Qed.

Lemma positions_follow_the_button_witness :
  ∃ btn i,
    OCR.seated_players (OCR.next (OCR.refresh_all (OCR.init GameState.init)
                                    (table_frame [] ace_king []))) !! i = Some btn
    ∧ dict_lookup btn
        (OCR.positions (OCR.next (OCR.refresh_all (OCR.init GameState.init)
                                    (table_frame [] ace_king []))))
      = Some (py "BTN").
Proof.
  destruct (positions_follow_the_button (OCR.init GameState.init)
              (table_frame [] ace_king [])) as (btn & i & H1 & _ & _ & H2 & _).
  - vm_compute. discriminate.
  - by exists btn, i.
Defined.

(** ** ocr.py: the dicts of a cycle *)

Lemma filter_members (P : pystr → bool) (l l' : list pystr) :
  (∀ x, x ∈ l → (x ∈ l' ↔ P x = true)) →
  filter (λ p, str_in p l') l = filter (λ p, P p) l.
Proof.
  induction l as [|x l IH]; intros H; [done|].
  rewrite !filter_cons.
  assert (Hx : str_in x l' = P x).
  { apply eq_true_iff_eq. rewrite str_in_elem. apply H. by left. }
  rewrite Hx, IH; [done|]. intros y Hy. apply H. by right.
Qed.

Lemma vpips_keys (f : frame) :
  map fst (OCR._vpips (OCR._bankrolls f).2 f) = (OCR._bankrolls f).2.
Proof.
  unfold OCR._vpips.
  assert (Hf : filter (λ p, str_in p (OCR._bankrolls f).2) seats = (OCR._bankrolls f).2).
  { etransitivity; [|symmetry; apply seated_filter].
    apply (filter_members (λ p, negb (str_eqb (OCR._first (bank_text f p)) (py "N/A")))).
    intros x Hx. destruct (seated_facts f) as (_ & _ & Hin). rewrite Hin.
    split.
    - intros [_ H]. by rewrite (str_eqb_ne _ _ H).
    - intros H. split; [done|]. intros Heq%str_eqb_eq. by rewrite Heq in H. }
  rewrite Hf. destruct (seated_facts f) as (Hnd & _).
  rewrite (dict_comp_nodup _ _ Hnd). apply map_fst_pairs.
Qed.

Lemma actions_step_sets (f : frame) (folded : gset pystr) (acts : list (pystr * pystr))
    (p : pystr) :
  ∃ v, (OCR._actions_step f (folded, acts) p).2 = dict_set p v acts.
Proof.
  unfold OCR._actions_step.
  destruct (str_in p seats); [|by eexists].
  destruct (contains (py "fold") _); [by eexists|].
  destruct (bool_decide _); [by eexists|].
  destruct (contains (py "raise") _); [by eexists|].
  destruct (contains (py "call") _); by eexists.
Qed.

Lemma actions_keys (f : frame) (l : list pystr) (st : gset pystr * list (pystr * pystr)) :
  NoDup l → (∀ k, k ∈ l → k ∉ map fst st.2) →
  map fst (fold_left (OCR._actions_step f) l st).2 = map fst st.2 ++ l.
Proof.
  revert st. induction l as [|p l IH]; intros [folded acts] Hnd Hdis.
  - simpl. by rewrite app_nil_r.
  - apply NoDup_cons in Hnd as [Hp Hnd]. cbn [fold_left].
    destruct (actions_step_sets f folded acts p) as [v Hv].
    destruct (OCR._actions_step f (folded, acts) p) as [folded' acts'] eqn:Hstep.
    cbn [snd] in Hv. subst acts'. cbn [snd] in *.
    rewrite IH; [|done|].
    + cbn [snd]. rewrite dict_set_fresh by (apply Hdis; by left).
      rewrite map_app. cbn [map fst]. by rewrite <- app_assoc.
    + intros k Hk. cbn [snd]. rewrite dict_set_keys_in. intros [->|Hin]; [done|].
      revert Hin. apply Hdis. by right.
Qed.

Lemma refresh_all_last (self : OCR.t) (f : frame) :
  OCR.last_board (OCR.next (OCR.refresh_all self f)) = board_read f
  ∧ OCR.last_hero_cards (OCR.next (OCR.refresh_all self f)) = hero_read f.
Proof. unfold OCR.refresh_all. by destruct (OCR.track _ _ _ _) as [[[??]?]?]. Qed.

(** X23. The dicts an [OCR] object holds after any cycle.  The seated
    players are the seats, in the order of the tables, whose bankroll
    region reads something; [bankrolls] has all seven seats as keys;
    [vpips], [actions] and [bets] have the seated players as keys, in
    seat order, and [positions] has them in the order of the labels.  The
    street count, the last board and the last hero cards are those of
    the readings of the cycle. *)
Theorem refresh_all_keys (self : OCR.t) (f : frame) :
  let s := OCR.next (OCR.refresh_all self f) in
  let seated := OCR.seated_players s in
  seated = filter (λ p, negb (str_eqb (OCR._first (bank_text f p)) (py "N/A"))) seats
  ∧ map fst (OCR.bankrolls s) = seats
  ∧ map fst (OCR.vpips s) = seated
  ∧ map fst (OCR.positions s) ≡ₚ seated
  ∧ map fst (OCR.actions s) = seated
  ∧ map fst (OCR.bets s) = seated
  ∧ OCR.last_street_count s = length (board_read f)
  ∧ OCR.last_board s = board_read f
  ∧ OCR.last_hero_cards s = hero_read f.
Proof.
  intros s seated. subst seated.
  pose proof (refresh_all_seated self f) as Hs. cbv zeta in Hs.
  pose proof (refresh_all_readers self f) as (Hb & Hv & Hp). cbv zeta in Hb, Hv, Hp.
  pose proof (refresh_all_track self f) as Ht. cbv zeta in Ht.
  fold s in Hs, Hb, Hv, Hp, Ht. rewrite Hs in Hv, Hp. rewrite Hs.
  set (seated := (OCR._bankrolls f).2) in *.
  destruct (seated_facts f) as (Hnd & Hlen & _). fold seated in Hnd, Hlen.
  split; [apply seated_filter|].
  split; [rewrite Hb, bankrolls_items; apply map_fst_pairs|].
  split; [rewrite Hv; apply vpips_keys|].
  split.
  { destruct seated as [|p0 rest] eqn:Hseated.
    - rewrite Hp. reflexivity.
    - destruct (positions_rotation (p0 :: rest) f Hnd Hlen) as (btn & i & _ & _ & Hz);
        [done|].
      rewrite Hp, Hz.
      assert (Hperm : drop i (p0 :: rest) ++ take i (p0 :: rest) ≡ₚ p0 :: rest).
      { rewrite Permutation_app_comm. by rewrite take_drop. }
      rewrite fst_zip; [done|]. rewrite Hperm. exact Hlen. }
  destruct (refresh_all_last self f) as [Hlb Hlh]. fold s in Hlb, Hlh.
  revert Ht. unfold OCR.track.
  destruct (negb _ || _) eqn:Hbranch.
  - intros [= Ha Hbt _ Hc]. rewrite Ha, Hbt, Hc.
    rewrite !(dict_comp_nodup _ _ Hnd), !map_fst_pairs.
    repeat split; done.
  - destruct (OCR._actions _ _ _) as [folded acts] eqn:Hacts.
    intros [= Ha Hbt _ Hc]. rewrite Ha, Hbt, Hc.
    unfold OCR._bets. rewrite (dict_comp_nodup _ _ Hnd), map_fst_pairs.
    assert (Hk : map fst acts = seated).
    { pose proof (actions_keys f seated (OCR.folded_players self, []) Hnd) as H.
      unfold OCR._actions in Hacts. rewrite Hacts in H.
      apply H. intros k _. apply not_elem_of_nil. }
    apply orb_false_iff in Hbranch as [Hst _]. apply negb_false_iff in Hst.
    apply Nat.eqb_eq in Hst.
    repeat split; done.
Qed.

(** ** From the OCR document to the cleaned state *)

Lemma clean_players_kept (items : list (pystr * json)) (name : pystr) :
  name ∈ map fst (clean_players_data (JDict items)) →
  ∃ info, (name, JDict info) ∈ items
    ∧ eq_str (dict_get info (py "bankroll") (JStr (py "N/A"))) (py "N/A") = false
    ∧ truthy (dict_get info (py "bankroll") (JStr (py "N/A"))) = true.
Proof.
  intros H. destruct (clean_players_fold items []) as (_ & _ & _ & H4);
    [apply NoDup_nil_2|constructor|].
  destruct (H4 name H) as [Hn|(info & Hin & Hna & Ht & _)].
  - by apply elem_of_nil in Hn.
  - by exists info.
Qed.

(** X24. The players of the cleaned state are seated players.  The
    document a cycle returns has an entry for each of the seven seats,
    with "N/A" as the bankroll of a seat that is not occupied; cleaning
    it never raises, the pot of the cleaned state is the cleaned pot
    reading, and every player the cleaner keeps is a seated player of the
    cycle whose bankroll region reads a non-empty text. *)
Theorem cleaned_players_are_seated (self : OCR.t) (f : frame) (doc : json) :
  OCR.returned (OCR.refresh_all self f) = Some doc →
  (∀ e, clean_decoded doc ≠ Raises e)
  ∧ ∀ state, clean_decoded doc = Returns (Some state) →
      ∃ pot players,
        state = JDict [(py "pot", JFloat pot);
                       (py "board",
                         JList (map JStr (clean_card_list (JList (map JStr (board_read f))))));
                       (py "hero_cards",
                         JList (map JStr (clean_card_list (JList (map JStr (hero_read f))))));
                       (py "players", JDict players)]
        ∧ clean_pot_value (JStr (pot_read f)) = Returns pot
        ∧ ∀ name, name ∈ map fst players →
            name ∈ OCR.seated_players (OCR.next (OCR.refresh_all self f))
            ∧ OCR._first (bank_text f name) ≠ [].
Proof.
  intros Hdoc. pose proof (refresh_all_document self f) as Hd. cbv zeta in Hd.
  rewrite Hdoc in Hd. destruct Hd as [Hd|Hd]; [discriminate|].
  apply (inj Some) in Hd. subst doc. clear Hdoc.
  pose proof (refresh_all_readers self f) as (Hb & _). cbv zeta in Hb.
  pose proof (refresh_all_seated self f) as Hs. cbv zeta in Hs.
  set (s := OCR.next (OCR.refresh_all self f)) in *.
  rewrite clean_decoded_unfold.
  change (dict_get _ (py "pot") JNull) with (JStr (pot_read f)).
  change (dict_get _ (py "board") (JList [])) with (JList (map JStr (board_read f))).
  change (dict_get _ (py "hero_cards") (JList [])) with (JList (map JStr (hero_read f))).
  match goal with
  | |- context [dict_get _ (py "players") (JDict [])] =>
      match goal with
      | |- context [(py "players", JDict ?items)] =>
          change (dict_get _ (py "players") (JDict [])) with (JDict items);
          set (players_doc := items)
      end
  end.
  destruct (clean_pot_value (JStr (pot_read f))) as [e|pot] eqn:Hpot.
  { apply clean_pot_value_raises in Hpot as (z & Hz & _). discriminate. }
  cbn [bind]. cbv zeta. split.
  - intros e. destruct (_ || _ || _); discriminate.
  - intros state. remember (clean_players_data (JDict players_doc)) as players eqn:Hpl.
    destruct (_ || _ || _); [discriminate|]. intros Hst.
    exists pot, players. split; [congruence|]. split; [reflexivity|].
    rewrite Hpl. clear Hst Hpl.
    intros name (info & Hin & Hna & Ht)%clean_players_kept.
    apply list_elem_of_fmap in Hin as (p & [= -> ->] & Hp).
    change (dict_get _ (py "bankroll") (JStr (py "N/A")))
      with (JStr (dict_get (OCR.bankrolls s) p (py "N/A"))) in Hna, Ht.
    cbn [eq_str truthy] in Hna, Ht.
    assert (Hbank : dict_get (OCR.bankrolls s) p (py "N/A") = OCR._first (bank_text f p)).
    { rewrite Hb. unfold OCR._bankrolls, dict_get. cbn [fst].
      rewrite dict_lookup_comp. by rewrite decide_True. }
    rewrite Hbank in Hna, Ht. rewrite Hs.
    destruct (seated_facts f) as (_ & _ & Hseat). split.
    + apply Hseat. split; [done|]. intros Heq. apply str_eqb_eq in Heq. congruence.
    + intros Heq. by rewrite Heq in Ht.
Qed.

Lemma cleaned_players_are_seated_witness :
  is_Some (OCR.returned (OCR.refresh_all (OCR.init GameState.init)
                           (table_frame [] ace_king [])))
  ∧ clean_decoded (GameState.to_json
        (OCR.state (OCR.next (OCR.refresh_all (OCR.init GameState.init)
                                (table_frame [] ace_king [])))))
    ≠ Raises OverflowError.
Proof.
  split; [eexists; vm_compute; reflexivity|].
  refine (proj1 (cleaned_players_are_seated (OCR.init GameState.init)
                   (table_frame [] ace_king []) _ _) OverflowError).
  vm_compute. reflexivity.
Defined.

(** X25. Every VPIP text a cycle stores is the text read with a percent
    sign added, so the cleaner puts it through the range check: it is
    cleaned to "--" or to itself, stripped, with a number between 0 and
    100. *)
Theorem vpips_read_are_range_checked (self : OCR.t) (f : frame) (p vpip : pystr) :
  dict_lookup p (OCR.vpips (OCR.next (OCR.refresh_all self f))) = Some vpip →
  p ∈ OCR.seated_players (OCR.next (OCR.refresh_all self f))
  ∧ vpip = OCR._first (vpip_text f p) ++ py "%"
  ∧ (clean_vpip_value (JStr vpip) = py "--"
     ∨ ∃ body percentage,
         clean_vpip_value (JStr vpip) = strip vpip
         ∧ strip vpip = body ++ py "%"
         ∧ float_of_str body = Some percentage
         ∧ float_leb float_zero percentage = true
         ∧ float_leb percentage float_100 = true).
Proof.
  pose proof (refresh_all_readers self f) as (_ & Hv & _). cbv zeta in Hv.
  pose proof (refresh_all_seated self f) as Hs. cbv zeta in Hs.
  rewrite Hv, Hs. unfold OCR._vpips. rewrite dict_lookup_comp.
  destruct (decide _) as [Hin|]; [|discriminate]. intros [= <-].
  apply list_elem_of_filter in Hin as [Hin _]. apply Is_true_true in Hin.
  apply str_in_elem in Hin. split; [done|]. split; [done|].
  destruct (clean_vpip_value_signed (OCR._first (vpip_text f p)))
    as [H|(body & x & H1 & H2 & H3)]; [by left|].
  right. exists body, x. split; [done|]. split; [|done]. by rewrite <- H1.
Qed.

Lemma vpips_read_are_range_checked_witness :
  py "Hero" ∈ OCR.seated_players (OCR.next (OCR.refresh_all (OCR.init GameState.init)
                                              (table_frame [] ace_king []))).
Proof.
  refine (proj1 (vpips_read_are_range_checked (OCR.init GameState.init)
                   (table_frame [] ace_king []) (py "Hero")
                   (OCR._first (vpip_text (table_frame [] ace_king []) (py "Hero"))
                    ++ py "%") _)).
  vm_compute. reflexivity.
Defined.

(** ** main.py: the polling interval after a cycle *)

Lemma refresh_all_state (self : OCR.t) (f : frame) :
  let c := OCR.refresh_all self f in
  (OCR.returned c = None → OCR.state (OCR.next c) = OCR.state self)
  ∧ (is_Some (OCR.returned c) →
     GameState.pot (OCR.state (OCR.next c)) = pot_read f
     ∧ GameState.board (OCR.state (OCR.next c)) = board_read f
     ∧ GameState.hero_cards (OCR.state (OCR.next c)) = hero_read f).
Proof.
  unfold OCR.refresh_all. destruct (OCR.track _ _ _ _) as [[[acts bts] fold] cnt].
  cbn [OCR.returned OCR.next OCR.state].
  destruct (_ || _).
  - split; [discriminate|]. intros _. repeat split; reflexivity.
  - split; [done|]. by intros [? ?].
Qed.

(** X26. The polling interval [get_dynamic_interval] chooses after a
    cycle.  A cycle that returns nothing leaves the shared state object
    as it was.  A cycle that returns a state has stored its readings, and
    the interval is 500 when two hero cards are read, else 1000 when the
    pot text is neither "N/A" nor "0", else 2000.  The pot is compared as
    a text: "0.00" is not "0" and gives 1000.  A new state object gives
    2000, and no other value than these three is ever returned. *)
Theorem dynamic_interval_after_cycle (self : OCR.t) (f : frame) :
  let c := OCR.refresh_all self f in
  let game_state := OCR.state (OCR.next c) in
  (OCR.returned c = None → game_state = OCR.state self)
  ∧ (is_Some (OCR.returned c) →
     get_dynamic_interval game_state
     = if (length (hero_read f) =? 2)%nat then 500%Z
       else if bool_decide (pot_read f ≠ py "N/A" ∧ pot_read f ≠ py "0") then 1000%Z
       else 2000%Z)
  ∧ get_dynamic_interval GameState.init = 2000%Z
  ∧ get_dynamic_interval (GameState.update_pot GameState.init (py "0.00")) = 1000%Z
  ∧ get_dynamic_interval (GameState.update_pot GameState.init (py "0")) = 2000%Z
  ∧ (∀ gs, get_dynamic_interval gs ∈ [500%Z; 1000%Z; 2000%Z]).
Proof.
  intros c game_state. destruct (refresh_all_state self f) as [Hn Hs].
  split; [exact Hn|]. split.
  - intros H. destruct (Hs H) as (Hp & _ & Hh). unfold get_dynamic_interval.
    fold c game_state in Hp, Hh. rewrite Hp, Hh.
    destruct (length (hero_read f) =? 2)%nat; [reflexivity|].
    unfold str_eqb. repeat case_bool_decide; try reflexivity; tauto.
  - split; [reflexivity|]. split; [reflexivity|]. split; [reflexivity|].
    intros gs. unfold get_dynamic_interval.
    destruct (_ =? _)%nat; [by left|].
    destruct (_ && _); [right; by left|right; right; by left].
Qed.

(** ** ocr.py: the rows of the display *)

Lemma ljust_length (w : nat) (text : pystr) :
  length (OCR.ljust w text) = max w (length text).
Proof. unfold OCR.ljust. rewrite length_app, repeat_length. lia. Qed.

Lemma join_length (sep : pystr) (parts : list pystr) (w : nat) :
  parts ≠ [] → Forall (λ p, length p = w) parts →
  (length (join sep parts) + length sep = length parts * (w + length sep))%nat.
Proof.
  induction parts as [|p parts IH]; [done|]. intros _ Hall.
  apply Forall_cons in Hall as [Hp Hall].
  destruct parts as [|q parts].
  - simpl. lia.
  - change (join sep (p :: q :: parts)) with (p ++ sep ++ join sep (q :: parts)).
    rewrite !length_app. specialize (IH ltac:(done) Hall).
    change (length (p :: q :: parts)) with (S (length (q :: parts))). lia.
Qed.

(** X27. The rows of the table [display] prints are aligned.  A cell is
    padded with blanks to the width and never cut; a row of cells none of
    which is longer than the width has the length of its cells times the
    width, plus two blanks between neighbours.  The heading and the rule
    below it, six cells at width 10, are 70 characters long. *)
Theorem row_length (c : list pystr) (w : nat) :
  c ≠ [] → Forall (λ cell, (length cell ≤ w)%nat) c →
  (length (OCR._row c w) = length c * w + 2 * (length c - 1))%nat
  ∧ (∀ cell, length (OCR.ljust w cell) = max w (length cell)
             ∧ take (length cell) (OCR.ljust w cell) = cell)
  ∧ length (OCR._row [py "Player"; py "Pos"; py "Bank"; py "VPIP"; py "Action"; py "Bet"]
                     10) = 70%nat
  ∧ length (OCR._row [py "------"; py "---"; py "-----"; py "----"; py "------"; py "---"]
                     10) = 70%nat.
Proof.
  intros Hne Hall. split; [|split; [|by vm_compute]].
  - unfold OCR._row.
    assert (Hw : Forall (λ p, length p = w) (map (OCR.ljust w) c)).
    { apply Forall_fmap. eapply Forall_impl; [exact Hall|].
      intros cell Hc. cbv beta in Hc. cbn. rewrite ljust_length. lia. }
    assert (Hm : map (OCR.ljust w) c ≠ []) by (by destruct c).
    pose proof (join_length (py "  ") _ w Hm Hw) as H.
    rewrite length_map in H. change (length (py "  ")) with 2%nat in H.
    remember (length (join (py "  ") (map (OCR.ljust w) c))) as n eqn:Hn. clear Hn.
    destruct c as [|c0 c]; [done|]. cbn [length] in *. nia.
  - intros cell. split; [apply ljust_length|].
    unfold OCR.ljust. by rewrite take_app_length.
Qed.

Lemma row_length_witness :
  (length (OCR._row [py "Hero"; py "BTN"] 10) = 2 * 10 + 2 * (2 - 1))%nat.
Proof.
  refine (proj1 (row_length [py "Hero"; py "BTN"] 10 _ _)).
  - discriminate.
  - repeat constructor.
Defined.
